(** * knowledge_rag: the graph view, its highlighting pass and the page state

    A shallow embedding of [components/KnowledgeGraph.tsx], [App.tsx],
    [types.ts] and [services/geminiService.ts].

    - [Js]     : what the code uses of the JavaScript runtime (UTF-16
                 strings, [includes], numbers, parsed JSON values);
    - [Types]  : the interfaces of [types.ts];
    - [D3]     : what the code uses of d3-zoom and d3-force;
    - [Graph]  : the highlighting pass of the component, on values;
    - [Dom]    : the object store, the simulation and the drawn elements;
    - [Page]   : the state of [App] and of the mounted component, the two
                 effects, the handlers and the events;
    - [Spec]   : the predicates of the specification and of the proofs.

    What the repository takes from outside is taken as given: the case
    mapping and the JSON parser and printer are the fields of the class
    [Runtime], the first placement of the nodes is the field of the class
    [Layout], and the numbers that the forces compute at a tick come with
    the tick ([Forces]). Transitions are modelled by the values they end
    on. [svgRef.current] is set as long as the component is mounted, so
    the tests [!svgRef.current] of the two effects are left out. *)

From Stdlib Require Import List Bool Arith NArith ZArith QArith Lia.
From Stdlib Require Import Strings.String Strings.Ascii.
From stdpp Require Import base list.
Import ListNotations.

Local Open Scope N_scope.

(* ===================================================================== *)
(** ** The JavaScript runtime *)
(* ===================================================================== *)

Module Js.

(** A JavaScript string is a sequence of UTF-16 code units. *)
Definition jsstring : Type := list N.

Definition continuation (a : ascii) : N := N.land (N_of_ascii a) 63.

(** Code units of a literal written in UTF-8 in this file. *)
Fixpoint utf16 (s : string) : jsstring :=
  match s with
  | EmptyString => []
  | String a s1 =>
    let b0 := N_of_ascii a in
    if b0 <? 128 then b0 :: utf16 s1
    else if b0 <? 224 then
      match s1 with
      | String b s2 =>
        (N.shiftl (N.land b0 31) 6 + continuation b) :: utf16 s2
      | _ => [65533]
      end
    else if b0 <? 240 then
      match s1 with
      | String b (String c s3) =>
        (N.shiftl (N.land b0 15) 12 + N.shiftl (continuation b) 6
         + continuation c) :: utf16 s3
      | _ => [65533]
      end
    else
      match s1 with
      | String b (String c (String d s4)) =>
        let cp := N.shiftl (N.land b0 7) 18 + N.shiftl (continuation b) 12
                  + N.shiftl (continuation c) 6 + continuation d in
        let v := cp - 65536 in
        (55296 + N.shiftr v 10) :: (56320 + N.land v 1023) :: utf16 s4
      | _ => [65533]
      end
  end.

Arguments utf16 : simpl never.

(** [a === b] on strings. *)
Definition str_eqb (a b : jsstring) : bool := bool_decide (a = b).

(** [t.startsWith(s)]. *)
Fixpoint startsWith (t s : jsstring) : bool :=
  match s, t with
  | [], _ => true
  | _ :: _, [] => false
  | c :: s', d :: t' => (c =? d) && startsWith t' s'
  end.

(** [t.includes(s)]: [s] occurs in [t] at some position. *)
Fixpoint includes (t s : jsstring) : bool :=
  startsWith t s ||
  match t with
  | [] => false
  | _ :: t' => includes t' s
  end.

(** [s.length > 0]. *)
Definition nonEmpty (s : jsstring) : bool :=
  match s with [] => false | _ :: _ => true end.

(** White space and line terminators, as [trim] sees them. *)
Definition isSpace (c : N) : bool :=
  (c =? 32) || ((9 <=? c) && (c <=? 13)) || (c =? 160) || (c =? 5760)
  || ((8192 <=? c) && (c <=? 8202)) || (c =? 8232) || (c =? 8233)
  || (c =? 8239) || (c =? 8287) || (c =? 12288) || (c =? 65279).

Fixpoint trimStart (s : jsstring) : jsstring :=
  match s with
  | c :: s' => if isSpace c then trimStart s' else s
  | [] => []
  end.

(** [s.trim()]. *)
Definition trim (s : jsstring) : jsstring :=
  rev (trimStart (rev (trimStart s))).

(** The case mapping of the basic Latin letters; code units outside
    [A-Z] are kept. It agrees with [String.prototype.toLowerCase] on
    text made of ASCII and of characters without case, such as the
    labels of the sample data. *)
Definition lowerUnit (c : N) : N :=
  if (65 <=? c) && (c <=? 90) then c + 32 else c.

Definition asciiLower (s : jsstring) : jsstring := map lowerUnit s.

(** A number: an IEEE double read as a rational, or [NaN]. *)
Inductive number : Type :=
| NaN
| Num (q : Q).

(** Truthiness of a number: [0] and [NaN] are falsy. *)
Definition truthyNumber (n : number) : bool :=
  match n with
  | NaN => false
  | Num q => negb (Qeq_bool q 0)
  end.

(** Truthiness of an optional number ([undefined] is falsy). *)
Definition truthyOpt (o : option number) : bool :=
  match o with
  | None => false
  | Some n => truthyNumber n
  end.

(** [a + b] where [a] may be [undefined]: [undefined + b] is [NaN]. *)
Definition plus (a : option number) (b : number) : number :=
  match a, b with
  | Some (Num p), Num q => Num (p + q)
  | _, _ => NaN
  end.

(** A value produced by [JSON.parse]. *)
#[warnings="-register-all"]
Inductive json : Type :=
| JNull
| JBool (b : bool)
| JNum (q : Q)
| JStr (s : jsstring)
| JArr (items : list json)
| JObj (fields : list (jsstring * json)).

(** Own property [key] of a parsed object. *)
Fixpoint field (key : jsstring) (fields : list (jsstring * json))
  : option json :=
  match fields with
  | [] => None
  | (k, v) :: rest => if str_eqb k key then Some v else field key rest
  end.

(** Result of evaluating an expression that may throw. *)
Inductive completion (A : Type) : Type :=
| Normal (a : A)
| Throw.
Arguments Normal {A} a.
Arguments Throw {A}.

(** [v.key] for a parsed value [v]: a [TypeError] on [null], [undefined]
    ([None]) on a missing property and on primitives and arrays. *)
Definition getProp (v : json) (key : jsstring) : completion (option json) :=
  match v with
  | JNull => Throw
  | JObj fields => Normal (field key fields)
  | _ => Normal None
  end.

(** Truthiness of a parsed value. *)
Definition truthy (v : option json) : bool :=
  match v with
  | None => false
  | Some JNull => false
  | Some (JBool b) => b
  | Some (JNum q) => negb (Qeq_bool q 0)
  | Some (JStr s) => nonEmpty s
  | Some (JArr _) => true
  | Some (JObj _) => true
  end.

(** [Array.isArray(v)]. *)
Definition isArray (v : option json) : option (list json) :=
  match v with
  | Some (JArr items) => Some items
  | _ => None
  end.

End Js.
Export Js.

(* ===================================================================== *)
(** ** types.ts *)
(* ===================================================================== *)

Module Types.

(** A pin field [fx], [fy]: [number | null | undefined]. *)
Inductive pin : Type :=
| Unset
| Null
| At (n : number).

(** [d.fx = d.x]. *)
Definition pinOf (o : option number) : pin :=
  match o with
  | None => Unset
  | Some n => At n
  end.

Record GraphNode : Type := mkNode {
  id : jsstring;
  label : jsstring;
  group : jsstring;
  description : option jsstring;
  radius : option number;
  index : option number;
  x : option number;
  y : option number;
  vx : option number;
  vy : option number;
  fx : pin;
  fy : pin;
}.

(** [source] and [target] of a link: [string | GraphNode]. [R] is what
    stands for the node object: the node itself in a value, its address
    in the object store. *)
Inductive Endpoint (R : Type) : Type :=
| ById (s : jsstring)
| ByNode (n : R).
Arguments ById {R} s.
Arguments ByNode {R} n.

Record Link (R : Type) : Type := mkLink {
  source : Endpoint R;
  target : Endpoint R;
  relation : jsstring;
  linkIndex : option number;
}.
Arguments mkLink {R} _ _ _ _.
Arguments source {R} _.
Arguments target {R} _.
Arguments relation {R} _.
Arguments linkIndex {R} _.

Definition GraphLink : Type := Link GraphNode.

Record GraphData : Type := mkData {
  nodes : list GraphNode;
  links : list GraphLink;
}.

Inductive Step : Type := idle | analyzing | building | complete | error.

Record GenerationStatus : Type := mkStatus {
  loading : bool;
  step : Step;
  message : jsstring;
}.

(** A node and a link as the sample data and the service write them. *)
Definition plainNode (i l g : jsstring) : GraphNode :=
  mkNode i l g None None None None None None None Unset Unset.

Definition plainLink {R} (s t r : jsstring) : Link R :=
  mkLink (ById s) (ById t) r None.

(** Runtime functions taken as given. *)
Class Runtime : Type := {
  (** [String.prototype.toLowerCase] *)
  toLowerCase : jsstring -> jsstring;
  (** [JSON.parse]; [None] when it throws a [SyntaxError] *)
  JSON_parse : jsstring -> option json;
  (** [JSON.stringify(data, null, indent)] *)
  JSON_stringify : GraphData -> nat -> jsstring;
}.

End Types.
Export Types.


(* ===================================================================== *)
(** ** d3-zoom and d3-force, as far as the component uses them *)
(* ===================================================================== *)

Module D3.

Local Open Scope Q_scope.

(** [d3.ZoomTransform]: the point [(px, py)] is drawn at
    [(k * px + tx, k * py + ty)]. *)
Record Transform : Type := mkTransform {
  k : Q;
  tx : Q;
  ty : Q;
}.

Definition zoomIdentity : Transform := mkTransform 1 0 0.

(** [t.translate(dx, dy)]. *)
Definition translate (t : Transform) (dx dy : Q) : Transform :=
  mkTransform (k t) (tx t + k t * dx) (ty t + k t * dy).

(** [t.scale(s)]. *)
Definition scale (t : Transform) (s : Q) : Transform :=
  mkTransform (k t * s) (tx t) (ty t).

(** [t.apply([px, py])]. *)
Definition applyTo (t : Transform) (p : Q * Q) : Q * Q :=
  (k t * fst p + tx t, k t * snd p + ty t).

(** A scale asked for by a gesture: a double, possibly [Infinity]. *)
Inductive request : Type :=
| Finite (q : Q)
| Infinite.

(** [Math.max(lo, Math.min(hi, r))], the clamp that d3-zoom applies to
    the scale of every gesture. *)
Definition clamp (extent : Q * Q) (r : request) : Q :=
  let m := match r with
           | Finite q => if Qle_bool (snd extent) q then snd extent else q
           | Infinite => snd extent
           end in
  if Qle_bool m (fst extent) then fst extent else m.

Definition times (q : Q) (r : request) : request :=
  match r with
  | Finite f => Finite (q * f)
  | Infinite => Infinite
  end.

(** What a pointer gesture asks of the zoom behaviour. *)
Inductive Gesture : Type :=
(** wheel, double click or pinch: multiply the scale by [factor],
    keeping the point under the pointer where it is *)
| ZoomBy (factor : request) (pointer : Q * Q)
(** drag of the background *)
| PanBy (dx dy : Q).

(** The transform after a gesture, for a behaviour with [scaleExtent]. *)
Definition gesture (extent : Q * Q) (t : Transform) (g : Gesture)
  : Transform :=
  match g with
  | ZoomBy factor p =>
    let k1 := clamp extent (times (k t) factor) in
    let inv := ((fst p - tx t) / k t, (snd p - ty t) / k t) in
    mkTransform k1 (fst p - fst inv * k1) (snd p - snd inv * k1)
  | PanBy dx dy => mkTransform (k t) (tx t + dx) (ty t + dy)
  end.

(** The numeric part of the layout that does not depend on the code
    of the component. *)
Class Layout : Type := {
  (** where [d3.forceSimulation] puts the [i]-th node that has no
      position yet *)
  phyllotaxis : nat -> Q * Q;
}.

(** [isNaN(v)] for a field that may be [undefined]. *)
Definition isNaN (o : option number) : bool :=
  match o with
  | Some (Num _) => false
  | _ => true
  end.

(** [v != null] for a pin field. *)
Definition pinned (p : pin) : option number :=
  match p with
  | At n => Some n
  | _ => None
  end.

(** [initializeNodes] of d3-force, for the [i]-th node. *)
Definition initializeNode {ly : Layout} (i : nat) (n : GraphNode) : GraphNode :=
  let x0 := match pinned (fx n) with Some v => Some v | None => x n end in
  let y0 := match pinned (fy n) with Some v => Some v | None => y n end in
  let '(x1, y1) :=
    if isNaN x0 || isNaN y0
    then (Some (Num (fst (phyllotaxis i))), Some (Num (snd (phyllotaxis i))))
    else (x0, y0) in
  let '(vx1, vy1) :=
    if isNaN (vx n) || isNaN (vy n)
    then (Some (Num 0), Some (Num 0))
    else (vx n, vy n) in
  mkNode (id n) (label n) (group n) (description n) (radius n)
         (Some (Num (inject_Z (Z.of_nat i))))
         x1 y1 vx1 vy1 (fx n) (fy n).

End D3.
Export D3.

(* ===================================================================== *)
(** ** KnowledgeGraph.tsx: the highlighting pass, on values *)
(* ===================================================================== *)

Module Graph.

Local Open Scope Q_scope.

(** [typeof e === 'object' ? e.id : e], also [getNodeId] of [App.tsx]. *)
Definition endpointId (e : Endpoint GraphNode) : jsstring :=
  match e with
  | ById s => s
  | ByNode n => id n
  end.

Section Highlight.

Context {rt : Runtime}.

(** The inputs of the effect: the search box, the [selectedNode]
    property and the [data] property. *)
Variable filterText : jsstring.
Variable selectedNode : option GraphNode.
Variable data : GraphData.

Definition isSearchActive : bool := nonEmpty filterText.

Definition isSelectionActive : bool :=
  match selectedNode with
  | Some _ => true
  | None => false
  end.

(** [n.label.toLowerCase().includes(filterText.toLowerCase())]. *)
Definition labelMatches (n : GraphNode) : bool :=
  includes (toLowerCase (label n)) (toLowerCase filterText).

(** The callback of [data.links.some] for the node [d] and the
    selected node [sel]. *)
Definition joins (sel d : GraphNode) (l : GraphLink) : bool :=
  (str_eqb (endpointId (source l)) (id sel)
   && str_eqb (endpointId (target l)) (id d))
  || (str_eqb (endpointId (target l)) (id sel)
      && str_eqb (endpointId (source l)) (id d)).

Definition isNodeHighlighted (d : GraphNode) : bool :=
  if isSearchActive then labelMatches d
  else
    match selectedNode with
    | Some sel => str_eqb (id d) (id sel) || existsb (joins sel d) (links data)
    | None => true
    end.

(** [typeof e === 'object' ? e : data.nodes.find(n => n.id === e)]. *)
Definition endpointNode (e : Endpoint GraphNode) : option GraphNode :=
  match e with
  | ByNode n => Some n
  | ById s => find (fun n => str_eqb (id n) s) (nodes data)
  end.

Definition isLinkHighlighted (d : GraphLink) : bool :=
  match selectedNode with
  | Some sel =>
    str_eqb (endpointId (source d)) (id sel)
    || str_eqb (endpointId (target d)) (id sel)
  | None =>
    if isSearchActive then
      match endpointNode (source d), endpointNode (target d) with
      | Some sourceNode, Some targetNode =>
        labelMatches sourceNode && labelMatches targetNode
      | _, _ => false
      end
    else true
  end.

Definition accent : string := "#6366f1".
Definition inactive : string := "#cbd5e1".

(** The style callbacks: [d => isNodeHighlighted(d) ? 1 : 0.1] and
    [d => isLinkHighlighted(d) ? "#6366f1" : "#cbd5e1"]. *)
Definition nodeOpacity (d : GraphNode) : Q :=
  if isNodeHighlighted d then 1 else 1 # 10.

Definition linkOpacity (d : GraphLink) : Q :=
  if isLinkHighlighted d then 1 else 1 # 10.

Definition linkStroke (d : GraphLink) : string :=
  if isLinkHighlighted d then accent else inactive.

(** [data.nodes.find(n => n.label.toLowerCase().includes(...))]. *)
Definition firstMatch : option GraphNode := find labelMatches (nodes data).

(** [zoomIdentity.translate(w / 2, h / 2).scale(1.5).translate(-x, -y)],
    computed exactly: the rounding of the doubles is not modelled. *)
Definition centerOn (dimensions : Q * Q) (px py : Q) : Transform :=
  translate
    (scale (translate zoomIdentity (fst dimensions / 2) (snd dimensions / 2))
           (3 # 2))
    (- px) (- py).

(** The block under [// Auto-center on search match]: the target of
    the transition, if one is started. [refs] tells whether
    [zoomRef.current] and [svgSelectionRef.current] are set. *)
Definition autoCenter (refs : bool) (dimensions : Q * Q)
  : option Transform :=
  if isSearchActive && refs then
    match firstMatch with
    | Some m =>
      match x m, y m with
      | Some (Num px), Some (Num py) =>
        if truthyNumber (Num px) && truthyNumber (Num py)
        then Some (centerOn dimensions px py)
        else None
      | _, _ => None
      end
    | None => None
    end
  else None.

(** A transition of the viewport started by the effect. *)
Record ZoomTransition : Type := mkZoomTransition {
  duration : Q;
  goal : Transform;
}.

(** What one run of the effect does to the elements it selects: the
    values the transitions end on, element by element
    ([.nodes g], [.links line], [.link-labels text]), and the
    transition of the viewport. *)
Record Pass : Type := mkPass {
  nodeOpacities : list Q;
  lineStyles : list (Q * string);
  labelOpacities : list Q;
  zoomTo : option ZoomTransition;
}.

Definition highlightPass (nodeData : list GraphNode)
           (lineData labelData : list GraphLink)
           (refs : bool) (dimensions : Q * Q) : Pass :=
  if negb isSearchActive && negb isSelectionActive then
    (* Reset view if nothing active *)
    mkPass (map (fun _ => 1) nodeData)
           (map (fun _ => (1, inactive)) lineData)
           (map (fun _ => 1) labelData)
           None
  else
    mkPass (map nodeOpacity nodeData)
           (map (fun d => (linkOpacity d, linkStroke d)) lineData)
           (map linkOpacity labelData)
           (option_map (mkZoomTransition 750) (autoCenter refs dimensions)).

End Highlight.

(** [INITIAL_DATA] of [App.tsx]. *)
Definition INITIAL_DATA : GraphData :=
  mkData
    [ plainNode (utf16 "ai") (utf16 "人工智能") (utf16 "技术");
      plainNode (utf16 "ml") (utf16 "机器学习") (utf16 "技术");
      plainNode (utf16 "dl") (utf16 "深度学习") (utf16 "技术");
      plainNode (utf16 "nn") (utf16 "神经网络") (utf16 "概念");
      plainNode (utf16 "gemini") (utf16 "Gemini") (utf16 "模型") ]
    [ plainLink (utf16 "ai") (utf16 "ml") (utf16 "包含");
      plainLink (utf16 "ml") (utf16 "dl") (utf16 "包含");
      plainLink (utf16 "dl") (utf16 "nn") (utf16 "使用");
      plainLink (utf16 "gemini") (utf16 "ai") (utf16 "属于") ].

End Graph.
Export Graph.

(* ===================================================================== *)
(** ** Objects, the simulation and the drawn elements *)
(* ===================================================================== *)

Module Dom.

Local Open Scope nat_scope.

(** Node and link objects live in a store and are named by their
    address: the simulation and the drag handlers write to objects, and
    a link copied by [{ ...d }] keeps pointing to the endpoint object of
    the original. *)
Abbreviation loc := nat.

Inductive obj : Type :=
| ONode (n : GraphNode)
| OLink (l : Link loc).

Abbreviation heap := (list obj).

Definition readNode (h : heap) (l : loc) : option GraphNode :=
  match h !! l with
  | Some (ONode n) => Some n
  | _ => None
  end.

Definition readLinkObj (h : heap) (l : loc) : option (Link loc) :=
  match h !! l with
  | Some (OLink lk) => Some lk
  | _ => None
  end.

Definition readEndpoint (h : heap) (e : Endpoint loc)
  : option (Endpoint GraphNode) :=
  match e with
  | ById s => Some (ById s)
  | ByNode l => option_map ByNode (readNode h l)
  end.

(** The link at [l] with its endpoint objects read out. *)
Definition readLink (h : heap) (l : loc) : option GraphLink :=
  match readLinkObj h l with
  | Some lk =>
    match readEndpoint h (source lk), readEndpoint h (target lk) with
    | Some s, Some t => Some (mkLink s t (relation lk) (linkIndex lk))
    | _, _ => None
    end
  | None => None
  end.

(** A [GraphData] object: its two arrays. *)
Record DataRef : Type := mkRef {
  nodeRefs : list loc;
  linkRefs : list loc;
}.

(** The graph that [d] denotes in the store [h]. *)
Definition readData (h : heap) (d : DataRef) : GraphData :=
  mkData (omap (readNode h) (nodeRefs d)) (omap (readLink h) (linkRefs d)).

(** *** Building the objects of a graph value
    (what [JSON.parse] and the literal [INITIAL_DATA] allocate) *)

Definition storeEndpoint (h : heap) (e : Endpoint GraphNode)
  : heap * Endpoint loc :=
  match e with
  | ById s => (h, ById s)
  | ByNode n => (h ++ [ONode n], ByNode (length h))
  end.

Definition storeLink (h : heap) (l : GraphLink) : heap * loc :=
  let '(h1, s) := storeEndpoint h (source l) in
  let '(h2, t) := storeEndpoint h1 (target l) in
  (h2 ++ [OLink (mkLink s t (relation l) (linkIndex l))], length h2).

Fixpoint storeLinks (h : heap) (ls : list GraphLink) : heap * list loc :=
  match ls with
  | [] => (h, [])
  | l :: rest =>
    let '(h1, a) := storeLink h l in
    let '(h2, others) := storeLinks h1 rest in
    (h2, a :: others)
  end.

Definition storeData (h : heap) (g : GraphData) : heap * DataRef :=
  let h1 := h ++ map ONode (nodes g) in
  let '(h2, ls) := storeLinks h1 (links g) in
  (h2, mkRef (seq (length h) (length (nodes g))) ls).

(** *** The simulation *)

(** [refs.map(d => ({ ...d }))]: a new object per element, with the
    same fields. *)
Fixpoint copyAll (h : heap) (refs : list loc) : heap * list loc :=
  match refs with
  | [] => (h, [])
  | l :: rest =>
    match h !! l with
    | Some o =>
      let '(h1, copies) := copyAll (h ++ [o]) rest in
      (h1, length h :: copies)
    | None => copyAll h rest
    end
  end.

Definition updateNode (f : GraphNode -> GraphNode) (l : loc) (h : heap)
  : heap :=
  match h !! l with
  | Some (ONode n) => <[l := ONode (f n)]> h
  | _ => h
  end.

(** [d3.forceSimulation(nodes)] gives every node an index, a position
    and a velocity. *)
Fixpoint initializeNodes {ly : Layout} (i : nat) (ls : list loc) (h : heap)
  : heap :=
  match ls with
  | [] => h
  | l :: rest => initializeNodes (S i) rest (updateNode (initializeNode i) l h)
  end.

(** [nodeById.get(key)] for [new Map(nodes.map(d => [d.id, d]))]: of
    two nodes with one id the later one is kept. *)
Definition nodeById (h : heap) (simNodes : list loc) (key : jsstring)
  : option loc :=
  find (fun l => match readNode h l with
                 | Some n => str_eqb (id n) key
                 | None => false
                 end)
       (rev simNodes).

(** [typeof e !== "object" ? find(nodeById, e) : e]; [None] when [find]
    throws [node not found]. *)
Definition resolveEndpoint (h : heap) (simNodes : list loc)
           (e : Endpoint loc) : option (Endpoint loc) :=
  match e with
  | ByNode l => Some (ByNode l)
  | ById s => option_map ByNode (nodeById h simNodes s)
  end.

(** [initialize] of [d3.forceLink(links).id(d => d.id)]: every link
    gets its index and its endpoints are replaced by node objects.
    [None] when a node is not found. *)
Fixpoint initializeLinks (simNodes : list loc) (i : nat) (ls : list loc)
         (h : heap) : option heap :=
  match ls with
  | [] => Some h
  | l :: rest =>
    match readLinkObj h l with
    | Some lk =>
      match resolveEndpoint h simNodes (source lk),
            resolveEndpoint h simNodes (target lk) with
      | Some s, Some t =>
        initializeLinks simNodes (S i) rest
          (<[l := OLink (mkLink s t (relation lk)
                                 (Some (Num (inject_Z (Z.of_nat i)))))]> h)
      | _, _ => None
      end
    | None => initializeLinks simNodes (S i) rest h
    end
  end.

Record Simulation : Type := mkSim {
  simNodes : list loc;
  simLinks : list loc;
  (** the timer of the simulation is running *)
  running : bool;
  alphaTarget : Q;
}.

Definition stop (s : Simulation) : Simulation :=
  mkSim (simNodes s) (simLinks s) false (alphaTarget s).

(** [simulation.alphaTarget(a).restart()] and [simulation.alphaTarget(a)]. *)
Definition retarget (a : Q) (restart : bool) (s : Simulation) : Simulation :=
  mkSim (simNodes s) (simLinks s) (restart || running s) a.

(** *** One tick of the simulation

    The numbers that the forces compute are given from outside; what is
    modelled is which fields of which objects a tick writes. *)

(** What the link force adds to the velocity of the target and of the
    source of one link. *)
Record LinkPull : Type := mkPull {
  onTarget : number * number;
  onSource : number * number;
}.

(** What the charge and collision forces add to the velocity of one
    node, and what the centering force adds to its position. *)
Record NodePush : Type := mkPush {
  push : number * number;
  shift : number * number;
}.

Record Forces : Type := mkForces {
  pulls : nat -> LinkPull;
  pushes : nat -> NodePush;
}.

Definition withMotion (n : GraphNode) (x1 y1 vx1 vy1 : option number)
  : GraphNode :=
  mkNode (id n) (label n) (group n) (description n) (radius n) (index n)
         x1 y1 vx1 vy1 (fx n) (fy n).

Definition withPin (n : GraphNode) (fx1 fy1 : pin) : GraphNode :=
  mkNode (id n) (label n) (group n) (description n) (radius n) (index n)
         (x n) (y n) (vx n) (vy n) fx1 fy1.

(** [o.vx += a; o.vy += b]. *)
Definition accelerate (delta : number * number) (n : GraphNode) : GraphNode :=
  withMotion n (x n) (y n)
             (Some (plus (vx n) (fst delta))) (Some (plus (vy n) (snd delta))).

(** The loop of the link force over the links of the simulation. *)
Fixpoint linkForce (f : Forces) (i : nat) (ls : list loc) (h : heap) : heap :=
  match ls with
  | [] => h
  | l :: rest =>
    let h1 :=
      match readLinkObj h l with
      | Some lk =>
        match source lk, target lk with
        | ByNode s, ByNode t =>
          updateNode (accelerate (onSource (pulls f i))) s
            (updateNode (accelerate (onTarget (pulls f i))) t h)
        | _, _ => h
        end
      | None => h
      end in
    linkForce f (S i) rest h1
  end.

Definition velocityDecay : Q := 3 # 5.

Definition scaled (q : Q) (n : number) : number :=
  match n with
  | NaN => NaN
  | Num p => Num (p * q)
  end.

(** The other forces on one node, then
    [if (node.fx == null) node.x += node.vx *= velocityDecay;
     else node.x = node.fx, node.vx = 0;] and the same for [y]. *)
Definition moveNode (p : NodePush) (n : GraphNode) : GraphNode :=
  let vx1 := plus (vx n) (fst (push p)) in
  let vy1 := plus (vy n) (snd (push p)) in
  let x1 := plus (x n) (fst (shift p)) in
  let y1 := plus (y n) (snd (shift p)) in
  let '(x2, vx2) :=
    match pinned (fx n) with
    | None => (plus (Some x1) (scaled velocityDecay vx1),
               scaled velocityDecay vx1)
    | Some v => (v, Num 0)
    end in
  let '(y2, vy2) :=
    match pinned (fy n) with
    | None => (plus (Some y1) (scaled velocityDecay vy1),
               scaled velocityDecay vy1)
    | Some v => (v, Num 0)
    end in
  withMotion n (Some x2) (Some y2) (Some vx2) (Some vy2).

Fixpoint moveNodes (f : Forces) (i : nat) (ls : list loc) (h : heap) : heap :=
  match ls with
  | [] => h
  | l :: rest => moveNodes f (S i) rest (updateNode (moveNode (pushes f i)) l h)
  end.

(** [simulation.tick()] on the objects of the simulation [s]. *)
Definition tickObjects (f : Forces) (s : Simulation) (h : heap) : heap :=
  moveNodes f 0 (simNodes s) (linkForce f 0 (simLinks s) h).

(** *** The rendered elements *)

(** A [<g>] of [.nodes]: its datum, the opacity set by the highlighting
    pass and the [translate(x,y)] set by the tick handler. *)
Record NodeElem : Type := mkNodeElem {
  nodeDatum : loc;
  opacity : option Q;
  nodeAt : option (option number * option number);
}.

(** A [<line>] of [.links]. *)
Record LineElem : Type := mkLineElem {
  lineDatum : loc;
  lineOpacity : option Q;
  stroke : string;
  lineFrom : option number * option number;
  lineTo : option number * option number;
}.

(** A [<text>] of [.link-labels]. *)
Record TextElem : Type := mkTextElem {
  textDatum : loc;
  textOpacity : option Q;
  textAt : option (number * number);
}.

Record Svg : Type := mkSvg {
  (** the run of the simulation effect that drew the children and whose
      simulation their handlers refer to; [None] before the first *)
  drawnBy : option nat;
  nodeElems : list NodeElem;
  lineElems : list LineElem;
  textElems : list TextElem;
  (** the transform that d3-zoom keeps on the [<svg>] *)
  zoomState : Transform;
  (** the [transform] attribute of the [<g>] *)
  groupTransform : option Transform;
  (** the viewport transitions started so far, latest first *)
  zoomLog : list ZoomTransition;
}.

Definition endpointXY (h : heap) (e : Endpoint loc)
  : option number * option number :=
  match e with
  | ByNode l =>
    match readNode h l with
    | Some n => (x n, y n)
    | None => (None, None)
    end
  | ById _ => (None, None)
  end.

(** [(a + b) / 2]. *)
Definition halfway (a b : option number) : number :=
  match a, b with
  | Some (Num p), Some (Num q) => Num ((p + q) / 2)
  | _, _ => NaN
  end.

(** The listener of ["tick"]. *)
Definition placeNode (h : heap) (e : NodeElem) : NodeElem :=
  match readNode h (nodeDatum e) with
  | Some n => mkNodeElem (nodeDatum e) (opacity e) (Some (x n, y n))
  | None => e
  end.

Definition placeLine (h : heap) (e : LineElem) : LineElem :=
  match readLinkObj h (lineDatum e) with
  | Some lk =>
    mkLineElem (lineDatum e) (lineOpacity e) (stroke e)
               (endpointXY h (source lk)) (endpointXY h (target lk))
  | None => e
  end.

Definition placeText (h : heap) (e : TextElem) : TextElem :=
  match readLinkObj h (textDatum e) with
  | Some lk =>
    let s := endpointXY h (source lk) in
    let t := endpointXY h (target lk) in
    mkTextElem (textDatum e) (textOpacity e)
               (Some (halfway (fst s) (fst t), halfway (snd s) (snd t)))
  | None => e
  end.

Definition onTick (h : heap) (s : Svg) : Svg :=
  mkSvg (drawnBy s)
        (map (placeNode h) (nodeElems s))
        (map (placeLine h) (lineElems s))
        (map (placeText h) (textElems s))
        (zoomState s) (groupTransform s) (zoomLog s).

End Dom.
Export Dom.

(* ===================================================================== *)
(** ** The page: [App] and the mounted [KnowledgeGraph] *)
(* ===================================================================== *)

Module Page.

Local Open Scope nat_scope.

(** State of [App]. *)
Record AppState : Type := mkApp {
  query : jsstring;
  graphData : DataRef;
  status : GenerationStatus;
  selectedNode : option loc;
  (** the messages shown by [alert], latest first *)
  alerts : list jsstring;
}.

(** State and refs of [KnowledgeGraph]. *)
Record ViewState : Type := mkView {
  dimensions : Q * Q;
  filterText : jsstring;
  (** every simulation created so far; a simulation is named by its
      position in this list *)
  sims : list Simulation;
  (** the cleanup function returned by the last run of the simulation
      effect: [() => simulation.stop()] *)
  cleanup : option nat;
  simulationRef : option nat;
  (** [zoomRef.current]: the scale extent of the behaviour, once set *)
  zoomRef : option (Q * Q);
  svgSelectionRef : bool;
  svg : Svg;
}.

(** A call of [handleGenerate] that is waiting: for the service, or,
    with the document it got, for the second delay. *)
Inductive Pending : Type :=
| Calling
| Building (newData : json).

Record World : Type := mkWorld {
  heap : list obj;
  app : AppState;
  view : ViewState;
  (** the calls of [handleGenerate] that have not returned *)
  inflight : list Pending;
}.

Definition withApp (a : AppState) (w : World) : World :=
  mkWorld (heap w) a (view w) (inflight w).

Definition withView (v : ViewState) (w : World) : World :=
  mkWorld (heap w) (app w) v (inflight w).

Definition withHeap (h : list obj) (w : World) : World :=
  mkWorld h (app w) (view w) (inflight w).

Definition withInflight (p : list Pending) (w : World) : World :=
  mkWorld (heap w) (app w) (view w) p.

Definition withSvg (s : Svg) (v : ViewState) : ViewState :=
  mkView (dimensions v) (filterText v) (sims v) (cleanup v)
         (simulationRef v) (zoomRef v) (svgSelectionRef v) s.

Definition withSims (ss : list Simulation) (v : ViewState) : ViewState :=
  mkView (dimensions v) (filterText v) ss (cleanup v)
         (simulationRef v) (zoomRef v) (svgSelectionRef v) (svg v).

(** *** The simulation effect, [useEffect(..., [data, dimensions])] *)

(** React calls the cleanup of the previous run before the next run. *)
Definition runCleanup (v : ViewState) : ViewState :=
  match cleanup v with
  | Some s =>
    mkView (dimensions v) (filterText v) (alter stop s (sims v)) None
           (simulationRef v) (zoomRef v) (svgSelectionRef v) (svg v)
  | None => v
  end.

Definition scaleExtent : Q * Q := ((1 # 10)%Q, 4%Q).

Definition drawNode (l : loc) : NodeElem := mkNodeElem l None None.

Definition drawLine (l : loc) : LineElem :=
  mkLineElem l None inactive (None, None) (None, None).

Definition drawText (l : loc) : TextElem := mkTextElem l None None.

(** An effect may end in an uncaught exception. *)
Inductive result : Type :=
| Done (w : World)
(** [find] of d3-force threw [node not found] *)
| NodeNotFound
(** [setGraphData] was given the document [doc], which has not the type
    [GraphData], and the state holds it from then on; [rest] is the state
    with the other setters of the handler applied, the graph apart. What
    the render and the effects do with such a document is outside the
    model. *)
| NotGraphData (doc : json) (rest : World).

Definition simulationEffect {ly : Layout} (w : World) : result :=
  let v := runCleanup (view w) in
  match nodeRefs (graphData (app w)) with
  | [] =>
    (* if (!data.nodes.length || !svgRef.current) return; *)
    Done (withView v w)
  | _ :: _ =>
    (* Deep copy data *)
    let '(h1, nodes) := copyAll (heap w) (nodeRefs (graphData (app w))) in
    let '(h2, links) := copyAll h1 (linkRefs (graphData (app w))) in
    (* Simulation setup *)
    let h3 := initializeNodes 0 nodes h2 in
    match initializeLinks nodes 0 links h3 with
    | None => NodeNotFound
    | Some h4 =>
      let s := length (sims v) in
      Done (mkWorld h4 (app w)
              (mkView (dimensions v) (filterText v)
                      (sims v ++ [mkSim nodes links true 0])
                      (Some s) (Some s) (Some scaleExtent) true
                      (* selectAll("*").remove(), then the new children;
                         svg.call(zoom) keeps the stored transform *)
                      (mkSvg (Some s) (map drawNode nodes)
                             (map drawLine links) (map drawText links)
                             (zoomState (svg v)) None (zoomLog (svg v))))
              (inflight w))
    end
  end.

(** *** The highlighting effect,
    [useEffect(..., [filterText, selectedNode, data, dimensions])] *)

Definition restyleNode (e : NodeElem) (o : Q) : NodeElem :=
  mkNodeElem (nodeDatum e) (Some o) (nodeAt e).

Definition restyleLine (e : LineElem) (st : Q * string) : LineElem :=
  mkLineElem (lineDatum e) (Some (fst st)) (snd st) (lineFrom e) (lineTo e).

Definition restyleText (e : TextElem) (o : Q) : TextElem :=
  mkTextElem (textDatum e) (Some o) (textAt e).

(** The data bound to the selected elements, the value of the
    [selectedNode] property and of the [data] property. *)
Definition boundNodes (w : World) : option (list GraphNode) :=
  mapM (readNode (heap w)) (map nodeDatum (nodeElems (svg (view w)))).

Definition boundLines (w : World) : option (list GraphLink) :=
  mapM (readLink (heap w)) (map lineDatum (lineElems (svg (view w)))).

Definition boundTexts (w : World) : option (list GraphLink) :=
  mapM (readLink (heap w)) (map textDatum (textElems (svg (view w)))).

Definition selected (w : World) : option GraphNode :=
  match selectedNode (app w) with
  | Some l => readNode (heap w) l
  | None => None
  end.

Definition dataProp (w : World) : GraphData :=
  readData (heap w) (graphData (app w)).

Definition refsSet (v : ViewState) : bool :=
  match zoomRef v with
  | Some _ => svgSelectionRef v
  | None => false
  end.

Definition thePass {rt : Runtime} (w : World) : option Pass :=
  match boundNodes w, boundLines w, boundTexts w with
  | Some nd, Some ld, Some td =>
    Some (highlightPass (filterText (view w)) (selected w) (dataProp w)
                        nd ld td (refsSet (view w)) (dimensions (view w)))
  | _, _, _ => None
  end.

Definition applyPass (p : Pass) (s : Svg) : Svg :=
  let '(z, g, log) :=
    match zoomTo p with
    | Some t => (goal t, Some (goal t), t :: zoomLog s)
    | None => (zoomState s, groupTransform s, zoomLog s)
    end in
  mkSvg (drawnBy s)
        (zip_with restyleNode (nodeElems s) (nodeOpacities p))
        (zip_with restyleLine (lineElems s) (lineStyles p))
        (zip_with restyleText (textElems s) (labelOpacities p))
        z g log.

Definition highlightEffect {rt : Runtime} (w : World) : World :=
  match thePass w with
  | Some p => withView (withSvg (applyPass p (svg (view w))) (view w)) w
  | None => w
  end.

(** The effects that run after a render. The simulation effect runs
    when [data] or [dimensions] is a new object, the highlighting effect
    when one of its four dependencies changed. *)
Definition commit {rt : Runtime} {ly : Layout} (newData : bool) (highlight : bool)
           (w : World) : result :=
  if newData then
    match simulationEffect w with
    | Done w1 => Done (highlightEffect w1)
    | failure => failure
    end
  else if highlight then Done (highlightEffect w)
  else Done w.

(** *** Documents: [geminiService.ts] and the import of [App.tsx] *)

(** What the call of the model ends in. *)
Inductive Response : Type :=
(** [generateContent] rejects *)
| ApiError
(** it resolves, with [response.text] *)
| ApiText (text : option jsstring).

(** [generateKnowledgeGraph]: the parsed text of the response, [None]
    when the function throws
    (the call failed, the text is missing or empty, or it does not parse). *)
Definition generateKnowledgeGraph {rt : Runtime} (r : Response) : option json :=
  match r with
  | ApiText (Some jsonText) =>
    if nonEmpty jsonText then JSON_parse jsonText else None
  | _ => None
  end.

(** [n.id && n.label], as a condition. *)
Definition hasIdAndLabel (n : json) : completion bool :=
  match getProp n (utf16 "id") with
  | Throw => Throw
  | Normal i =>
    if truthy i then
      match getProp n (utf16 "label") with
      | Throw => Throw
      | Normal l => Normal (truthy l)
      end
    else Normal false
  end.

(** [items.every((n) => n.id && n.label)]. *)
Fixpoint everyNode (items : list json) : completion bool :=
  match items with
  | [] => Normal true
  | n :: rest =>
    match hasIdAndLabel n with
    | Throw => Throw
    | Normal true => everyNode rest
    | Normal false => Normal false
    end
  end.

Inductive Verdict : Type :=
| Valid
| NodeWithoutIdOrLabel
| NotArrays.

(** The checks under [// Validate GraphData Schema]. *)
Definition validate (parsedData : json) : completion Verdict :=
  match getProp parsedData (utf16 "nodes") with
  | Throw => Throw
  | Normal ns =>
    match isArray ns with
    | None => Normal NotArrays
    | Some items =>
      match getProp parsedData (utf16 "links") with
      | Throw => Throw
      | Normal ls =>
        match isArray ls with
        | None => Normal NotArrays
        | Some _ =>
          match everyNode items with
          | Throw => Throw
          | Normal true => Normal Valid
          | Normal false => Normal NodeWithoutIdOrLabel
          end
        end
      end
    end
  end.

(** The typed reading of a document, [parsedData as GraphData]: defined
    when the document has the fields of the interfaces of [types.ts],
    with their types, and no other. *)
Definition knownKeys (keys : list string) (fields : list (jsstring * json))
  : bool :=
  forallb (fun kv => existsb (fun k => str_eqb (utf16 k) (fst kv)) keys) fields.

Definition reqString (v : option json) : option jsstring :=
  match v with
  | Some (JStr s) => Some s
  | _ => None
  end.

Definition optString (v : option json) : option (option jsstring) :=
  match v with
  | None => Some None
  | Some (JStr s) => Some (Some s)
  | _ => None
  end.

Definition optNumber (v : option json) : option (option number) :=
  match v with
  | None => Some None
  | Some (JNum q) => Some (Some (Num q))
  | _ => None
  end.

Definition optPin (v : option json) : option pin :=
  match v with
  | None => Some Unset
  | Some JNull => Some Null
  | Some (JNum q) => Some (At (Num q))
  | _ => None
  end.

Definition asGraphNode (v : json) : option GraphNode :=
  match v with
  | JObj fs =>
    if knownKeys ["id"; "label"; "group"; "description"; "radius"; "index";
                  "x"; "y"; "vx"; "vy"; "fx"; "fy"]%string fs then
      i ← reqString (field (utf16 "id") fs);
      l ← reqString (field (utf16 "label") fs);
      g ← reqString (field (utf16 "group") fs);
      d ← optString (field (utf16 "description") fs);
      r ← optNumber (field (utf16 "radius") fs);
      ix ← optNumber (field (utf16 "index") fs);
      x0 ← optNumber (field (utf16 "x") fs);
      y0 ← optNumber (field (utf16 "y") fs);
      vx0 ← optNumber (field (utf16 "vx") fs);
      vy0 ← optNumber (field (utf16 "vy") fs);
      fx0 ← optPin (field (utf16 "fx") fs);
      fy0 ← optPin (field (utf16 "fy") fs);
      Some (mkNode i l g d r ix x0 y0 vx0 vy0 fx0 fy0)
    else None
  | _ => None
  end.

Definition asEndpoint (v : option json) : option (Endpoint GraphNode) :=
  match v with
  | Some (JStr s) => Some (ById s)
  | Some (JObj fs) => option_map ByNode (asGraphNode (JObj fs))
  | _ => None
  end.

Definition asGraphLink (v : json) : option GraphLink :=
  match v with
  | JObj fs =>
    if knownKeys ["source"; "target"; "relation"; "index"]%string fs then
      s ← asEndpoint (field (utf16 "source") fs);
      t ← asEndpoint (field (utf16 "target") fs);
      r ← reqString (field (utf16 "relation") fs);
      ix ← optNumber (field (utf16 "index") fs);
      Some (mkLink s t r ix)
    else None
  | _ => None
  end.

Definition asGraphData (v : json) : option GraphData :=
  match v with
  | JObj fs =>
    if knownKeys ["nodes"; "links"]%string fs then
      match field (utf16 "nodes") fs, field (utf16 "links") fs with
      | Some (JArr ns), Some (JArr ls) =>
        ns' ← mapM asGraphNode ns;
        ls' ← mapM asGraphLink ls;
        Some (mkData ns' ls')
      | _, _ => None
      end
    else None
  | _ => None
  end.

(** *** Setting state *)

Definition setStatus (st : GenerationStatus) (w : World) : World :=
  withApp (mkApp (query (app w)) (graphData (app w)) st
                 (selectedNode (app w)) (alerts (app w))) w.

Definition setQuery (q : jsstring) (w : World) : World :=
  withApp (mkApp q (graphData (app w)) (status (app w))
                 (selectedNode (app w)) (alerts (app w))) w.

Definition setSelectedNode (sel : option loc) (w : World) : World :=
  withApp (mkApp (query (app w)) (graphData (app w)) (status (app w))
                 sel (alerts (app w))) w.

Definition alert (msg : jsstring) (w : World) : World :=
  withApp (mkApp (query (app w)) (graphData (app w)) (status (app w))
                 (selectedNode (app w)) (msg :: alerts (app w))) w.

(** [setGraphData(newData)]: the objects of the document are new. *)
Definition setGraphData (newData : GraphData) (w : World) : World :=
  let '(h, d) := storeData (heap w) newData in
  mkWorld h
          (mkApp (query (app w)) d (status (app w))
                 (selectedNode (app w)) (alerts (app w)))
          (view w) (inflight w).

Definition setFilterText (t : jsstring) (w : World) : World :=
  withView (mkView (dimensions (view w)) t (sims (view w)) (cleanup (view w))
                   (simulationRef (view w)) (zoomRef (view w))
                   (svgSelectionRef (view w)) (svg (view w))) w.

Definition setDimensions (d : Q * Q) (w : World) : World :=
  withView (mkView d (filterText (view w)) (sims (view w)) (cleanup (view w))
                   (simulationRef (view w)) (zoomRef (view w))
                   (svgSelectionRef (view w)) (svg (view w))) w.

(** A state setter is followed by a render only when the value changed. *)
Definition selectionChanges (sel : option loc) (w : World) : bool :=
  negb (bool_decide (selectedNode (app w) = sel)).

(** *** [handleGenerate], cut at its three [await]s *)

Definition analysing : GenerationStatus :=
  mkStatus true analyzing (utf16 "Gemini 正在分析文本...").

Definition constructing : GenerationStatus :=
  mkStatus true building (utf16 "正在构建力导向图...").

Definition completed : GenerationStatus :=
  mkStatus false complete (utf16 "图谱生成完毕!").

(** The message of the error thrown by [generateKnowledgeGraph]. *)
Definition failed : GenerationStatus :=
  mkStatus false error
           (utf16 "生成知识图谱失败，请检查 API Key 或尝试其他主题。").

(** Up to the first [await]. *)
Definition handleGenerate {rt : Runtime} {ly : Layout} (w : World) : result :=
  if nonEmpty (trim (query (app w))) then
    commit false (selectionChanges None w)
           (withInflight (inflight w ++ [Calling])
              (setSelectedNode None (setStatus analysing w)))
  else Done w.

(** After [await generateKnowledgeGraph(...)], for the call [i]. *)
Definition serviceSettled {rt : Runtime} (i : nat) (r : Response) (w : World)
  : World :=
  match inflight w !! i with
  | Some Calling =>
    match generateKnowledgeGraph r with
    | Some newData =>
      withInflight (<[i := Building newData]> (inflight w))
                   (setStatus constructing w)
    | None =>
      (* catch (error) *)
      withInflight (delete i (inflight w)) (setStatus failed w)
    end
  | _ => w
  end.

(** After the second delay: [setGraphData(newData); setStatus(...)].
    The document is stored as the service gave it: nothing is checked on
    this path, [as GraphData] in the service being a cast. *)
Definition graphBuilt {rt : Runtime} {ly : Layout} (i : nat) (w : World) : result :=
  match inflight w !! i with
  | Some (Building newData) =>
    match asGraphData newData with
    | Some g =>
      commit true true
             (withInflight (delete i (inflight w))
                (setStatus completed (setGraphData g w)))
    | None =>
      NotGraphData newData
                   (withInflight (delete i (inflight w)) (setStatus completed w))
    end
  | _ => Done w
  end.

(** *** [handleFileUpload] *)

Record File : Type := mkFile {
  name : jsstring;
  size : N;
  content : jsstring;
}.

Definition endsWith (s suffix : jsstring) : bool :=
  startsWith (rev s) (rev suffix).

Definition imported (f : File) : GenerationStatus :=
  mkStatus false complete (utf16 "已导入文件: " ++ name f).

(** The branch [// FEATURE: Direct JSON Import] of [reader.onload]. *)
Definition importJson {rt : Runtime} {ly : Layout} (f : File) (w : World) : result :=
  match JSON_parse (content f) with
  | None => Done (alert (utf16 "无法解析 JSON 文件，请检查文件格式。") w)
  | Some parsedData =>
    match validate parsedData with
    | Throw => Done (alert (utf16 "无法解析 JSON 文件，请检查文件格式。") w)
    | Normal NotArrays =>
      Done (alert (utf16 "JSON 格式错误：文件必须包含 'nodes' 和 'links' 数组。") w)
    | Normal NodeWithoutIdOrLabel =>
      Done (alert (utf16 "JSON 格式错误：节点缺少 id 或 label 字段。") w)
    | Normal Valid =>
      match asGraphData parsedData with
      | Some g =>
        commit true true
               (setSelectedNode None
                  (setStatus (imported f) (setQuery [] (setGraphData g w))))
      | None =>
        NotGraphData parsedData
                     (setSelectedNode None
                        (setStatus (imported f) (setQuery [] w)))
      end
    end
  end.

Definition sizeLimit : N := 1024 * 1024 * 5.

Definition handleFileUpload {rt : Runtime} {ly : Layout} (file : option File)
           (w : World) : result :=
  match file with
  | None => Done w
  | Some f =>
    if (sizeLimit <? size f)%N then
      Done (alert (utf16 "文件过大，建议上传 5MB 以内的文件。") w)
    else if endsWith (toLowerCase (name f)) (utf16 ".json") then
      importJson f w
    else
      (* Default: Treat as text for Gemini generation *)
      Done (setQuery (content f) w)
  end.

(** *** Selection *)

Definition select {rt : Runtime} {ly : Layout} (sel : option loc) (w : World)
  : result :=
  commit false (selectionChanges sel w) (setSelectedNode sel w).

(** Click on the [i]-th node: [onNodeClick(d)]. *)
Definition clickNode {rt : Runtime} {ly : Layout} (i : nat) (w : World) : result :=
  match nodeElems (svg (view w)) !! i with
  | Some e => select (Some (nodeDatum e)) w
  | None => Done w
  end.

Definition findNodeRef (h : list obj) (refs : list loc) (key : jsstring)
  : option loc :=
  find (fun l => match readNode h l with
                 | Some n => str_eqb (id n) key
                 | None => false
                 end) refs.

(** The links listed in the side panel and the node behind the button
    of one of them. *)
Definition relatedLinks (w : World) : list GraphLink :=
  match selected w with
  | Some sel =>
    List.filter (fun l => str_eqb (endpointId (source l)) (id sel)
                          || str_eqb (endpointId (target l)) (id sel))
                (links (dataProp w))
  | None => []
  end.

Definition otherNode (w : World) (l : GraphLink) : option loc :=
  match selected w with
  | Some sel =>
    let sId := endpointId (source l) in
    let otherId := if str_eqb sId (id sel) then endpointId (target l) else sId in
    findNodeRef (heap w) (nodeRefs (graphData (app w))) otherId
  | None => None
  end.

Definition followLink {rt : Runtime} {ly : Layout} (i : nat) (w : World) : result :=
  match relatedLinks w !! i with
  | Some l =>
    match otherNode w l with
    | Some o => select (Some o) w
    | None => Done w
    end
  | None => Done w
  end.

(** *** Search box, resize, zoom, drag, tick, export *)

Definition search {rt : Runtime} {ly : Layout} (t : jsstring) (w : World) : result :=
  commit false (negb (bool_decide (filterText (view w) = t)))
         (setFilterText t w).

Definition resize {rt : Runtime} {ly : Layout} (d : Q * Q) (w : World) : result :=
  commit true true (setDimensions d w).

Definition zoomed (g : Gesture) (w : World) : World :=
  match zoomRef (view w) with
  | Some extent =>
    let s := svg (view w) in
    let t := gesture extent (zoomState s) g in
    withView (withSvg (mkSvg (drawnBy s) (nodeElems s) (lineElems s)
                             (textElems s) t (Some t) (zoomLog s))
                      (view w)) w
  | None => w
  end.

(** The handlers of a drag on the [i]-th node. [active] is
    [event.active]; they close over the simulation of the run that drew
    the elements. *)
Definition dragTarget (w : World) (i : nat) : option (nat * loc) :=
  match drawnBy (svg (view w)), nodeElems (svg (view w)) !! i with
  | Some s, Some e => Some (s, nodeDatum e)
  | _, _ => None
  end.

Definition dragstarted (i : nat) (active : bool) (w : World) : World :=
  match dragTarget w i with
  | Some (s, d) =>
    let v := if active then view w
             else withSims (alter (retarget (3 # 10) true) s (sims (view w)))
                           (view w) in
    withHeap (updateNode (fun n => withPin n (pinOf (x n)) (pinOf (y n))) d
                         (heap w))
             (withView v w)
  | None => w
  end.

Definition dragged (i : nat) (ex ey : number) (w : World) : World :=
  match dragTarget w i with
  | Some (_, d) =>
    withHeap (updateNode (fun n => withPin n (At ex) (At ey)) d (heap w)) w
  | None => w
  end.

Definition dragended (i : nat) (active : bool) (w : World) : World :=
  match dragTarget w i with
  | Some (s, d) =>
    let v := if active then view w
             else withSims (alter (retarget 0 false) s (sims (view w)))
                           (view w) in
    withHeap (updateNode (fun n => withPin n Null Null) d (heap w))
             (withView v w)
  | None => w
  end.

(** A tick of the timer of the simulation [s], with its listener. *)
Definition tick (s : nat) (f : Forces) (w : World) : World :=
  match sims (view w) !! s with
  | Some sim =>
    if running sim then
      let h := tickObjects f sim (heap w) in
      let drawn := svg (view w) in
      let drawn1 := if bool_decide (drawnBy drawn = Some s)
                    then onTick h drawn else drawn in
      withHeap h (withView (withSvg drawn1 (view w)) w)
    else w
  | None => w
  end.

(** [exportJSON]: the text of the downloaded file. *)
Definition exportJSON {rt : Runtime} (w : World) : jsstring :=
  JSON_stringify (dataProp w) 2.

(** *** Events *)

Inductive Event : Type :=
| Submit
| ServiceSettled (i : nat) (r : Response)
| GraphBuilt (i : nat)
| Upload (file : option File)
| TypeQuery (text : jsstring)
| ClickNode (i : nat)
| FollowLink (i : nat)
| ClearSelection
| Search (text : jsstring)
| Resize (d : Q * Q)
| Zoom (g : Gesture)
| DragStart (i : nat) (active : bool)
| Drag (i : nat) (ex ey : number)
| DragEnd (i : nat) (active : bool)
| Tick (s : nat) (f : Forces).

Definition step {rt : Runtime} {ly : Layout} (w : World) (e : Event) : result :=
  match e with
  | Submit =>
    (* the button is disabled and the key handler returns while loading *)
    if loading (status (app w)) then Done w else handleGenerate w
  | ServiceSettled i r => Done (serviceSettled i r w)
  | GraphBuilt i => graphBuilt i w
  | Upload file => handleFileUpload file w
  | TypeQuery text => Done (setQuery text w)
  | ClickNode i => clickNode i w
  | FollowLink i => followLink i w
  | ClearSelection => select None w
  | Search text => search text w
  | Resize d => resize d w
  | Zoom g => Done (zoomed g w)
  | DragStart i active => Done (dragstarted i active w)
  | Drag i ex ey => Done (dragged i ex ey w)
  | DragEnd i active => Done (dragended i active w)
  | Tick s f => Done (tick s f w)
  end.

(** The page before its first effects. *)
Definition unmounted : World :=
  let '(h, d) := storeData [] INITIAL_DATA in
  mkWorld h
          (mkApp [] d (mkStatus false idle []) None [])
          (mkView (800%Q, 600%Q) [] [] None None None false
                  (mkSvg None [] [] [] zoomIdentity None []))
          [].

(** The first run of the two effects. The resize effect of the mount
    calls [handleResize()], which sets a new [dimensions] object: on the
    real page the event [Resize] follows at once, with the size of the
    container, and runs the effects a second time. *)
Definition mounted {rt : Runtime} {ly : Layout} : result := commit true true unmounted.

(** The worlds that the page can be in. *)
Inductive reachable {rt : Runtime} {ly : Layout} : World -> Prop :=
| reach_mounted w : mounted = Done w -> reachable w
| reach_step w e w1 : reachable w -> step w e = Done w1 -> reachable w1.

(** The worlds after a list of events. *)
Fixpoint run {rt : Runtime} {ly : Layout} (w : World) (es : list Event) : result :=
  match es with
  | [] => Done w
  | e :: rest =>
    match step w e with
    | Done w1 => run w1 rest
    | failure => failure
    end
  end.

End Page.
Export Page.

(* ===================================================================== *)
(** ** What the specification says, as predicates *)
(* ===================================================================== *)

Module Spec.

Local Open Scope nat_scope.

(** [text] occurs in [lbl] when case is ignored. *)
Definition containsIgnoringCase {rt : Runtime} (lbl text : jsstring) : Prop :=
  exists before after,
    toLowerCase lbl = before ++ toLowerCase text ++ after.

(** Some link of [data] goes from [a] to [b] or from [b] to [a]. *)
Definition linked (data : GraphData) (a b : jsstring) : Prop :=
  exists l, In l (links data) /\
    ((endpointId (source l) = a /\ endpointId (target l) = b) \/
     (endpointId (target l) = a /\ endpointId (source l) = b)).

(** [d] is the selected node or one link away from it. *)
Definition oneHop (data : GraphData) (sel d : GraphNode) : Prop :=
  id d = id sel \/ linked data (id sel) (id d).

(** The link [d] has the selected node at one of its ends. *)
Definition touches (sel : GraphNode) (d : GraphLink) : Prop :=
  endpointId (source d) = id sel \/ endpointId (target d) = id sel.

(** Both ends of [d] are nodes whose labels contain [text]. *)
Definition bothEndsMatch {rt : Runtime} (data : GraphData) (text : jsstring)
           (d : GraphLink) : Prop :=
  exists s t,
    endpointNode data (source d) = Some s /\
    endpointNode data (target d) = Some t /\
    containsIgnoringCase (label s) text /\
    containsIgnoringCase (label t) text.

(** The scale of a transform is within the extent of the behaviour. *)
Definition inExtent (t : Transform) : Prop :=
  (1 # 10 <= k t)%Q /\ (k t <= 4)%Q.

(** [h1] has the objects of [h] below the address [n] unchanged. *)
Definition keeps (n : nat) (h h1 : list obj) : Prop :=
  length h <= length h1 /\ forall l, l < n -> h1 !! l = h !! l.

Definition endBelow (n : nat) (e : Endpoint loc) : Prop :=
  match e with
  | ById _ => True
  | ByNode l => l < n
  end.

(** The link at [l], and the node objects it points to, lie below [n]. *)
Definition linkBelow (n : nat) (h : list obj) (l : loc) : Prop :=
  l < n /\ forall lk, readLinkObj h l = Some lk ->
                    endBelow n (source lk) /\ endBelow n (target lk).

(** All the objects of the graph [d] lie below [n]. *)
Definition dataBelow (n : nat) (h : list obj) (d : DataRef) : Prop :=
  Forall (fun l => l < n) (nodeRefs d) /\ Forall (linkBelow n h) (linkRefs d).

(** The elements on screen with their geometry: what is drawn, whatever
    the opacities and strokes. *)
Definition drawing (s : Svg)
  : option nat * list (loc * option (option number * option number))
    * list (loc * (option number * option number)
            * (option number * option number))
    * list (loc * option (number * number)) :=
  (drawnBy s,
   map (fun e => (nodeDatum e, nodeAt e)) (nodeElems s),
   map (fun e => (lineDatum e, lineFrom e, lineTo e)) (lineElems s),
   map (fun e => (textDatum e, textAt e)) (textElems s)).

(** The graph that the event [e] puts in the state of the world [w], when
    it is one that replaces the graph: the end of a generation, or the
    upload of a JSON file that passes the checks. *)
Definition replacement {rt : Runtime} (w : World) (e : Event)
  : option GraphData :=
  match e with
  | GraphBuilt i =>
    match inflight w !! i with
    | Some (Building newData) => asGraphData newData
    | _ => None
    end
  | Upload (Some f) =>
    if (sizeLimit <? size f)%N then None
    else if endsWith (toLowerCase (name f)) (utf16 ".json") then
      match JSON_parse (content f) with
      | Some parsedData =>
        match validate parsedData with
        | Normal Valid => asGraphData parsedData
        | _ => None
        end
      | None => None
      end
    else None
  | _ => None
  end.

(** The page after its first effects. *)
Definition started {rt : Runtime} {ly : Layout} : World :=
  match mounted with
  | Done w => w
  | _ => unmounted
  end.

(** The page after the events [es]. *)
Definition play {rt : Runtime} {ly : Layout} (es : list Event) : result :=
  run started es.

(** What the zoom behaviour keeps of a view: the stored transform, the
    transform of the group and the extent. *)
Definition zoomPart (v : ViewState)
  : Transform * option Transform * option (Q * Q) :=
  (zoomState (svg v), groupTransform (svg v), zoomRef v).

(** Stored and displayed scales are within the extent, and the extent is
    the one that the component configures. *)
Definition zoomOk (v : ViewState) : Prop :=
  inExtent (zoomState (svg v))
  /\ (forall t, groupTransform (svg v) = Some t -> inExtent t)
  /\ (forall extent, zoomRef v = Some extent -> extent = scaleExtent).

(** The link gives both its ends by id. *)
Definition isId {R : Type} (e : Endpoint R) : Prop :=
  match e with
  | ById _ => True
  | ByNode _ => False
  end.

Definition idEnds {R : Type} (l : Link R) : Prop :=
  isId (source l) /\ isId (target l).

(** The graph that the event stores, if it stores one, gives the ends of
    its links by id. *)
Definition tame {rt : Runtime} (w : World) (e : Event) : Prop :=
  match replacement w e with
  | Some g => Forall idEnds (links g)
  | None => True
  end.

(** Every event of the list, in the world it happens in, is tame. *)
Fixpoint tameRun {rt : Runtime} {ly : Layout} (w : World) (es : list Event)
  : Prop :=
  match es with
  | [] => True
  | e :: rest =>
    tame w e /\
    match step w e with
    | Done w1 => tameRun w1 rest
    | _ => True
    end
  end.

(** The address [l] is in the store of size [n] and not among the
    addresses from [base] up to [top]. *)
Definition away (base top n : nat) (l : loc) : Prop :=
  l < n /\ (l < base \/ top <= l).

Definition endAway (base top n : nat) (e : Endpoint loc) : Prop :=
  match e with
  | ById _ => True
  | ByNode l => away base top n l
  end.

Definition linkAway (base top : nat) (h : list obj) (l : loc) : Prop :=
  away base top (length h) l
  /\ forall lk, readLinkObj h l = Some lk ->
                endAway base top (length h) (source lk)
                /\ endAway base top (length h) (target lk).

(** Nothing that the simulation writes to is among the addresses from
    [base] up to [top]. *)
Definition simAway (base top : nat) (h : list obj) (sim : Simulation) : Prop :=
  Forall (away base top (length h)) (simNodes sim)
  /\ Forall (linkAway base top h) (simLinks sim).

(** The objects of the graph [d] are the addresses from [base] up to
    [top], their links give their ends by id, and neither a simulation nor
    a drawn node refers to one of them. *)
Definition apartAt (base top : nat) (h : list obj) (d : DataRef)
           (ss : list Simulation) (datums : list loc) : Prop :=
  top <= length h
  /\ Forall (fun l => base <= l < top) (nodeRefs d)
  /\ Forall (fun l => base <= l < top) (linkRefs d)
  /\ (forall l lk, base <= l < top -> readLinkObj h l = Some lk -> idEnds lk)
  /\ Forall (simAway base top h) ss
  /\ Forall (away base top (length h)) datums.

Definition apart (w : World) : Prop :=
  exists base top,
    apartAt base top (heap w) (graphData (app w)) (sims (view w))
            (map nodeDatum (nodeElems (svg (view w)))).

(** [h1] is [h] with node objects written outside the addresses from
    [base] up to [top]. *)
Definition nudged (base top : nat) (h h1 : list obj) : Prop :=
  length h1 = length h
  /\ (forall l, base <= l < top -> h1 !! l = h !! l)
  /\ (forall l, readLinkObj h1 l = readLinkObj h l).

(** An end of a link of a new simulation: an id, or one of its nodes. *)
Definition endAmong (ns : list loc) (e : Endpoint loc) : Prop :=
  match e with
  | ById _ => True
  | ByNode n => In n ns
  end.

(** The simulation [s], which was [old], is stopped, and the elements on
    screen were drawn by a later run of the effect. *)
Definition retired (s : nat) (old : Simulation) (v : ViewState) : Prop :=
  sims v !! s = Some (stop old)
  /\ exists d, drawnBy (svg v) = Some d /\ s < d.

(** A runtime for examples: ASCII case mapping, and a parser that
    answers [doc] whatever the text. *)
Definition exampleRuntime (doc : option json) : Runtime :=
  {| toLowerCase := asciiLower;
     JSON_parse := fun _ => doc;
     JSON_stringify := fun _ _ => [] |}.

(** A layout for examples: nodes start on a line. *)
Definition exampleLayout : Layout :=
  {| phyllotaxis := fun i => (inject_Z (Z.of_nat i) * 10 + 1, 1)%Q |}.

End Spec.
Export Spec.

(* ===================================================================== *)
(** ** geminiService.ts: the text sent to the model *)
(* ===================================================================== *)

Module Service.

(** The line feed and the double quote of the template literals. *)
Definition nl : jsstring := [10].
Definition quote : jsstring := [34].

(** [o && o.trim()], as a condition, for an optional argument. *)
Definition given (o : option jsstring) : bool :=
  match o with
  | Some s => nonEmpty s && nonEmpty (trim s)
  | None => false
  end.

(** The two template literals that are added to [constraints]. *)
Definition domainLine (domain : jsstring) : jsstring :=
  nl ++ utf16 "    严格限定领域 (Domain): " ++ quote ++ trim domain ++ quote
  ++ utf16 "。请仅在此领域背景下进行分析，忽略不相关含义。".

Definition entityTypesLine (entityTypes : jsstring) : jsstring :=
  nl ++ utf16 "    优先提取的实体类型 (Entity Types): " ++ quote
  ++ trim entityTypes ++ quote ++ utf16 "。请尽可能将节点归类为这些类型。".

(** [constraints], after the two [if]s. *)
Definition constraints (domain entityTypes : option jsstring) : jsstring :=
  let constraints0 : jsstring := [] in
  let constraints1 :=
    match domain with
    | Some d => if given domain then constraints0 ++ domainLine d
                else constraints0
    | None => constraints0
    end in
  match entityTypes with
  | Some t => if given entityTypes then constraints1 ++ entityTypesLine t
              else constraints1
  | None => constraints1
  end.

(** The text before [${query}] and the text after [${constraints}]. *)
Definition promptHead : jsstring :=
  nl ++ utf16 "    请分析以下文本 or 主题，并构建一个可视化的知识图谱数据。"
  ++ nl ++ utf16 "    提取关键实体（nodes）及其关系（links）。"
  ++ nl ++ utf16 "    "
  ++ nl ++ utf16 "    主题/文本: " ++ quote.

Definition promptTail : jsstring :=
  nl ++ utf16 "    "
  ++ nl ++ utf16 "    要求:"
  ++ nl ++ utf16 "    1. 识别最重要的概念、人物、地点或物体作为 'nodes' (节点)。"
  ++ nl ++ utf16 "    2. 识别它们之间有意义的连接作为 'links' (连线)。"
  ++ nl ++ utf16 "    3. 将节点分为逻辑类别 (例如：" ++ quote ++ utf16 "人物"
  ++ quote ++ utf16 ", " ++ quote ++ utf16 "地点" ++ quote ++ utf16 ", "
  ++ quote ++ utf16 "概念" ++ quote ++ utf16 ", " ++ quote ++ utf16 "事件"
  ++ quote ++ utf16 ")，赋值给 'group' 字段。"
  ++ nl ++ utf16 "    4. 确保 links 中的 'source' 和 'target' 必须完全匹配 nodes 中的 'id'。"
  ++ nl ++ utf16 "    5. 图谱应简洁但信息丰富 (控制在 10-25 个节点，最适合可视化)。"
  ++ nl ++ utf16 "    6. 为每个节点提供简短的中文描述 ('description')。"
  ++ nl ++ utf16 "    7. **重要**: 所有的 label (标签), group (分组), description (描述), relation (关系) 必须使用简体中文输出。"
  ++ nl ++ utf16 "  ".

(** [prompt]: the [contents] of the request. *)
Definition prompt (query : jsstring) (domain entityTypes : option jsstring)
  : jsstring :=
  promptHead ++ query ++ quote ++ nl ++ utf16 "    "
  ++ constraints domain entityTypes ++ promptTail.

End Service.

(* ===================================================================== *)
(** ** App.tsx: the keyboard shortcut of the text box *)
(* ===================================================================== *)

Module Form.

(** What [handleKeyDown] reads of a [React.KeyboardEvent]. *)
Record KeyEvent : Type := mkKey {
  ctrlKey : bool;
  metaKey : bool;
  key : jsstring;
}.

(** Allow submitting with Ctrl+Enter or Cmd+Enter. *)
Definition handleKeyDown {rt : Runtime} {ly : Layout} (e : KeyEvent)
           (w : World) : result :=
  if (ctrlKey e || metaKey e) && str_eqb (key e) (utf16 "Enter") then
    if nonEmpty (trim (query (app w))) && negb (loading (status (app w)))
    then handleGenerate w
    else Done w
  else Done w.

End Form.

(* ===================================================================== *)
(** ** KnowledgeGraph.tsx: the fill of the circles *)
(* ===================================================================== *)

Module Palette.

Local Open Scope nat_scope.

(** [d3.schemeCategory10]. *)
Definition schemeCategory10 : list string :=
  ["#1f77b4"; "#ff7f0e"; "#2ca02c"; "#d62728"; "#9467bd";
   "#8c564b"; "#e377c2"; "#7f7f7f"; "#bcbd22"; "#17becf"]%string.

(** The index of [d] in the domain of the scale. *)
Fixpoint indexOf (d : jsstring) (domain : list jsstring) : option nat :=
  match domain with
  | [] => None
  | d0 :: rest => if str_eqb d0 d then Some 0 else option_map S (indexOf d rest)
  end.

(** A call [scale(d)] of [d3.scaleOrdinal(range)], whose domain is
    implicit: a value that is not in the domain is appended to it, and
    the answer is [range[i % range.length]] for the index [i] of the
    value. The domain after the call comes with the answer. *)
Definition scaleOrdinal (range : list string) (domain : list jsstring)
           (d : jsstring) : list jsstring * option string :=
  match indexOf d domain with
  | Some i => (domain, range !! (i mod length range))
  | None => (domain ++ [d], range !! (length domain mod length range))
  end.

(** [const color = d3.scaleOrdinal(d3.schemeCategory10)]. *)
Definition color : list jsstring -> jsstring -> list jsstring * option string :=
  scaleOrdinal schemeCategory10.

(** [.attr("fill", (d) => color(d.group))] over the nodes, in order,
    starting from the domain [domain]. *)
Fixpoint fills (domain : list jsstring) (ns : list GraphNode)
  : list (option string) :=
  match ns with
  | [] => []
  | n :: rest =>
    let '(domain1, c) := color domain (group n) in
    c :: fills domain1 rest
  end.

(** The fills of the circles of one run of the simulation effect. *)
Definition nodeFills (ns : list GraphNode) : list (option string) :=
  fills [] ns.

(** The domain of the scale after the circles of [ns] are filled. *)
Fixpoint domainAfter (domain : list jsstring) (ns : list GraphNode)
  : list jsstring :=
  match ns with
  | [] => domain
  | n :: rest => domainAfter (fst (color domain (group n))) rest
  end.

End Palette.

(* ===================================================================== *)
(** ** Predicates of the further properties *)
(* ===================================================================== *)

Module Props.

Local Open Scope nat_scope.

(** A string of white space only (the empty string included). *)
Definition blank (s : jsstring) : Prop := Forall (fun c => isSpace c = true) s.

(** An entry of [nodes] that passes [n.id && n.label]: an object with
    truthy [id] and [label]. *)
Definition named (n : json) : Prop :=
  exists fs, n = JObj fs
             /\ truthy (field (utf16 "id") fs) = true
             /\ truthy (field (utf16 "label") fs) = true.

(** A node with non-empty [id] and [label]. *)
Definition wellNamed (n : GraphNode) : bool :=
  nonEmpty (id n) && nonEmpty (label n).

(** The four messages of [handleFileUpload]. *)
Definition tooLarge : jsstring := utf16 "文件过大，建议上传 5MB 以内的文件。".

Definition unparsable : jsstring := utf16 "无法解析 JSON 文件，请检查文件格式。".

Definition notArrays : jsstring :=
  utf16 "JSON 格式错误：文件必须包含 'nodes' 和 'links' 数组。".

Definition nodeFields : jsstring :=
  utf16 "JSON 格式错误：节点缺少 id 或 label 字段。".

(** [file.name.toLowerCase().endsWith('.json')]. *)
Definition isJson {rt : Runtime} (f : File) : bool :=
  endsWith (toLowerCase (name f)) (utf16 ".json").

(** An end of a link that the link force can resolve in the graph [g]:
    a node object, or the id of one of the nodes. *)
Definition knownEnd (g : GraphData) (e : Endpoint GraphNode) : Prop :=
  match e with
  | ById s => In s (map id (nodes g))
  | ByNode _ => True
  end.

(** An end of a link object and the end of the link that it denotes are
    both ids, and the same one, or both node objects. *)
Definition sameEnd (e : Endpoint loc) (v : Endpoint GraphNode) : Prop :=
  match e, v with
  | ById s, ById t => s = t
  | ByNode _, ByNode _ => True
  | _, _ => False
  end.

(** What stays of a node object when the forces write to it. *)
Definition sameNode (n n1 : GraphNode) : Prop :=
  id n1 = id n /\ label n1 = label n /\ fx n1 = fx n /\ fy n1 = fy n.

(** Every link of [g] names nodes of [g]. *)
Definition closed (g : GraphData) : Prop :=
  Forall (fun l => knownEnd g (source l) /\ knownEnd g (target l)) (links g).

(** The status shown and the pending calls fit together. *)
Definition statusOk (w : World) : Prop :=
  (loading (status (app w)) = true -> inflight w <> [])
  /\ (loading (status (app w)) = true
      <-> Types.step (status (app w)) = analyzing
          \/ Types.step (status (app w)) = building).

(** The events that change what is highlighted or the viewport, and not
    the graph or the size of the view. *)
Definition restyles (e : Event) : Prop :=
  match e with
  | TypeQuery _ | ClickNode _ | FollowLink _ | ClearSelection | Search _
  | Zoom _ => True
  | _ => False
  end.

(** The events at which a pending call of [handleGenerate] goes on. *)
Definition settles (e : Event) : Prop :=
  match e with
  | ServiceSettled _ _ | GraphBuilt _ => True
  | _ => False
  end.

End Props.

(* ===================================================================== *)
(** ** Strings *)
(* ===================================================================== *)

Lemma str_eqb_true (a b : jsstring) : str_eqb a b = true <-> a = b.
Proof. unfold str_eqb. apply bool_decide_eq_true. Qed.

Lemma str_eqb_refl (a : jsstring) : str_eqb a a = true.
Proof. now apply str_eqb_true. Qed.

Lemma startsWith_spec (t s : jsstring) :
  startsWith t s = true <-> exists after, t = s ++ after.
Proof.
  revert t. induction s as [|c s IH]; intros t; simpl.
  - split; [intros _; now exists t | now destruct t].
  - destruct t as [|d t].
    + split; [discriminate | intros [after E]; discriminate].
    + simpl. rewrite andb_true_iff, N.eqb_eq, IH. split.
      * intros [-> [after ->]]. now exists after.
      * intros [after E]. injection E as -> ->. eauto.
Qed.

Lemma includes_spec (t s : jsstring) :
  includes t s = true <-> exists before after, t = before ++ s ++ after.
Proof.
  induction t as [|d t IH].
  - change (includes [] s) with (startsWith [] s || false).
    rewrite orb_false_r, startsWith_spec. split.
    + intros [after E]. now exists [], after.
    + intros [before [after E]].
      destruct before; [now exists after | discriminate].
  - change (includes (d :: t) s) with (startsWith (d :: t) s || includes t s).
    rewrite orb_true_iff, IH, startsWith_spec. split.
    + intros [[after E] | [before [after E]]].
      * now exists [], after.
      * exists (d :: before), after. now rewrite E.
    + intros [before [after E]]. destruct before as [|b before].
      * left. now exists after.
      * right. injection E as _ E. now exists before, after.
Qed.

Lemma includes_self (s : jsstring) : includes s s = true.
Proof. apply includes_spec. exists [], []. now rewrite app_nil_r. Qed.

Lemma nonEmpty_true (s : jsstring) : nonEmpty s = true <-> s <> [].
Proof. destruct s; simpl; split; congruence. Qed.

Lemma labelMatches_spec {rt : Runtime} (text : jsstring) (n : GraphNode) :
  labelMatches text n = true <-> containsIgnoringCase (label n) text.
Proof. unfold labelMatches, containsIgnoringCase. apply includes_spec. Qed.

Example utf16_sample :
  utf16 "机器学习" = [26426; 22120; 23398; 20064]%N
  /\ utf16 "Gemini" = [71; 101; 109; 105; 110; 105]%N.
Proof. split; reflexivity. Qed.

Example includes_sample :
  includes (utf16 "knowledge graph") (utf16 "edge g") = true
  /\ includes (utf16 "knowledge graph") (utf16 "egg") = false.
Proof. split; reflexivity. Qed.

(* ===================================================================== *)
(** ** The highlighting pass *)
(* ===================================================================== *)

Section HighlightFacts.

Context {rt : Runtime}.

Lemma joins_spec (sel d : GraphNode) (l : GraphLink) :
  joins sel d l = true <->
  (endpointId (source l) = id sel /\ endpointId (target l) = id d) \/
  (endpointId (target l) = id sel /\ endpointId (source l) = id d).
Proof.
  unfold joins.
  now rewrite orb_true_iff, !andb_true_iff, !str_eqb_true.
Qed.

Lemma selection_rule (data : GraphData) (sel d : GraphNode) :
  isNodeHighlighted [] (Some sel) data d = true <-> oneHop data sel d.
Proof.
  unfold isNodeHighlighted, oneHop, linked. simpl.
  rewrite orb_true_iff, str_eqb_true, existsb_exists.
  split; (intros [E | [l [Hin Hl]]]; [now left | right; exists l]).
  - split; [exact Hin | now apply joins_spec].
  - split; [exact Hin | now apply joins_spec].
Qed.

Lemma search_rule (text : jsstring) (sel : option GraphNode)
      (data : GraphData) (d : GraphNode) :
  text <> [] ->
  isNodeHighlighted text sel data d = labelMatches text d.
Proof.
  intros Hne. unfold isNodeHighlighted, isSearchActive.
  apply nonEmpty_true in Hne. now rewrite Hne.
Qed.

Lemma pass_active (text : jsstring) (sel : option GraphNode)
      (data : GraphData) nd ld td refs dims :
  isSearchActive text || isSelectionActive sel = true ->
  highlightPass text sel data nd ld td refs dims =
  mkPass (map (nodeOpacity text sel data) nd)
         (map (fun d => (linkOpacity text sel data d,
                         linkStroke text sel data d)) ld)
         (map (linkOpacity text sel data) td)
         (option_map (mkZoomTransition 750)
                     (autoCenter text data refs dims)).
Proof.
  intros Hact. unfold highlightPass.
  destruct (isSearchActive text), (isSelectionActive sel);
    simpl in *; congruence.
Qed.

Lemma pass_idle (data : GraphData) nd ld td refs dims :
  highlightPass [] None data nd ld td refs dims =
  mkPass (map (fun _ => 1%Q) nd) (map (fun _ => (1%Q, inactive)) ld)
         (map (fun _ => 1%Q) td) None.
Proof. reflexivity. Qed.

Lemma touches_spec (text : jsstring) (sel : GraphNode) (data : GraphData)
      (d : GraphLink) :
  isLinkHighlighted text (Some sel) data d = true <-> touches sel d.
Proof.
  unfold isLinkHighlighted, touches.
  now rewrite orb_true_iff, !str_eqb_true.
Qed.

Lemma bothEnds_spec (text : jsstring) (data : GraphData) (d : GraphLink) :
  text <> [] ->
  isLinkHighlighted text None data d = true <-> bothEndsMatch data text d.
Proof.
  intros Hne. apply nonEmpty_true in Hne.
  unfold isLinkHighlighted, isSearchActive, bothEndsMatch. rewrite Hne.
  destruct (endpointNode data (source d)) as [s|] eqn:Es,
           (endpointNode data (target d)) as [t|] eqn:Et.
  - rewrite andb_true_iff, !labelMatches_spec. split.
    + intros [Hs Ht]. now exists s, t.
    + intros [s' [t' [Es' [Et' [Hs Ht]]]]].
      injection Es' as <-. injection Et' as <-. now split.
  - split; [discriminate | intros [s' [t' [_ [Et' _]]]]; discriminate].
  - split; [discriminate | intros [s' [t' [Es' _]]]; discriminate].
  - split; [discriminate | intros [s' [t' [Es' _]]]; discriminate].
Qed.

End HighlightFacts.

(** The sample graph under the ASCII case mapping: only the node whose
    label is the search text is highlighted. *)
Example sample_search :
  map (isNodeHighlighted (rt := exampleRuntime None) (utf16 "机器学习") None
                         INITIAL_DATA)
      (nodes INITIAL_DATA)
  = [false; true; false; false; false].
Proof. reflexivity. Qed.

(** Case is ignored: [gEM] finds [Gemini]. *)
Example sample_search_case :
  map (isNodeHighlighted (rt := exampleRuntime None) (utf16 "gEM") None
                         INITIAL_DATA)
      (nodes INITIAL_DATA)
  = [false; false; false; false; true].
Proof. reflexivity. Qed.

(** With [ai] selected: [ai], [ml] and [gemini] are highlighted; [dl], two
    links away, and [nn] are not. *)
Example sample_selection :
  map (isNodeHighlighted (rt := exampleRuntime None) []
                         (Some (plainNode (utf16 "ai") (utf16 "人工智能")
                                          (utf16 "技术")))
                         INITIAL_DATA)
      (nodes INITIAL_DATA)
  = [true; true; false; false; true].
Proof. reflexivity. Qed.

(** C1. With the search text empty and a node selected, the pass
    highlights a node exactly when it is the selected node or shares a link
    with it, in either direction; a highlighted node gets opacity 1, any
    other node (one two links away, for instance) gets opacity 0.1. *)
Theorem C1_selection_highlights_one_hop {rt : Runtime} :
  forall (data : GraphData) (sel : GraphNode)
         (nd : list GraphNode) (ld td : list GraphLink)
         (refs : bool) (dims : Q * Q) (i : nat) (d : GraphNode),
    nd !! i = Some d ->
    let p := highlightPass [] (Some sel) data nd ld td refs dims in
    (isNodeHighlighted [] (Some sel) data d = true <-> oneHop data sel d)
    /\ (oneHop data sel d -> nodeOpacities p !! i = Some 1%Q)
    /\ (~ oneHop data sel d -> nodeOpacities p !! i = Some (1 # 10)%Q).
Proof.
  intros data sel nd ld td refs dims i d Hi p.
  assert (Hp : nodeOpacities p !! i = Some (nodeOpacity [] (Some sel) data d)).
  { subst p. rewrite pass_active by reflexivity. simpl.
    rewrite list_lookup_fmap, Hi. reflexivity. }
  split; [apply selection_rule |]. rewrite Hp. unfold nodeOpacity.
  split; intros Hhop.
  - apply selection_rule in Hhop. now rewrite Hhop.
  - destruct (isNodeHighlighted [] (Some sel) data d) eqn:E; [| reflexivity].
    apply selection_rule in E. contradiction.
Qed.

(** In the sample graph with [ai] selected, [dl] is two links away and
    gets opacity 0.1. *)
Lemma C1_witness :
  let ai := plainNode (utf16 "ai") (utf16 "人工智能") (utf16 "技术") in
  let dl := plainNode (utf16 "dl") (utf16 "深度学习") (utf16 "技术") in
  nodes INITIAL_DATA !! 2%nat = Some dl
  /\ nodeOpacities
       (highlightPass (rt := exampleRuntime None) [] (Some ai) INITIAL_DATA
                      (nodes INITIAL_DATA) (links INITIAL_DATA)
                      (links INITIAL_DATA) true (800%Q, 600%Q)) !! 2%nat
     = Some (1 # 10)%Q.
Proof.
  intros ai dl. split; [reflexivity |].
  destruct (C1_selection_highlights_one_hop (rt := exampleRuntime None)
              INITIAL_DATA ai (nodes INITIAL_DATA) (links INITIAL_DATA)
              (links INITIAL_DATA) true (800%Q, 600%Q) 2%nat dl eq_refl)
    as [Hrule [_ Hlow]].
  apply Hlow. intros Hhop. apply Hrule in Hhop. discriminate Hhop.
Defined.

(** C2. With a search text that is not empty, the pass highlights a node
    exactly when its label contains the text, case ignored, and gives it
    opacity 1, and 0.1 otherwise; in the sample graph the search for
    [机器学习] highlights the node with that label and no node whose label
    does not contain it. *)
Theorem C2_search_highlights_matching_labels {rt : Runtime} :
  (forall (text : jsstring) (sel : option GraphNode) (data : GraphData)
          (nd : list GraphNode) (ld td : list GraphLink)
          (refs : bool) (dims : Q * Q) (i : nat) (d : GraphNode),
      text <> [] ->
      nd !! i = Some d ->
      let p := highlightPass text sel data nd ld td refs dims in
      (isNodeHighlighted text sel data d = true
       <-> containsIgnoringCase (label d) text)
      /\ (containsIgnoringCase (label d) text ->
          nodeOpacities p !! i = Some 1%Q)
      /\ (~ containsIgnoringCase (label d) text ->
          nodeOpacities p !! i = Some (1 # 10)%Q))
  /\ (forall (sel : option GraphNode) (n : GraphNode),
         In n (nodes INITIAL_DATA) ->
         (label n = utf16 "机器学习" ->
          isNodeHighlighted (utf16 "机器学习") sel INITIAL_DATA n = true)
         /\ (~ containsIgnoringCase (label n) (utf16 "机器学习") ->
             isNodeHighlighted (utf16 "机器学习") sel INITIAL_DATA n = false)).
Proof.
  split.
  - intros text sel data nd ld td refs dims i d Hne Hi p.
    assert (Hrule : isNodeHighlighted text sel data d = true
                    <-> containsIgnoringCase (label d) text).
    { rewrite search_rule by exact Hne. apply labelMatches_spec. }
    assert (Hp : nodeOpacities p !! i = Some (nodeOpacity text sel data d)).
    { subst p. rewrite pass_active.
      - simpl. rewrite list_lookup_fmap, Hi. reflexivity.
      - unfold isSearchActive. apply nonEmpty_true in Hne. now rewrite Hne. }
    split; [exact Hrule |]. rewrite Hp. unfold nodeOpacity. split; intros Hc.
    + apply Hrule in Hc. now rewrite Hc.
    + destruct (isNodeHighlighted text sel data d); [| reflexivity].
      exfalso. apply Hc. now apply Hrule.
  - intros sel n _.
    assert (Hne : utf16 "机器学习" <> []) by discriminate.
    rewrite (search_rule _ sel INITIAL_DATA n Hne). split.
    + intros Hl. unfold labelMatches. rewrite Hl. apply includes_self.
    + intros Hno. destruct (labelMatches (utf16 "机器学习") n) eqn:E;
        [| reflexivity].
      apply labelMatches_spec in E. contradiction.
Qed.

(** The search for [机器学习] in the sample graph gives the node [ml]
    opacity 1. *)
Lemma C2_witness :
  let ml := plainNode (utf16 "ml") (utf16 "机器学习") (utf16 "技术") in
  utf16 "机器学习" <> []
  /\ nodes INITIAL_DATA !! 1%nat = Some ml
  /\ nodeOpacities
       (highlightPass (rt := exampleRuntime None) (utf16 "机器学习") None
                      INITIAL_DATA (nodes INITIAL_DATA) (links INITIAL_DATA)
                      (links INITIAL_DATA) true (800%Q, 600%Q)) !! 1%nat
     = Some 1%Q.
Proof.
  intros ml.
  assert (Hne : utf16 "机器学习" <> []) by discriminate.
  split; [exact Hne |]. split; [reflexivity |].
  destruct (proj1 (C2_search_highlights_matching_labels
                     (rt := exampleRuntime None))
                  (utf16 "机器学习") None INITIAL_DATA (nodes INITIAL_DATA)
                  (links INITIAL_DATA) (links INITIAL_DATA) true
                  (800%Q, 600%Q) 1%nat ml Hne eq_refl)
    as [Hrule [Hhigh _]].
  apply Hhigh, Hrule. reflexivity.
Defined.

(** C7. When the search text is not empty and a node is selected, the
    highlighting of the nodes is the match of the label against the search
    text alone: it is the same for every selection and for none. *)
Theorem C7_search_wins_over_selection {rt : Runtime} :
  forall (text : jsstring) (sel : GraphNode) (other : option GraphNode)
         (data : GraphData) (nd : list GraphNode) (ld td : list GraphLink)
         (refs : bool) (dims : Q * Q) (d : GraphNode),
    text <> [] ->
    (isNodeHighlighted text (Some sel) data d = true
     <-> containsIgnoringCase (label d) text)
    /\ isNodeHighlighted text (Some sel) data d
       = isNodeHighlighted text other data d
    /\ nodeOpacities (highlightPass text (Some sel) data nd ld td refs dims)
       = nodeOpacities (highlightPass text other data nd ld td refs dims).
Proof.
  intros text sel other data nd ld td refs dims d Hne.
  assert (Hact : forall s, isSearchActive text || isSelectionActive s = true).
  { intros s. unfold isSearchActive. apply nonEmpty_true in Hne.
    now rewrite Hne. }
  split; [| split].
  - rewrite search_rule by exact Hne. apply labelMatches_spec.
  - now rewrite !search_rule by exact Hne.
  - rewrite !pass_active by apply Hact. simpl.
    apply map_ext. intros a. unfold nodeOpacity.
    now rewrite !search_rule by exact Hne.
Qed.

(** With [gem] in the search box and [ai] selected, the opacities of the
    sample nodes are those of the search alone. *)
Lemma C7_witness :
  let ai := plainNode (utf16 "ai") (utf16 "人工智能") (utf16 "技术") in
  utf16 "gem" <> []
  /\ nodeOpacities
       (highlightPass (rt := exampleRuntime None) (utf16 "gem") (Some ai)
                      INITIAL_DATA (nodes INITIAL_DATA) [] [] true
                      (800%Q, 600%Q))
     = nodeOpacities
         (highlightPass (rt := exampleRuntime None) (utf16 "gem") None
                        INITIAL_DATA (nodes INITIAL_DATA) [] [] true
                        (800%Q, 600%Q)).
Proof.
  intros ai.
  assert (Hne : utf16 "gem" <> []) by discriminate.
  split; [exact Hne |].
  exact (proj2 (proj2 (C7_search_wins_over_selection
                         (rt := exampleRuntime None) (utf16 "gem") ai None
                         INITIAL_DATA (nodes INITIAL_DATA) [] [] true
                         (800%Q, 600%Q) ai Hne))).
Defined.

(** With nothing selected and nothing searched, the pass resets the
    stroke of a link to the default colour, although [isLinkHighlighted]
    answers [true] for it. *)
Lemma C6_idle_link_keeps_default_stroke :
  let d : GraphLink := plainLink (utf16 "ai") (utf16 "ml") (utf16 "包含") in
  let p := highlightPass (rt := exampleRuntime None) [] None INITIAL_DATA
                         (nodes INITIAL_DATA) [d] [d] true (800%Q, 600%Q) in
  In d (links INITIAL_DATA)
  /\ isLinkHighlighted (rt := exampleRuntime None) [] None INITIAL_DATA d = true
  /\ lineStyles p = [(1%Q, "#cbd5e1"%string)]
  /\ lineStyles p <> [(1%Q, accent)].
Proof.
  intros d p. split; [now left |]. split; [reflexivity |].
  split; [reflexivity |]. discriminate.
Qed.

(** C6 (amended). For every link the rule is: with a node selected, the
    link is highlighted exactly when one of its ends is the selected node;
    otherwise, with a search text, exactly when both ends are nodes whose
    labels contain the text, case ignored; otherwise it is highlighted.
    When a node is selected or a text is searched, the pass gives a
    highlighted link the accent stroke and opacity 1 and any other link
    opacity 0.1 and the default stroke, and the relation labels the same
    opacities; when neither is, it gives every link and label opacity 1 and
    the default stroke. *)
Theorem C6_link_rule_and_styles {rt : Runtime} :
  forall (text : jsstring) (sel : option GraphNode) (data : GraphData)
         (nd : list GraphNode) (ld td : list GraphLink)
         (refs : bool) (dims : Q * Q),
    let p := highlightPass text sel data nd ld td refs dims in
    let rule := isLinkHighlighted text sel data in
    (forall s d, sel = Some s -> (rule d = true <-> touches s d))
    /\ (forall d, sel = None -> text <> [] ->
                  (rule d = true <-> bothEndsMatch data text d))
    /\ (forall d, sel = None -> text = [] -> rule d = true)
    /\ (sel <> None \/ text <> [] ->
        lineStyles p
        = map (fun d => if rule d then (1%Q, accent) else ((1 # 10)%Q, inactive))
              ld
        /\ labelOpacities p
           = map (fun d => if rule d then 1%Q else (1 # 10)%Q) td)
    /\ (sel = None -> text = [] ->
        lineStyles p = map (fun _ => (1%Q, inactive)) ld
        /\ labelOpacities p = map (fun _ => 1%Q) td).
Proof.
  intros text sel data nd ld td refs dims p rule. subst p rule.
  split; [| split; [| split; [| split]]].
  - intros s d ->. apply touches_spec.
  - intros d -> Hne. now apply bothEnds_spec.
  - intros d -> ->. reflexivity.
  - intros Hact. rewrite pass_active.
    + simpl. split; apply map_ext; intros d;
        unfold linkOpacity, linkStroke;
        now destruct (isLinkHighlighted text sel data d).
    + destruct Hact as [Hsel | Hne].
      * destruct sel; [apply orb_true_r | congruence].
      * unfold isSearchActive. apply nonEmpty_true in Hne. now rewrite Hne.
  - intros -> ->. rewrite pass_idle. now split.
Qed.

(** The sample graph with [ai] selected: the two links at [ai] get the
    accent stroke, the other two the default stroke and opacity 0.1. *)
Lemma C6_witness :
  let ai := plainNode (utf16 "ai") (utf16 "人工智能") (utf16 "技术") in
  (Some ai <> None \/ @nil N <> [])
  /\ lineStyles
       (highlightPass (rt := exampleRuntime None) [] (Some ai) INITIAL_DATA
                      (nodes INITIAL_DATA) (links INITIAL_DATA)
                      (links INITIAL_DATA) true (800%Q, 600%Q))
     = [(1%Q, accent); ((1 # 10)%Q, inactive); ((1 # 10)%Q, inactive);
        (1%Q, accent)].
Proof.
  intros ai.
  assert (Hact : Some ai <> None \/ @nil N <> []) by (left; discriminate).
  split; [exact Hact |].
  destruct (C6_link_rule_and_styles (rt := exampleRuntime None) [] (Some ai)
              INITIAL_DATA (nodes INITIAL_DATA) (links INITIAL_DATA)
              (links INITIAL_DATA) true (800%Q, 600%Q))
    as [_ [_ [_ [Hstyles _]]]].
  destruct (Hstyles Hact) as [Hlines _]. rewrite Hlines. reflexivity.
Defined.

(* ===================================================================== *)
(** ** The object store *)
(* ===================================================================== *)

Local Open Scope nat_scope.

Lemma keeps_refl (n : nat) (h : list obj) : keeps n h h.
Proof. split; [lia | reflexivity]. Qed.

Lemma keeps_trans (n : nat) (h h1 h2 : list obj) :
  keeps n h h1 -> keeps n h1 h2 -> keeps n h h2.
Proof.
  intros [Hl1 H1] [Hl2 H2]. split; [lia |].
  intros l Hl. now rewrite H2, H1.
Qed.

Lemma keeps_le (n m : nat) (h h1 : list obj) :
  n <= m -> keeps m h h1 -> keeps n h h1.
Proof. intros Hnm [Hl H1]. split; [exact Hl | intros l Hlt; apply H1; lia]. Qed.

Lemma keeps_app (n : nat) (h ext : list obj) :
  n <= length h -> keeps n h (h ++ ext).
Proof.
  intros Hn. split; [rewrite length_app; lia |].
  intros l Hl. apply lookup_app_l. lia.
Qed.

Lemma keeps_insert (n : nat) (h : list obj) (l : loc) (o : obj) :
  n <= l -> keeps n h (<[l := o]> h).
Proof.
  intros Hn. split; [rewrite length_insert; lia |].
  intros l1 Hl. apply list_lookup_insert_ne. lia.
Qed.

Lemma keeps_updateNode (n : nat) (h : list obj) f (l : loc) :
  n <= l -> keeps n h (updateNode f l h).
Proof.
  intros Hn. unfold updateNode.
  destruct (h !! l) as [[m | lk] |]; try apply keeps_refl.
  now apply keeps_insert.
Qed.

Lemma readNode_keeps (n : nat) (h h1 : list obj) (l : loc) :
  keeps n h h1 -> l < n -> readNode h1 l = readNode h l.
Proof. intros [_ H1] Hl. unfold readNode. now rewrite H1. Qed.

Lemma readLinkObj_keeps (n : nat) (h h1 : list obj) (l : loc) :
  keeps n h h1 -> l < n -> readLinkObj h1 l = readLinkObj h l.
Proof. intros [_ H1] Hl. unfold readLinkObj. now rewrite H1. Qed.

Lemma readEndpoint_keeps (n : nat) (h h1 : list obj) (e : Endpoint loc) :
  keeps n h h1 -> endBelow n e -> readEndpoint h1 e = readEndpoint h e.
Proof.
  intros Hk He. destruct e as [s | l]; [reflexivity |]. simpl in *.
  now rewrite (readNode_keeps n h h1).
Qed.

Lemma readLink_keeps (n : nat) (h h1 : list obj) (l : loc) :
  keeps n h h1 -> linkBelow n h l -> readLink h1 l = readLink h l.
Proof.
  intros Hk [Hl Hends]. unfold readLink.
  rewrite (readLinkObj_keeps n h h1) by assumption.
  destruct (readLinkObj h l) as [lk |]; [| reflexivity].
  destruct (Hends lk eq_refl) as [Hs Ht].
  now rewrite !(readEndpoint_keeps n h h1) by assumption.
Qed.

Lemma linkBelow_keeps (n : nat) (h h1 : list obj) (l : loc) :
  keeps n h h1 -> linkBelow n h l -> linkBelow n h1 l.
Proof.
  intros Hk [Hl Hends]. split; [exact Hl |].
  intros lk E. rewrite (readLinkObj_keeps n h h1) in E by assumption. eauto.
Qed.

Lemma linkBelow_le (n m : nat) (h : list obj) (l : loc) :
  n <= m -> linkBelow n h l -> linkBelow m h l.
Proof.
  intros Hnm [Hl Hends]. split; [lia |]. intros lk E.
  destruct (Hends lk E) as [Hs Ht].
  split; [destruct (source lk) | destruct (target lk)]; simpl in *; lia.
Qed.

Lemma omap_ext_Forall {A B} (f g : A -> option B) (l : list A) :
  Forall (fun a => f a = g a) l -> omap f l = omap g l.
Proof.
  induction 1 as [| a l E _ IH]; [reflexivity |].
  change (omap f (a :: l))
    with (match f a with Some b => b :: omap f l | None => omap f l end).
  change (omap g (a :: l))
    with (match g a with Some b => b :: omap g l | None => omap g l end).
  now rewrite E, IH.
Qed.

Lemma readData_keeps (n : nat) (h h1 : list obj) (d : DataRef) :
  keeps n h h1 -> dataBelow n h d -> readData h1 d = readData h d.
Proof.
  intros Hk [Hn Hl]. unfold readData. f_equal; apply omap_ext_Forall.
  - eapply Forall_impl; [exact Hn |]. intros l Hlt. simpl.
    now apply (readNode_keeps n).
  - eapply Forall_impl; [exact Hl |]. intros l Hlt. simpl.
    now apply (readLink_keeps n).
Qed.

Lemma dataBelow_keeps (n m : nat) (h h1 : list obj) (d : DataRef) :
  n <= m -> keeps n h h1 -> dataBelow n h d -> dataBelow m h1 d.
Proof.
  intros Hnm Hk [Hn Hl]. split.
  - eapply Forall_impl; [exact Hn |]. simpl. intros; lia.
  - eapply Forall_impl; [exact Hl |]. simpl. intros l Hb.
    apply (linkBelow_le n); [exact Hnm |]. now apply (linkBelow_keeps n h).
Qed.

Lemma omap_Forall2 {A B} (f : A -> option B) (l : list A) (k : list B) :
  Forall2 (fun a b => f a = Some b) l k -> omap f l = k.
Proof.
  induction 1 as [| a b l k E _ IH]; [reflexivity |].
  change (omap f (a :: l))
    with (match f a with Some b => b :: omap f l | None => omap f l end).
  now rewrite E, IH.
Qed.

Lemma readNode_app (h ext : list obj) (l : loc) (n : GraphNode) :
  readNode h l = Some n -> readNode (h ++ ext) l = Some n.
Proof.
  unfold readNode. destruct (h !! l) as [o |] eqn:E; [| discriminate].
  now rewrite (lookup_app_l_Some _ _ _ _ E).
Qed.

Lemma readNode_snoc (h : list obj) (n : GraphNode) :
  readNode (h ++ [ONode n]) (length h) = Some n.
Proof. unfold readNode. now rewrite list_lookup_middle. Qed.

Lemma readLinkObj_app (h ext : list obj) (l : loc) (lk : Link loc) :
  readLinkObj h l = Some lk -> readLinkObj (h ++ ext) l = Some lk.
Proof.
  unfold readLinkObj. destruct (h !! l) as [o |] eqn:E; [| discriminate].
  now rewrite (lookup_app_l_Some _ _ _ _ E).
Qed.

Lemma readEndpoint_app (h ext : list obj) (r : Endpoint loc)
      (e : Endpoint GraphNode) :
  readEndpoint h r = Some e -> readEndpoint (h ++ ext) r = Some e.
Proof.
  destruct r as [s | l]; simpl; [trivial |].
  destruct (readNode h l) as [n |] eqn:E; [| discriminate].
  now rewrite (readNode_app _ _ _ _ E).
Qed.

Lemma readLink_app (h ext : list obj) (l : loc) (v : GraphLink) :
  readLink h l = Some v -> readLink (h ++ ext) l = Some v.
Proof.
  unfold readLink.
  destruct (readLinkObj h l) as [lk |] eqn:E; [| discriminate].
  rewrite (readLinkObj_app _ _ _ _ E).
  destruct (readEndpoint h (source lk)) as [s |] eqn:Es; [| discriminate].
  destruct (readEndpoint h (target lk)) as [t |] eqn:Et; [| discriminate].
  now rewrite (readEndpoint_app _ _ _ _ Es), (readEndpoint_app _ _ _ _ Et).
Qed.

Lemma storeEndpoint_spec (h h1 : list obj) (e : Endpoint GraphNode)
      (r : Endpoint loc) :
  storeEndpoint h e = (h1, r) ->
  exists ext, h1 = h ++ ext /\ readEndpoint h1 r = Some e
              /\ endBelow (length h1) r.
Proof.
  destruct e as [s | n]; simpl; intros E; injection E as <- <-.
  - exists []. now rewrite app_nil_r.
  - exists [ONode n]. split; [reflexivity |]. simpl.
    rewrite readNode_snoc, length_app. simpl. split; [reflexivity | lia].
Qed.

Lemma endBelow_le (n m : nat) (e : Endpoint loc) :
  n <= m -> endBelow n e -> endBelow m e.
Proof. destruct e; simpl; [trivial | lia]. Qed.

Lemma storeLink_spec (h h1 : list obj) (l : GraphLink) (a : loc) :
  storeLink h l = (h1, a) ->
  exists ext, h1 = h ++ ext /\ length h <= a
              /\ readLink h1 a = Some l /\ linkBelow (length h1) h1 a.
Proof.
  unfold storeLink.
  destruct (storeEndpoint h (source l)) as [ha s] eqn:Es.
  destruct (storeEndpoint ha (target l)) as [hb t] eqn:Et.
  intros E. injection E as <- <-.
  destruct (storeEndpoint_spec _ _ _ _ Es) as [ext1 [-> [Rs Bs]]].
  destruct (storeEndpoint_spec _ _ _ _ Et) as [ext2 [-> [Rt Bt]]].
  set (lk := mkLink s t (relation l) (linkIndex l)).
  exists (ext1 ++ ext2 ++ [OLink lk]).
  assert (Hobj : readLinkObj (((h ++ ext1) ++ ext2) ++ [OLink lk])
                             (length ((h ++ ext1) ++ ext2)) = Some lk).
  { unfold readLinkObj. now rewrite list_lookup_middle. }
  split; [now rewrite <- !app_assoc |].
  split; [rewrite !length_app; lia |].
  split.
  - unfold readLink. rewrite Hobj. simpl.
    rewrite (readEndpoint_app _ [OLink lk] _ _ Rt).
    rewrite (readEndpoint_app _ [OLink lk] _ _
               (readEndpoint_app _ ext2 _ _ Rs)).
    now destruct l.
  - split; [rewrite !length_app; simpl; lia |].
    intros lk1 E. rewrite Hobj in E. injection E as <-. simpl.
    split; [eapply endBelow_le; [| exact Bs] | eapply endBelow_le; [| exact Bt]];
      rewrite !length_app; lia.
Qed.

Lemma storeLinks_spec (ls : list GraphLink) :
  forall (h h1 : list obj) (locs : list loc),
    storeLinks h ls = (h1, locs) ->
    exists ext, h1 = h ++ ext
                /\ Forall2 (fun a l => readLink h1 a = Some l) locs ls
                /\ Forall (linkBelow (length h1) h1) locs
                /\ Forall (fun a => length h <= a) locs.
Proof.
  induction ls as [| l rest IH]; intros h h1 locs; simpl.
  - intros E. injection E as <- <-. exists []. rewrite app_nil_r.
    repeat split; constructor.
  - destruct (storeLink h l) as [ha a] eqn:El.
    destruct (storeLinks ha rest) as [hb others] eqn:Er.
    intros E. injection E as <- <-.
    destruct (storeLink_spec _ _ _ _ El) as [ext1 [-> [Ha [Ra Ba]]]].
    destruct (IH _ _ _ Er) as [ext2 [-> [Rs [Bs Ls]]]].
    exists (ext1 ++ ext2). split; [now rewrite app_assoc |].
    split; [| split].
    + constructor; [now apply readLink_app | exact Rs].
    + constructor; [| exact Bs].
      apply (linkBelow_le (length (h ++ ext1)));
        [rewrite !length_app; lia |].
      apply (linkBelow_keeps _ (h ++ ext1)); [| exact Ba].
      now apply keeps_app.
    + constructor; [exact Ha |].
      eapply Forall_impl; [exact Ls |]. simpl. intros b.
      rewrite length_app. lia.
Qed.

Lemma stored_nodes (ns : list GraphNode) :
  forall (h ext : list obj),
    Forall2 (fun a n => readNode (h ++ map ONode ns ++ ext) a = Some n)
            (seq (length h) (length ns)) ns.
Proof.
  induction ns as [| n rest IH]; intros h ext; simpl; constructor.
  - unfold readNode. now rewrite list_lookup_middle.
  - specialize (IH (h ++ [ONode n]) ext).
    rewrite length_app, Nat.add_1_r, <- app_assoc in IH. exact IH.
Qed.

Lemma storeData_spec (h h1 : list obj) (g : GraphData) (d : DataRef) :
  storeData h g = (h1, d) ->
  (exists ext, h1 = h ++ ext)
  /\ nodeRefs d = seq (length h) (length (nodes g))
  /\ Forall2 (fun a n => readNode h1 a = Some n) (nodeRefs d) (nodes g)
  /\ Forall2 (fun a l => readLink h1 a = Some l) (linkRefs d) (links g)
  /\ dataBelow (length h1) h1 d.
Proof.
  unfold storeData.
  destruct (storeLinks (h ++ map ONode (nodes g)) (links g)) as [h2 ls] eqn:E.
  intros E1. injection E1 as <- <-. simpl.
  destruct (storeLinks_spec _ _ _ _ E) as [ext [-> [Rl [Bl _]]]].
  rewrite <- app_assoc.
  split; [eauto |]. split; [reflexivity |].
  split; [apply stored_nodes |]. rewrite app_assoc.
  split; [exact Rl |]. split; [| exact Bl]. simpl.
  apply Forall_forall. intros a Ha. apply list_elem_of_In, in_seq in Ha.
  rewrite !length_app, length_map. lia.
Qed.

Lemma storeData_read (h h1 : list obj) (g : GraphData) (d : DataRef) :
  storeData h g = (h1, d) -> readData h1 d = g.
Proof.
  intros E. destruct (storeData_spec _ _ _ _ E) as [_ [_ [Rn [Rl _]]]].
  unfold readData. rewrite (omap_Forall2 _ _ _ Rn), (omap_Forall2 _ _ _ Rl).
  now destruct g.
Qed.

(** *** The simulation effect only adds objects *)

Lemma copyAll_fresh (refs : list loc) :
  forall (h h1 : list obj) (cs : list loc),
    copyAll h refs = (h1, cs) ->
    exists objs, h1 = h ++ objs /\ cs = seq (length h) (length objs).
Proof.
  induction refs as [| r rest IH]; intros h h1 cs; simpl.
  - intros E. injection E as <- <-. exists []. now rewrite app_nil_r.
  - destruct (h !! r) as [o |]; [| apply IH].
    destruct (copyAll (h ++ [o]) rest) as [h2 cs2] eqn:E2.
    intros E. injection E as <- <-.
    destruct (IH _ _ _ E2) as [objs [-> ->]].
    exists (o :: objs). rewrite <- app_assoc. split; [reflexivity |].
    rewrite length_app, Nat.add_1_r. reflexivity.
Qed.

Lemma copyAll_valid (refs : list loc) :
  forall (h : list obj) (objs : list obj),
    Forall2 (fun r o => h !! r = Some o) refs objs ->
    copyAll h refs = (h ++ objs, seq (length h) (length refs)).
Proof.
  induction refs as [| r rest IH]; intros h objs Hall.
  - inversion Hall; subst. simpl. now rewrite app_nil_r.
  - inversion Hall as [| r1 o rest1 objs1 Hr Hrest]; subst. simpl.
    rewrite Hr. rewrite (IH (h ++ [o]) objs1).
    + rewrite <- app_assoc, length_app, Nat.add_1_r. reflexivity.
    + eapply Forall2_impl; [exact Hrest |]. simpl. intros r2 o2 E.
      now apply lookup_app_l_Some.
Qed.

Lemma seq_above (a n : nat) : Forall (fun l => a <= l) (seq a n).
Proof.
  apply Forall_forall. intros l Hl. apply list_elem_of_In, in_seq in Hl. lia.
Qed.

Lemma length_updateNode f (l : loc) (h : list obj) :
  length (updateNode f l h) = length h.
Proof.
  unfold updateNode. destruct (h !! l) as [[n | lk] |]; try reflexivity.
  apply length_insert.
Qed.

Lemma initializeNodes_keeps {ly : Layout} (n : nat) (ls : list loc) :
  forall (i : nat) (h : list obj),
    Forall (fun l => n <= l) ls -> keeps n h (initializeNodes i ls h).
Proof.
  induction ls as [| l rest IH]; intros i h Hall; simpl.
  - apply keeps_refl.
  - inversion Hall; subst.
    eapply keeps_trans; [apply keeps_updateNode; eassumption |].
    now apply IH.
Qed.

Lemma initializeLinks_keeps (simNodes : list loc) (n : nat) (ls : list loc) :
  forall (i : nat) (h h1 : list obj),
    Forall (fun l => n <= l) ls ->
    initializeLinks simNodes i ls h = Some h1 -> keeps n h h1.
Proof.
  induction ls as [| l rest IH]; intros i h h1 Hall; simpl.
  - intros E. injection E as <-. apply keeps_refl.
  - inversion Hall; subst.
    destruct (readLinkObj h l) as [lk |]; [| now apply IH].
    destruct (resolveEndpoint h simNodes (source lk)) as [s |]; [| discriminate].
    destruct (resolveEndpoint h simNodes (target lk)) as [t |]; [| discriminate].
    intros E. eapply keeps_trans; [apply keeps_insert; eassumption |].
    eapply IH; eassumption.
Qed.

(** What a run of the simulation effect leaves as it was. *)
Lemma simulationEffect_frame {ly : Layout} (w w1 : World) :
  simulationEffect w = Done w1 ->
  keeps (length (heap w)) (heap w) (heap w1)
  /\ app w1 = app w
  /\ inflight w1 = inflight w
  /\ filterText (view w1) = filterText (view w)
  /\ dimensions (view w1) = dimensions (view w)
  /\ zoomState (svg (view w1)) = zoomState (svg (view w))
  /\ zoomLog (svg (view w1)) = zoomLog (svg (view w)).
Proof.
  unfold simulationEffect.
  assert (Hclean : filterText (runCleanup (view w)) = filterText (view w)
                   /\ dimensions (runCleanup (view w)) = dimensions (view w)
                   /\ svg (runCleanup (view w)) = svg (view w)).
  { unfold runCleanup. now destruct (cleanup (view w)). }
  destruct Hclean as [Hf [Hd Hs]].
  destruct (nodeRefs (graphData (app w))) as [| r rest] eqn:Hnodes.
  - intros E. injection E as <-. simpl. rewrite Hs.
    split_and!; try assumption; try reflexivity. apply keeps_refl.
  - destruct (copyAll (heap w) (r :: rest)) as [h1 ns] eqn:E1.
    destruct (copyAll h1 (linkRefs (graphData (app w)))) as [h2 ls] eqn:E2.
    destruct (initializeLinks ns 0 ls (initializeNodes 0 ns h2))
      as [h4 |] eqn:E4; [| discriminate].
    intros E. injection E as <-. simpl. rewrite Hs.
    split_and!; try assumption; try reflexivity.
    destruct (copyAll_fresh _ _ _ _ E1) as [o1 [-> ->]].
    destruct (copyAll_fresh _ _ _ _ E2) as [o2 [-> ->]].
    eapply keeps_trans; [apply (keeps_app _ _ o1); lia |].
    eapply keeps_trans; [apply (keeps_app _ _ o2); rewrite length_app; lia |].
    eapply keeps_trans;
      [apply initializeNodes_keeps, seq_above |].
    eapply initializeLinks_keeps; [| exact E4].
    eapply Forall_impl; [apply seq_above |]. simpl. intros l.
    rewrite length_app. lia.
Qed.

(** The highlighting effect restyles the elements and may move the
    viewport; it writes to no object. *)
Lemma highlightEffect_frame {rt : Runtime} (w : World) :
  heap (highlightEffect w) = heap w
  /\ app (highlightEffect w) = app w
  /\ inflight (highlightEffect w) = inflight w
  /\ filterText (view (highlightEffect w)) = filterText (view w)
  /\ sims (view (highlightEffect w)) = sims (view w)
  /\ cleanup (view (highlightEffect w)) = cleanup (view w)
  /\ zoomRef (view (highlightEffect w)) = zoomRef (view w).
Proof. unfold highlightEffect. destruct (thePass w); split_and!; reflexivity. Qed.

Lemma commit_frame {rt : Runtime} {ly : Layout} (a b : bool) (w w1 : World) :
  commit a b w = Done w1 ->
  keeps (length (heap w)) (heap w) (heap w1)
  /\ app w1 = app w
  /\ inflight w1 = inflight w
  /\ filterText (view w1) = filterText (view w).
Proof.
  unfold commit. destruct a.
  - destruct (simulationEffect w) as [w2 | |] eqn:E; try discriminate.
    intros E1. injection E1 as <-.
    destruct (simulationEffect_frame _ _ E) as [Hk [Ha [Hi [Hf _]]]].
    destruct (highlightEffect_frame w2) as [Hh [Ha2 [Hi2 [Hf2 _]]]].
    rewrite Hh, Ha2, Hi2, Hf2. now split_and!.
  - destruct (highlightEffect_frame w) as [Hh [Ha2 [Hi2 [Hf2 _]]]].
    destruct b; intros E1; injection E1 as <-.
    + rewrite Hh, Ha2, Hi2, Hf2. split_and!; try reflexivity. apply keeps_refl.
    + split_and!; try reflexivity. apply keeps_refl.
Qed.

(* ===================================================================== *)
(** ** Replacing the graph *)
(* ===================================================================== *)

Lemma setGraphData_stores (g : GraphData) (w : World) :
  storeData (heap w) g
  = (heap (setGraphData g w), graphData (app (setGraphData g w)))
  /\ view (setGraphData g w) = view w
  /\ selectedNode (app (setGraphData g w)) = selectedNode (app w)
  /\ inflight (setGraphData g w) = inflight w.
Proof.
  unfold setGraphData. destruct (storeData (heap w) g) as [h d].
  now split_and!.
Qed.

(** After the effects that follow [setGraphData(g)], the [data] property
    denotes [g]. *)
Lemma replaced_dataProp {rt : Runtime} {ly : Layout} (h : list obj)
      (g : GraphData) (w0 w1 : World) :
  storeData h g = (heap w0, graphData (app w0)) ->
  commit true true w0 = Done w1 ->
  dataProp w1 = g.
Proof.
  intros Hs Hc.
  destruct (commit_frame _ _ _ _ Hc) as [Hk [Ha _]].
  destruct (storeData_spec _ _ _ _ Hs) as [_ [_ [_ [_ Hb]]]].
  unfold dataProp. rewrite Ha.
  rewrite (readData_keeps _ _ _ _ Hk Hb).
  exact (storeData_read _ _ _ _ Hs).
Qed.

Lemma importJson_cases {rt : Runtime} {ly : Layout} (f : File)
      (w w1 : World) :
  importJson f w = Done w1 ->
  (exists msg, w1 = alert msg w
               /\ (JSON_parse (content f) = None
                   \/ exists doc, JSON_parse (content f) = Some doc
                                  /\ validate doc <> Normal Valid))
  \/ (exists doc g,
         JSON_parse (content f) = Some doc
         /\ validate doc = Normal Valid
         /\ asGraphData doc = Some g
         /\ commit true true
                   (setSelectedNode None
                      (setStatus (imported f) (setQuery [] (setGraphData g w))))
            = Done w1).
Proof.
  unfold importJson.
  destruct (JSON_parse (content f)) as [doc |] eqn:Ep.
  - destruct (validate doc) as [[ | | ] |] eqn:Ev.
    + destruct (asGraphData doc) as [g |] eqn:Eg; [| discriminate].
      intros E. right. now exists doc, g.
    + intros E. injection E as <-. left. eexists. split; [reflexivity |].
      right. exists doc. split; [reflexivity | congruence].
    + intros E. injection E as <-. left. eexists. split; [reflexivity |].
      right. exists doc. split; [reflexivity | congruence].
    + intros E. injection E as <-. left. eexists. split; [reflexivity |].
      right. exists doc. split; [reflexivity | congruence].
  - intros E. injection E as <-. left. eexists. split; [reflexivity |].
    now left.
Qed.

Lemma validate_links_not_array (fs : list (jsstring * json)) :
  isArray (field (utf16 "links") fs) = None ->
  validate (JObj fs) = Normal NotArrays.
Proof.
  intros Hl. unfold validate, getProp.
  destruct (isArray (field (utf16 "nodes") fs)); [| reflexivity].
  now rewrite Hl.
Qed.

(** What holds of the replacement of the graph. A generation that fails
    changes the status and nothing else; a JSON file that does not parse or
    does not pass the checks ([nodes] or [links] not an array, a node
    without [id] or [label]) is answered by a message and nothing else
    changes, in particular when [links] is not an array; and when an
    upload or the end of a generation ends and changes the graph, the graph
    is the document of the event: for an upload one that passed the checks,
    for a generation the one that the service gave. *)
Theorem replacement_or_nothing {rt : Runtime} {ly : Layout} :
  forall (w : World),
    (forall (i : nat) (r : Response),
        generateKnowledgeGraph r = None ->
        let w1 := serviceSettled i r w in
        heap w1 = heap w /\ graphData (app w1) = graphData (app w)
        /\ view w1 = view w /\ dataProp w1 = dataProp w)
    /\ (forall (f : File),
           endsWith (toLowerCase (name f)) (utf16 ".json") = true ->
           (size f <= sizeLimit)%N ->
           (JSON_parse (content f) = None
            \/ exists doc, JSON_parse (content f) = Some doc
                           /\ validate doc <> Normal Valid) ->
           exists msg, handleFileUpload (Some f) w = Done (alert msg w))
    /\ (forall (f : File) (fs : list (jsstring * json)),
           endsWith (toLowerCase (name f)) (utf16 ".json") = true ->
           (size f <= sizeLimit)%N ->
           JSON_parse (content f) = Some (JObj fs) ->
           isArray (field (utf16 "links") fs) = None ->
           exists msg, handleFileUpload (Some f) w = Done (alert msg w))
    /\ (forall (msg : jsstring),
           heap (alert msg w) = heap w
           /\ graphData (app (alert msg w)) = graphData (app w)
           /\ selectedNode (app (alert msg w)) = selectedNode (app w)
           /\ view (alert msg w) = view w
           /\ dataProp (alert msg w) = dataProp w)
    /\ (forall (file : option File) (w1 : World),
           handleFileUpload file w = Done w1 ->
           (heap w1 = heap w /\ graphData (app w1) = graphData (app w)
            /\ view w1 = view w)
           \/ (exists g, replacement w (Upload file) = Some g
                         /\ dataProp w1 = g))
    /\ (forall (i : nat) (w1 : World),
           graphBuilt i w = Done w1 ->
           w1 = w
           \/ (exists g, replacement w (GraphBuilt i) = Some g
                         /\ dataProp w1 = g)).
Proof.
  intros w. split_and!.
  - intros i r Hfail w1. subst w1. unfold serviceSettled. rewrite Hfail.
    destruct (inflight w !! i) as [[| d] |]; now split_and!.
  - intros f Hjson Hsize Hbad. unfold handleFileUpload.
    apply N.ltb_ge in Hsize. rewrite Hsize, Hjson. unfold importJson.
    destruct Hbad as [-> | [doc [-> Hv]]]; [eauto |].
    destruct (validate doc) as [[ | | ] |]; [congruence | eauto ..].
  - intros f fs Hjson Hsize Hparse Hlinks. unfold handleFileUpload.
    apply N.ltb_ge in Hsize. rewrite Hsize, Hjson. unfold importJson.
    rewrite Hparse, (validate_links_not_array fs Hlinks). eauto.
  - intros msg. now split_and!.
  - intros file w1. unfold handleFileUpload, replacement.
    destruct file as [f |]; [| intros E; injection E as <-; now left].
    destruct (sizeLimit <? size f)%N;
      [intros E; injection E as <-; now left |].
    destruct (endsWith (toLowerCase (name f)) (utf16 ".json"));
      [| intros E; injection E as <-; now left].
    intros E. apply importJson_cases in E.
    destruct E as [[msg [-> _]] | [doc [g [Hp [Hv [Hg Hc]]]]]]; [now left |].
    right. exists g. rewrite Hp, Hv. split; [exact Hg |].
    destruct (setGraphData_stores g w) as [Hs _].
    eapply replaced_dataProp; [| exact Hc]. exact Hs.
  - intros i w1. unfold graphBuilt, replacement.
    destruct (inflight w !! i) as [[| doc] |];
      try (intros E; injection E as <-; now left).
    destruct (asGraphData doc) as [g |]; [| discriminate].
    intros Hc. right. exists g. split; [reflexivity |].
    destruct (setGraphData_stores g w) as [Hs _].
    eapply replaced_dataProp; [| exact Hc]. exact Hs.
Qed.

(** A file whose [links] is a string is answered by a message; the page
    is otherwise as it was. *)
Example links_that_are_a_string_are_refused :
  let doc := JObj [(utf16 "nodes", JArr []); (utf16 "links", JStr (utf16 "none"))] in
  let f := mkFile (utf16 "graph.JSON") 42 (utf16 "{ }") in
  endsWith (toLowerCase (Runtime := exampleRuntime (Some doc)) (name f))
           (utf16 ".json") = true
  /\ (size f <= sizeLimit)%N
  /\ JSON_parse (Runtime := exampleRuntime (Some doc)) (content f) = Some doc
  /\ isArray (field (utf16 "links")
                    [(utf16 "nodes", JArr []); (utf16 "links", JStr (utf16 "none"))])
     = None
  /\ exists msg,
      handleFileUpload (rt := exampleRuntime (Some doc)) (ly := exampleLayout)
                       (Some f) unmounted
      = Done (alert msg unmounted).
Proof.
  intros doc f.
  assert (H1 : endsWith (toLowerCase (Runtime := exampleRuntime (Some doc))
                                     (name f)) (utf16 ".json") = true)
    by reflexivity.
  assert (H2 : (size f <= sizeLimit)%N) by (vm_compute; discriminate).
  assert (H3 : JSON_parse (Runtime := exampleRuntime (Some doc)) (content f)
               = Some doc) by reflexivity.
  assert (H4 : isArray (field (utf16 "links")
                              [(utf16 "nodes", JArr []);
                               (utf16 "links", JStr (utf16 "none"))]) = None)
    by reflexivity.
  split_and!; try assumption.
  destruct (replacement_or_nothing
              (rt := exampleRuntime (Some doc)) (ly := exampleLayout) unmounted)
    as [_ [_ [Hlinks _]]].
  exact (Hlinks f _ H1 H2 H3 H4).
Qed.

(** C5, on the code. The end of a generation stores the document that
    the service gave without any check, where the import checks the arrays
    and the [id] and [label] of the nodes. A response whose only node has
    an empty [id] and [label] is refused by the import, with its message
    and the sample graph left in place, and accepted by the generation:
    the graph is replaced by it, the node is drawn and the status says
    complete. A response [{ "nodes": [] }], which the import refuses as
    well, is put in the state by the generation as it is. And a response
    with a link to an id that no node has makes the simulation effect
    throw: the page is lost, with neither the old graph nor the new one
    on screen. *)
Theorem C5_generation_stores_unchecked_document :
  let unnamed := JObj [(utf16 "id", JStr []); (utf16 "label", JStr []);
                       (utf16 "group", JStr (utf16 "g"))] in
  let doc := JObj [(utf16 "nodes", JArr [unnamed]); (utf16 "links", JArr [])] in
  let bare := JObj [(utf16 "nodes", JArr [])] in
  let a := JObj [(utf16 "id", JStr (utf16 "a"));
                 (utf16 "label", JStr (utf16 "A"));
                 (utf16 "group", JStr (utf16 "g"))] in
  let l := JObj [(utf16 "source", JStr (utf16 "a"));
                 (utf16 "target", JStr (utf16 "zz"));
                 (utf16 "relation", JStr (utf16 "r"))] in
  let dangling := JObj [(utf16 "nodes", JArr [a]); (utf16 "links", JArr [l])] in
  let f := mkFile (utf16 "graph.json") 64 (utf16 "{ }") in
  let generation := [TypeQuery (utf16 "topic"); Submit;
                     ServiceSettled 0 (ApiText (Some (utf16 "{ }")));
                     GraphBuilt 0] in
  (validate doc = Normal NodeWithoutIdOrLabel
   /\ exists w1,
       play (rt := exampleRuntime (Some doc)) (ly := exampleLayout)
            [Upload (Some f)] = Done w1
       /\ dataProp w1 = INITIAL_DATA
       /\ alerts (app w1) = [utf16 "JSON 格式错误：节点缺少 id 或 label 字段。"])
  /\ (exists w1,
         play (rt := exampleRuntime (Some doc)) (ly := exampleLayout)
              generation = Done w1
         /\ dataProp w1 = mkData [plainNode [] [] (utf16 "g")] []
         /\ dataProp w1 <> INITIAL_DATA
         /\ status (app w1) = completed
         /\ length (nodeElems (svg (view w1))) = 1)
  /\ (validate bare = Normal NotArrays
      /\ exists rest,
          play (rt := exampleRuntime (Some bare)) (ly := exampleLayout)
               generation = NotGraphData bare rest
          /\ status (app rest) = completed
          /\ inflight rest = [])
  /\ play (rt := exampleRuntime (Some dangling)) (ly := exampleLayout)
          generation = NodeNotFound.
Proof.
  intros unnamed doc bare a l dangling f generation. split_and!.
  - vm_compute. reflexivity.
  - eexists. split; [vm_compute; reflexivity |].
    split; [vm_compute; reflexivity | vm_compute; reflexivity].
  - eexists. split; [vm_compute; reflexivity |].
    split_and!; try (vm_compute; reflexivity).
    intros E. vm_compute in E. discriminate E.
  - vm_compute. reflexivity.
  - eexists. split; [vm_compute; reflexivity |].
    split; vm_compute; reflexivity.
  - vm_compute. reflexivity.
Qed.

Lemma pass_lengths {rt : Runtime} text sel data nd ld td refs dims :
  let p := highlightPass text sel data nd ld td refs dims in
  length (nodeOpacities p) = length nd
  /\ length (lineStyles p) = length ld
  /\ length (labelOpacities p) = length td.
Proof.
  unfold highlightPass.
  destruct (negb (isSearchActive text) && negb (isSelectionActive sel));
    simpl; now rewrite !length_map.
Qed.

Lemma map_zip_with_same {E X P} (f : E -> X -> E) (proj : E -> P)
      (es : list E) :
  (forall e a, proj (f e a) = proj e) ->
  forall xs, length xs = length es ->
             map proj (zip_with f es xs) = map proj es.
Proof.
  intros Hproj. induction es as [| e es IH]; intros [| a xs] Hlen;
    simpl in *; try discriminate; [reflexivity |].
  rewrite Hproj, IH; [reflexivity | lia].
Qed.

Lemma mapM_length_option {A B} (f : A -> option B) (l : list A) (k : list B) :
  mapM f l = Some k -> length k = length l.
Proof.
  intros E. apply mapM_Some_1 in E. symmetry. exact (Forall2_length _ _ _ E).
Qed.

(** The highlighting effect leaves every element where it is. *)
Lemma highlightEffect_drawing {rt : Runtime} (w : World) :
  drawing (svg (view (highlightEffect w))) = drawing (svg (view w)).
Proof.
  unfold highlightEffect, thePass.
  destruct (boundNodes w) as [nd |] eqn:En; [| reflexivity].
  destruct (boundLines w) as [ld |] eqn:El; [| reflexivity].
  destruct (boundTexts w) as [td |] eqn:Et; [| reflexivity].
  apply mapM_length_option in En, El, Et. rewrite length_map in En, El, Et.
  destruct (pass_lengths (filterText (view w)) (selected w) (dataProp w)
                         nd ld td (refsSet (view w)) (dimensions (view w)))
    as [Hn [Hl Ht]].
  set (p := highlightPass _ _ _ _ _ _ _ _) in *.
  unfold drawing, applyPass. simpl.
  destruct (zoomTo p); simpl;
    rewrite !map_zip_with_same by (try reflexivity; congruence);
    reflexivity.
Qed.

(** An event that replaces the graph stores the new objects and runs both
    effects; an upload also clears the selection. *)
Lemma replacing_step {rt : Runtime} {ly : Layout} (w : World) (e : Event)
      (g : GraphData) :
  replacement w e = Some g ->
  exists w0,
    step w e = commit true true w0
    /\ storeData (heap w) g = (heap w0, graphData (app w0))
    /\ view w0 = view w
    /\ ((exists file, e = Upload file) -> selectedNode (app w0) = None).
Proof.
  destruct e; simpl; try discriminate.
  - destruct (inflight w !! i) as [[| doc] |] eqn:Ei; try discriminate.
    intros Hg. unfold graphBuilt. rewrite Ei, Hg.
    eexists. split; [reflexivity |].
    destruct (setGraphData_stores g w) as [Hs [Hv _]].
    split_and!; [exact Hs | exact Hv |].
    intros [file Hfile]. discriminate.
  - destruct file as [f |]; [| discriminate]. unfold handleFileUpload.
    destruct (sizeLimit <? size f)%N; [discriminate |].
    destruct (endsWith (toLowerCase (name f)) (utf16 ".json"));
      [| discriminate].
    unfold importJson.
    destruct (JSON_parse (content f)) as [doc |]; [| discriminate].
    destruct (validate doc) as [[ | | ] |]; try discriminate.
    intros Hg. rewrite Hg. eexists. split; [reflexivity |].
    destruct (setGraphData_stores g w) as [Hs [Hv _]].
    split_and!; [exact Hs | exact Hv | reflexivity].
Qed.

Lemma simulationEffect_empty {ly : Layout} (w : World) :
  nodeRefs (graphData (app w)) = [] ->
  simulationEffect w = Done (withView (runCleanup (view w)) w).
Proof. intros E. unfold simulationEffect. now rewrite E. Qed.

Lemma runCleanup_svg (v : ViewState) : svg (runCleanup v) = svg v.
Proof. unfold runCleanup. now destruct (cleanup v). Qed.

Lemma validate_empty_nodes (fs : list (jsstring * json)) (ls : list json) :
  field (utf16 "nodes") fs = Some (JArr []) ->
  field (utf16 "links") fs = Some (JArr ls) ->
  validate (JObj fs) = Normal Valid.
Proof. intros Hn Hl. unfold validate, getProp. now rewrite Hn, Hl. Qed.

(** C10. A document whose [nodes] is the empty array passes the checks of
    the import; when the graph in the state has no node, the simulation
    effect returns before it clears the drawing; so after such a graph
    replaces the old one, the [data] property has no node and the elements
    drawn for the old graph are all still there, where they were. *)
Theorem C10_empty_graph_keeps_old_drawing {rt : Runtime} {ly : Layout} :
  forall (w : World),
    (forall (fs : list (jsstring * json)) (ls : list json),
        field (utf16 "nodes") fs = Some (JArr []) ->
        field (utf16 "links") fs = Some (JArr ls) ->
        validate (JObj fs) = Normal Valid)
    /\ (nodeRefs (graphData (app w)) = [] ->
        exists w1, simulationEffect w = Done w1
                   /\ svg (view w1) = svg (view w))
    /\ (forall (e : Event) (g : GraphData),
           replacement w e = Some g ->
           nodes g = [] ->
           exists w1, step w e = Done w1
                      /\ nodes (dataProp w1) = []
                      /\ drawing (svg (view w1)) = drawing (svg (view w))).
Proof.
  intros w. split_and!.
  - apply validate_empty_nodes.
  - intros Hn. eexists. split; [now apply simulationEffect_empty |].
    simpl. apply runCleanup_svg.
  - intros e g Hrep Hempty.
    destruct (replacing_step w e g Hrep) as [w0 [Hstep [Hs [Hv _]]]].
    destruct (storeData_spec _ _ _ _ Hs) as [_ [Hrefs _]].
    rewrite Hempty in Hrefs. simpl in Hrefs.
    assert (Hc : commit true true w0
                 = Done (highlightEffect (withView (runCleanup (view w0)) w0))).
    { unfold commit. now rewrite (simulationEffect_empty w0 Hrefs). }
    eexists. split; [rewrite Hstep; exact Hc |]. split.
    + rewrite (replaced_dataProp _ _ _ _ Hs Hc). exact Hempty.
    + rewrite highlightEffect_drawing. simpl.
      now rewrite runCleanup_svg, Hv.
Qed.

(** An upload of [{ nodes: [], links: [] }] over the sample graph: the
    five circles and four lines stay on screen. *)
Lemma C10_witness :
  let doc := JObj [(utf16 "nodes", JArr []); (utf16 "links", JArr [])] in
  let f := mkFile (utf16 "empty.json") 24 (utf16 "{ }") in
  let w := started (rt := exampleRuntime (Some doc)) (ly := exampleLayout) in
  replacement (rt := exampleRuntime (Some doc)) w (Upload (Some f))
  = Some (mkData [] [])
  /\ nodes (mkData [] []) = []
  /\ length (nodeElems (svg (view w))) = 5
  /\ exists w1,
      step (rt := exampleRuntime (Some doc)) (ly := exampleLayout)
           w (Upload (Some f)) = Done w1
      /\ nodes (dataProp w1) = []
      /\ drawing (svg (view w1)) = drawing (svg (view w)).
Proof.
  intros doc f w.
  assert (H1 : replacement (rt := exampleRuntime (Some doc)) w (Upload (Some f))
               = Some (mkData [] [])) by reflexivity.
  split_and!; [exact H1 | reflexivity | reflexivity |].
  destruct (C10_empty_graph_keeps_old_drawing
              (rt := exampleRuntime (Some doc)) (ly := exampleLayout) w)
    as [_ [_ Hstep]].
  exact (Hstep (Upload (Some f)) (mkData [] []) H1 eq_refl).
Defined.

(** *** The objects of a new simulation *)

Lemma updateNode_middle f (h ext : list obj) (n : GraphNode) :
  updateNode f (length h) (h ++ ONode n :: ext) = h ++ ONode (f n) :: ext.
Proof.
  unfold updateNode. rewrite list_lookup_middle by reflexivity.
  rewrite insert_app_r_alt by lia. now rewrite Nat.sub_diag.
Qed.

Lemma initializeNodes_copies {ly : Layout} (ns : list GraphNode) :
  forall (i : nat) (h ext : list obj),
    initializeNodes i (seq (length h) (length ns)) (h ++ map ONode ns ++ ext)
    = h ++ map ONode (imap (fun j => initializeNode (i + j)) ns) ++ ext.
Proof.
  induction ns as [| n rest IH]; intros i h ext; [reflexivity |].
  cbn [length seq initializeNodes map app].
  change ((ONode n :: map ONode rest) ++ ext)
    with (ONode n :: map ONode rest ++ ext).
  rewrite updateNode_middle.
  specialize (IH (S i) (h ++ [ONode (initializeNode i n)]) ext).
  rewrite length_app, Nat.add_1_r in IH.
  rewrite (cons_middle _ h), app_assoc, IH, imap_cons, <- app_assoc.
  rewrite Nat.add_0_r. cbn [map app].
  apply (f_equal (fun t => h ++ ONode (initializeNode i n) :: map ONode t ++ ext)).
  apply imap_ext. intros j a _. simpl. f_equal. lia.
Qed.

Lemma runCleanup_sims (v : ViewState) :
  length (sims (runCleanup v)) = length (sims v)
  /\ (forall s sim, cleanup v = Some s -> sims (runCleanup v) !! s = Some sim ->
                    running sim = false)
  /\ filterText (runCleanup v) = filterText v.
Proof.
  unfold runCleanup. destruct (cleanup v) as [s0 |]; simpl.
  - split_and!; [apply length_alter | | reflexivity].
    intros s sim E. injection E as <-. rewrite list_lookup_alter_eq.
    destruct (sims v !! s0) as [sim0 |]; simpl; [| discriminate].
    intros E. injection E as <-. reflexivity.
  - split_and!; [reflexivity | discriminate | reflexivity].
Qed.

(** A run of the simulation effect on a graph that was just stored and
    has nodes: the new simulation, its elements, and the values of its
    node objects. *)
Lemma simulationEffect_started {ly : Layout} (h : list obj) (g : GraphData)
      (w0 w2 : World) :
  storeData h g = (heap w0, graphData (app w0)) ->
  nodes g <> [] ->
  simulationEffect w0 = Done w2 ->
  exists sim,
    sims (view w2) = sims (runCleanup (view w0)) ++ [sim]
    /\ cleanup (view w2) = Some (length (sims (view w0)))
    /\ drawnBy (svg (view w2)) = Some (length (sims (view w0)))
    /\ running sim = true
    /\ simNodes sim = seq (length (heap w0)) (length (nodes g))
    /\ map nodeDatum (nodeElems (svg (view w2))) = simNodes sim
    /\ mapM (readNode (heap w2)) (simNodes sim)
       = Some (imap initializeNode (nodes g)).
Proof.
  intros Hs Hne. unfold simulationEffect.
  destruct (storeData_spec _ _ _ _ Hs) as [_ [Hrefs [Rn _]]].
  destruct (nodeRefs (graphData (app w0))) as [| r rest] eqn:Hn.
  { destruct (nodes g); [congruence | discriminate]. }
  rewrite <- Hn in Hrefs, Rn. rewrite <- Hn.
  assert (Hobjs : Forall2 (fun r o => heap w0 !! r = Some o)
                          (nodeRefs (graphData (app w0)))
                          (map ONode (nodes g))).
  { apply Forall2_fmap_r. eapply Forall2_impl; [exact Rn |].
    simpl. intros a n. unfold readNode.
    destruct (heap w0 !! a) as [[m | lk] |]; congruence. }
  rewrite (copyAll_valid _ _ _ Hobjs).
  assert (Hlen : length (nodeRefs (graphData (app w0))) = length (nodes g)).
  { rewrite Hrefs. apply length_seq. }
  rewrite Hlen.
  destruct (copyAll (heap w0 ++ map ONode (nodes g))
                    (linkRefs (graphData (app w0)))) as [h2 ls] eqn:E2.
  destruct (copyAll_fresh _ _ _ _ E2) as [o2 [-> ->]].
  rewrite <- app_assoc, initializeNodes_copies.
  destruct (initializeLinks _ 0 _ _) as [h4 |] eqn:E4; [| discriminate].
  intros E. injection E as <-. simpl.
  eexists. split; [reflexivity |]. simpl.
  destruct (runCleanup_sims (view w0)) as [Hl _]. rewrite Hl.
  split_and!; try reflexivity.
  - rewrite map_map. simpl. apply map_id.
  - apply mapM_Some_2.
    assert (Hk : keeps (length (heap w0) + length (nodes g))
                       (heap w0 ++ map ONode (imap (fun j => initializeNode (0 + j))
                                                   (nodes g)) ++ o2) h4).
    { eapply initializeLinks_keeps; [| exact E4].
      eapply Forall_impl; [apply seq_above |]. simpl. intros l.
      rewrite length_app, length_map. lia. }
    apply Forall2_same_length_lookup_2;
      [now rewrite length_seq, length_imap |].
    intros i a n Ha Hi. apply lookup_seq in Ha as [-> Hlt].
    rewrite (readNode_keeps _ _ _ _ Hk) by lia.
    pose proof (stored_nodes (imap (fun j => initializeNode (0 + j)) (nodes g))
                             (heap w0) o2) as Hst.
    rewrite length_imap in Hst.
    eapply Forall2_lookup_lr in Hst; [exact Hst | |].
    + apply lookup_seq. split; [reflexivity | exact Hlt].
    + rewrite <- Hi. apply (f_equal (fun t => t !! i)).
      apply imap_ext. reflexivity.
Qed.

Lemma simulationEffect_sims {ly : Layout} (w0 w2 : World) :
  simulationEffect w0 = Done w2 ->
  exists extra, sims (view w2) = sims (runCleanup (view w0)) ++ extra.
Proof.
  unfold simulationEffect.
  destruct (nodeRefs (graphData (app w0))) as [| r rest].
  - intros E. injection E as <-. exists []. simpl. now rewrite app_nil_r.
  - destruct (copyAll (heap w0) (r :: rest)) as [h1 ns].
    destruct (copyAll h1 (linkRefs (graphData (app w0)))) as [h2 ls].
    destruct (initializeLinks ns 0 ls (initializeNodes 0 ns h2)) as [h4 |];
      [| discriminate].
    intros E. injection E as <-. simpl. eauto.
Qed.

Lemma runCleanup_stops (v : ViewState) (s : nat) :
  cleanup v = Some s -> sims (runCleanup v) = alter stop s (sims v).
Proof. intros E. unfold runCleanup. now rewrite E. Qed.

Lemma drawing_data (s1 s2 : Svg) :
  drawing s1 = drawing s2 ->
  drawnBy s1 = drawnBy s2
  /\ map nodeDatum (nodeElems s1) = map nodeDatum (nodeElems s2).
Proof.
  unfold drawing. intros E. injection E as Hd Hn _ _. split; [exact Hd |].
  apply (f_equal (map fst)) in Hn. now rewrite !map_map in Hn.
Qed.

(** The search text typed over the sample graph is still in the box, and
    applied, after a new graph is imported. *)
Lemma C4_search_text_survives_import :
  let node := JObj [(utf16 "id", JStr (utf16 "n1"));
                    (utf16 "label", JStr (utf16 "New"));
                    (utf16 "group", JStr (utf16 "g"))] in
  let doc := JObj [(utf16 "nodes", JArr [node]); (utf16 "links", JArr [])] in
  let f := mkFile (utf16 "new.json") 64 (utf16 "{ }") in
  exists w1,
    play (rt := exampleRuntime (Some doc)) (ly := exampleLayout)
         [Search (utf16 "ai"); Upload (Some f)] = Done w1
    /\ dataProp w1
       = mkData [plainNode (utf16 "n1") (utf16 "New") (utf16 "g")] []
    /\ filterText (view w1) = utf16 "ai"
    /\ filterText (view w1) <> [].
Proof.
  intros node doc f. eexists. split; [vm_compute; reflexivity |].
  split_and!; [reflexivity | reflexivity | discriminate].
Qed.

(** A node clicked while a generation is under way is still the selected
    node after the generated graph has replaced the one it belongs to. *)
Example selection_made_during_generation :
  let doc := JObj [(utf16 "nodes", JArr [JObj [(utf16 "id", JStr (utf16 "n1"));
                                               (utf16 "label", JStr (utf16 "New"));
                                               (utf16 "group", JStr (utf16 "g"))]]);
                   (utf16 "links", JArr [])] in
  exists w1 old,
    play (rt := exampleRuntime (Some doc)) (ly := exampleLayout)
         [TypeQuery (utf16 "topic"); Submit;
          ServiceSettled 0 (ApiText (Some (utf16 "{ }")));
          ClickNode 0; GraphBuilt 0] = Done w1
    /\ selected w1 = Some old
    /\ id old = utf16 "ai"
    /\ map id (nodes (dataProp w1)) = [utf16 "n1"].
Proof.
  intros doc. eexists. eexists. split; [vm_compute; reflexivity |].
  split_and!; reflexivity.
Qed.

(* ===================================================================== *)
(** ** Centring on the first match *)
(* ===================================================================== *)

(** The effect looks for the first match in [data.nodes] and centres on
    its [x] and [y]: without both, nothing is started. *)
Lemma autoCenter_needs_position {rt : Runtime} (text : jsstring)
      (data : GraphData) (refs : bool) (dims : Q * Q) :
  (forall n, In n (nodes data) -> truthyOpt (x n) && truthyOpt (y n) = false) ->
  autoCenter text data refs dims = None.
Proof.
  intros Hno. unfold autoCenter.
  destruct (isSearchActive text && refs); [| reflexivity].
  unfold firstMatch.
  destruct (find (labelMatches text) (nodes data)) as [m |] eqn:E;
    [| reflexivity].
  apply find_some in E as [Hin _]. specialize (Hno m Hin).
  destruct (x m) as [[| px] |]; try reflexivity.
  destruct (y m) as [[| py] |]; try reflexivity.
  simpl in Hno. unfold truthyNumber. now rewrite Hno.
Qed.

Lemma pass_needs_position {rt : Runtime} text sel data nd ld td refs dims :
  (forall n, In n (nodes data) -> truthyOpt (x n) && truthyOpt (y n) = false) ->
  zoomTo (highlightPass text sel data nd ld td refs dims) = None.
Proof.
  intros Hno. unfold highlightPass.
  destruct (negb (isSearchActive text) && negb (isSelectionActive sel));
    [reflexivity |].
  simpl. now rewrite autoCenter_needs_position.
Qed.

Lemma highlightEffect_no_centre {rt : Runtime} (w : World) :
  (forall n, In n (nodes (dataProp w)) ->
             truthyOpt (x n) && truthyOpt (y n) = false) ->
  zoomLog (svg (view (highlightEffect w))) = zoomLog (svg (view w))
  /\ zoomState (svg (view (highlightEffect w))) = zoomState (svg (view w))
  /\ groupTransform (svg (view (highlightEffect w)))
     = groupTransform (svg (view w)).
Proof.
  intros Hno. unfold highlightEffect, thePass.
  destruct (boundNodes w) as [nd |]; [| now split_and!].
  destruct (boundLines w) as [ld |]; [| now split_and!].
  destruct (boundTexts w) as [td |]; [| now split_and!].
  unfold applyPass. simpl.
  rewrite (pass_needs_position _ _ _ _ _ _ _ _ Hno). now split_and!.
Qed.

(** C3, on the code. The effect reads the position of the first match
    from [data.nodes], and the simulation writes positions to its copies:
    whenever the nodes of the [data] property have no [x] (as in every graph
    of the service and in the sample graph) the pass starts no transition
    of the viewport, match or no match. In the sample graph [机器学习]
    matches the node [ml]; after a tick its copy has a position, and the
    search leaves the viewport where it was, with no transition started. *)
Theorem C3_first_match_is_not_centred {rt : Runtime} {ly : Layout} :
  (forall text sel data nd ld td refs dims,
      (forall n, In n (nodes data) -> x n = None) ->
      zoomTo (highlightPass text sel data nd ld td refs dims) = None)
  /\ (exists ml, nodes INITIAL_DATA !! 1 = Some ml
                 /\ labelMatches (utf16 "机器学习") ml = true)
  /\ (forall (f : Forces),
         match run started [Tick 0 f; Search (utf16 "机器学习")] with
         | Done w =>
           dataProp w = INITIAL_DATA
           /\ zoomLog (svg (view w)) = []
           /\ zoomState (svg (view w)) = zoomIdentity
           /\ groupTransform (svg (view w)) = None
           /\ exists copy, readNode (heap w) 10 = Some copy
                           /\ id copy = utf16 "ml"
                           /\ x copy <> None
         | _ => False
         end).
Proof.
  split_and!.
  - intros text sel data nd ld td refs dims Hno.
    apply pass_needs_position. intros n Hin. now rewrite (Hno n Hin).
  - eexists. split; [reflexivity |]. apply includes_self.
  - intros f.
    set (w0 := setFilterText (utf16 "机器学习") (tick 0 f started)).
    assert (Hrun : run started [Tick 0 f; Search (utf16 "机器学习")]
                   = Done (highlightEffect w0)).
    { cbn [run step]. unfold search, commit.
      replace (filterText (view (tick 0 f started))) with (@nil N)
        by (vm_compute; reflexivity).
      reflexivity. }
    rewrite Hrun.
    assert (Hdata : dataProp w0 = INITIAL_DATA) by (vm_compute; reflexivity).
    destruct (highlightEffect_frame w0) as [Hh [Ha _]].
    destruct (highlightEffect_no_centre w0) as [Hlog [Hz Hg]].
    { rewrite Hdata. intros n Hin. simpl in Hin.
      repeat (destruct Hin as [<- | Hin]; [reflexivity |]). destruct Hin. }
    unfold dataProp. rewrite Hh, Ha, Hlog, Hz, Hg. split_and!.
    + exact Hdata.
    + vm_compute. reflexivity.
    + vm_compute. reflexivity.
    + vm_compute. reflexivity.
    + eexists. split; [vm_compute; reflexivity |].
      split; [reflexivity | discriminate].
Qed.

(** The sample graph has no positions, so the search for [机器学习]
    starts no transition. *)
Lemma C3_witness :
  (forall n, In n (nodes INITIAL_DATA) -> x n = None)
  /\ zoomTo (highlightPass (rt := exampleRuntime None) (utf16 "机器学习") None
                           INITIAL_DATA (nodes INITIAL_DATA)
                           (links INITIAL_DATA) (links INITIAL_DATA)
                           true (800%Q, 600%Q)) = None.
Proof.
  assert (Hno : forall n, In n (nodes INITIAL_DATA) -> x n = None).
  { intros n Hin. simpl in Hin.
    repeat (destruct Hin as [<- | Hin]; [reflexivity |]). destruct Hin. }
  split; [exact Hno |].
  exact (proj1 (C3_first_match_is_not_centred (rt := exampleRuntime None)
                                              (ly := exampleLayout))
               _ _ _ _ _ _ _ _ Hno).
Defined.

(** With positions in the document itself the effect does centre: on the
    coordinates of the document, scaled by 1.5, in 750ms. *)
Example centring_on_document_positions :
  let n := mkNode (utf16 "a") (utf16 "Alpha") (utf16 "g") None None None
                  (Some (Num 30)) (Some (Num 40)) None None Unset Unset in
  zoomTo (highlightPass (rt := exampleRuntime None) (utf16 "alp") None
                        (mkData [n] []) [n] [] [] true (800%Q, 600%Q))
  = Some (mkZoomTransition 750 (centerOn (800%Q, 600%Q) 30 40))
  /\ (k (centerOn (800%Q, 600%Q) 30 40) == 3 # 2)%Q
  /\ (fst (applyTo (centerOn (800%Q, 600%Q) 30 40) (30%Q, 40%Q)) == 400)%Q
  /\ (snd (applyTo (centerOn (800%Q, 600%Q) 30 40) (30%Q, 40%Q)) == 300)%Q.
Proof. intros n. split_and!; reflexivity. Qed.

(* ===================================================================== *)
(** ** The scale of the viewport *)
(* ===================================================================== *)

Lemma clamp_in_extent (r : request) :
  (1 # 10 <= clamp scaleExtent r)%Q /\ (clamp scaleExtent r <= 4)%Q.
Proof.
  unfold clamp, scaleExtent. cbn [fst snd].
  set (m := match r with
            | Finite q => if Qle_bool 4 q then 4%Q else q
            | Infinite => 4%Q
            end).
  assert (Hm : (m <= 4)%Q).
  { subst m. destruct r as [q |]; [| apply Qle_refl].
    destruct (Qle_bool 4 q) eqn:E; [apply Qle_refl |].
    apply Qlt_le_weak, Qnot_le_lt. intros Hle.
    apply Qle_bool_iff in Hle. congruence. }
  destruct (Qle_bool m (1 # 10)) eqn:E.
  - split; [apply Qle_refl | discriminate].
  - split; [| exact Hm].
    apply Qlt_le_weak, Qnot_le_lt. intros Hle.
    apply Qle_bool_iff in Hle. congruence.
Qed.

Lemma gesture_in_extent (t : Transform) (g : Gesture) :
  inExtent t -> inExtent (gesture scaleExtent t g).
Proof.
  intros Ht. destruct g as [factor p | dx dy]; simpl.
  - apply clamp_in_extent.
  - exact Ht.
Qed.

Lemma centerOn_in_extent (dims : Q * Q) (px py : Q) :
  inExtent (centerOn dims px py).
Proof. split; simpl; discriminate. Qed.

Lemma pass_goal_in_extent {rt : Runtime} text sel data nd ld td refs dims t :
  zoomTo (highlightPass text sel data nd ld td refs dims) = Some t ->
  inExtent (goal t).
Proof.
  unfold highlightPass.
  destruct (negb (isSearchActive text) && negb (isSelectionActive sel));
    [discriminate |].
  simpl. unfold autoCenter.
  destruct (isSearchActive text && refs); [| discriminate].
  destruct (firstMatch text data) as [m |]; [| discriminate].
  destruct (x m) as [[| px] |]; try discriminate.
  destruct (y m) as [[| py] |]; try discriminate.
  destruct (truthyNumber (Num px) && truthyNumber (Num py)); [| discriminate].
  simpl. intros E. injection E as <-. apply centerOn_in_extent.
Qed.

Lemma zoomOk_part (v v1 : ViewState) :
  zoomPart v1 = zoomPart v -> zoomOk v -> zoomOk v1.
Proof.
  unfold zoomPart, zoomOk. intros E. injection E as -> -> ->. trivial.
Qed.

Lemma highlightEffect_zoomOk {rt : Runtime} (w : World) :
  zoomOk (view w) -> zoomOk (view (highlightEffect w)).
Proof.
  intros [Hz [Hg He]]. unfold highlightEffect, thePass.
  destruct (boundNodes w) as [nd |]; [| now split_and!].
  destruct (boundLines w) as [ld |]; [| now split_and!].
  destruct (boundTexts w) as [td |]; [| now split_and!].
  unfold zoomOk, applyPass. simpl.
  destruct (zoomTo _) as [t |] eqn:E; simpl; [| now split_and!].
  apply pass_goal_in_extent in E. split_and!; [exact E | | exact He].
  intros t1 E1. now injection E1 as <-.
Qed.

Lemma simulationEffect_zoomOk {ly : Layout} (w w1 : World) :
  simulationEffect w = Done w1 -> zoomOk (view w) -> zoomOk (view w1).
Proof.
  unfold simulationEffect. intros E [Hz [Hg He]].
  assert (Hc : zoomPart (runCleanup (view w)) = zoomPart (view w)).
  { unfold runCleanup. now destruct (cleanup (view w)). }
  destruct (nodeRefs (graphData (app w))) as [| r rest].
  - injection E as <-. simpl. eapply zoomOk_part; [exact Hc |]. now split_and!.
  - destruct (copyAll (heap w) (r :: rest)) as [h1 ns].
    destruct (copyAll h1 (linkRefs (graphData (app w)))) as [h2 ls].
    destruct (initializeLinks ns 0 ls (initializeNodes 0 ns h2)) as [h4 |];
      [| discriminate].
    injection E as <-. unfold zoomOk. simpl.
    rewrite runCleanup_svg. split_and!; [exact Hz | discriminate |].
    intros extent E. now injection E as <-.
Qed.

Lemma commit_zoomOk {rt : Runtime} {ly : Layout} (a b : bool) (w w1 : World) :
  commit a b w = Done w1 -> zoomOk (view w) -> zoomOk (view w1).
Proof.
  unfold commit. intros E Hok. destruct a.
  - destruct (simulationEffect w) as [w2 | |] eqn:Es; try discriminate.
    injection E as <-. apply highlightEffect_zoomOk.
    eapply simulationEffect_zoomOk; eassumption.
  - destruct b; injection E as <-; [now apply highlightEffect_zoomOk | exact Hok].
Qed.

Lemma zoomed_zoomOk (g : Gesture) (w : World) :
  zoomOk (view w) -> zoomOk (view (zoomed g w)).
Proof.
  intros Hok. pose proof Hok as [Hz [Hg He]]. unfold zoomed.
  destruct (zoomRef (view w)) as [extent |] eqn:E; [| exact Hok].
  rewrite (He extent eq_refl). unfold zoomOk. simpl. rewrite E.
  split_and!; [now apply gesture_in_extent | | exact He].
  intros t E1. injection E1 as <-. now apply gesture_in_extent.
Qed.

Lemma step_zoomOk {rt : Runtime} {ly : Layout} (w : World) (e : Event)
      (w1 : World) :
  step w e = Done w1 -> zoomOk (view w) -> zoomOk (view w1).
Proof.
  intros E Hok. destruct e; simpl in E.
  - destruct (loading (status (app w))); [now injection E as <- |].
    unfold handleGenerate in E.
    destruct (nonEmpty (trim (query (app w)))); [| now injection E as <-].
    eapply commit_zoomOk; [exact E | exact Hok].
  - injection E as <-. unfold serviceSettled.
    destruct (inflight w !! i) as [[| d] |]; try exact Hok.
    destruct (generateKnowledgeGraph r); exact Hok.
  - unfold graphBuilt in E.
    destruct (inflight w !! i) as [[| d] |]; try (now injection E as <-).
    destruct (asGraphData d) as [g |]; [| discriminate].
    eapply commit_zoomOk; [exact E |].
    destruct (setGraphData_stores g w) as [_ [Hv _]].
    simpl. now rewrite Hv.
  - unfold handleFileUpload in E.
    destruct file as [f |]; [| now injection E as <-].
    destruct (sizeLimit <? size f)%N; [now injection E as <- |].
    destruct (endsWith (toLowerCase (name f)) (utf16 ".json"));
      [| now injection E as <-].
    apply importJson_cases in E.
    destruct E as [[msg [-> _]] | [doc [g [_ [_ [_ Hc]]]]]]; [exact Hok |].
    eapply commit_zoomOk; [exact Hc |].
    destruct (setGraphData_stores g w) as [_ [Hv _]].
    simpl. now rewrite Hv.
  - now injection E as <-.
  - unfold clickNode in E.
    destruct (nodeElems (svg (view w)) !! i); [| now injection E as <-].
    eapply commit_zoomOk; [exact E | exact Hok].
  - unfold followLink in E.
    destruct (relatedLinks w !! i) as [l |]; [| now injection E as <-].
    destruct (otherNode w l); [| now injection E as <-].
    eapply commit_zoomOk; [exact E | exact Hok].
  - eapply commit_zoomOk; [exact E | exact Hok].
  - eapply commit_zoomOk; [exact E | exact Hok].
  - eapply commit_zoomOk; [exact E | exact Hok].
  - injection E as <-. now apply zoomed_zoomOk.
  - injection E as <-. unfold dragstarted.
    destruct (dragTarget w i) as [[s d] |]; [| exact Hok].
    now destruct active.
  - injection E as <-. unfold dragged.
    destruct (dragTarget w i) as [[s d] |]; exact Hok.
  - injection E as <-. unfold dragended.
    destruct (dragTarget w i) as [[s d] |]; [| exact Hok].
    now destruct active.
  - injection E as <-. unfold tick.
    destruct (sims (view w) !! s) as [sim |]; [| exact Hok].
    destruct (running sim); [| exact Hok].
    eapply zoomOk_part; [| exact Hok]. unfold zoomPart. simpl.
    now destruct (bool_decide _).
Qed.

Lemma run_zoomOk {rt : Runtime} {ly : Layout} (es : list Event) :
  forall (w w1 : World),
    run w es = Done w1 -> zoomOk (view w) -> zoomOk (view w1).
Proof.
  induction es as [| e es IH]; intros w w1; simpl.
  - intros E. now injection E as <-.
  - destruct (step w e) as [w2 | |] eqn:Es; try discriminate.
    intros E Hok. eapply IH; [exact E |].
    eapply step_zoomOk; eassumption.
Qed.

Lemma started_zoomOk {rt : Runtime} {ly : Layout} : zoomOk (view started).
Proof.
  unfold zoomOk.
  replace (zoomState (svg (view started))) with zoomIdentity
    by (vm_compute; reflexivity).
  replace (groupTransform (svg (view started))) with (@None Transform)
    by (vm_compute; reflexivity).
  replace (zoomRef (view started)) with (Some scaleExtent)
    by (vm_compute; reflexivity).
  split_and!; [split; discriminate | discriminate |].
  intros extent E. now injection E as <-.
Qed.

Lemma run_zooms (gs : list Gesture) :
  forall {rt : Runtime} {ly : Layout} (w : World),
    exists w1, run w (map Zoom gs) = Done w1.
Proof.
  induction gs as [| g gs IH]; intros rt ly w; simpl; [eauto |]. apply IH.
Qed.

(** C8. Whatever the events so far, the scale of the transform that the
    zoom behaviour keeps, and of the one displayed, is between 0.1 and 4;
    and from any such state any list of zoom gestures, whatever the factors
    they ask for (infinite ones included), runs to a state where it still
    is. *)
Theorem C8_zoom_scale_stays_in_extent {rt : Runtime} {ly : Layout} :
  forall (es : list Event) (w : World),
    play es = Done w ->
    inExtent (zoomState (svg (view w)))
    /\ (forall t, groupTransform (svg (view w)) = Some t -> inExtent t)
    /\ (forall gs : list Gesture,
           exists w1, run w (map Zoom gs) = Done w1
                      /\ inExtent (zoomState (svg (view w1)))
                      /\ (forall t, groupTransform (svg (view w1)) = Some t ->
                                    inExtent t)).
Proof.
  intros es w Hplay.
  assert (Hok : zoomOk (view w)).
  { eapply run_zoomOk; [exact Hplay | apply started_zoomOk]. }
  pose proof Hok as [Hz0 [Hg0 _]].
  split_and!; [exact Hz0 | exact Hg0 |].
  intros gs. destruct (run_zooms gs w) as [w1 Hrun]. exists w1.
  split; [exact Hrun |].
  destruct (run_zoomOk _ _ _ Hrun Hok) as [Hz [Hg _]]. now split.
Qed.

(** A wheel event asking for an infinite factor stops at 4; one asking
    for the factor 0 stops at 0.1. *)
Example zoom_gestures_are_clamped :
  k (gesture scaleExtent zoomIdentity (ZoomBy Infinite (0, 0)%Q)) = 4%Q
  /\ k (gesture scaleExtent zoomIdentity (ZoomBy (Finite 0) (10, 10)%Q))
     = (1 # 10)%Q
  /\ k (gesture scaleExtent zoomIdentity (ZoomBy (Finite 2) (10, 10)%Q))
     = (1 * 2)%Q.
Proof. split_and!; reflexivity. Qed.

(** Two extreme wheel events and a pan on the page as it starts. *)
Lemma C8_witness :
  let es := [Zoom (ZoomBy Infinite (400, 300)%Q); Zoom (PanBy 50 (-20));
             Zoom (ZoomBy (Finite 0) (0, 0)%Q)] in
  exists w,
    play (rt := exampleRuntime None) (ly := exampleLayout) es = Done w
    /\ inExtent (zoomState (svg (view w)))
    /\ k (zoomState (svg (view w))) = (1 # 10)%Q.
Proof.
  intros es.
  destruct (play (rt := exampleRuntime None) (ly := exampleLayout) es)
    as [w | |] eqn:E.
  - exists w. split; [reflexivity |].
    split; [exact (proj1 (C8_zoom_scale_stays_in_extent
                            (rt := exampleRuntime None) (ly := exampleLayout)
                            es w E)) |].
    vm_compute in E. injection E as <-. reflexivity.
  - vm_compute in E. discriminate E.
  - vm_compute in E. discriminate E.
Defined.

(* ===================================================================== *)
(** ** Export and the objects of the graph *)
(* ===================================================================== *)

(** C9, on the code. [{ ...d }] copies a link but not the node object at
    its end: a graph imported with a node object as the [source] of a link
    shares that object with the simulation, whose link force adds to its
    [vx] and [vy] at the first tick. The graph held in the state, and so
    the text that [exportJSON] writes, is then no longer the graph that was
    imported. *)
Theorem C9_simulation_writes_into_the_graph :
  forall (f : Forces),
    let a := JObj [(utf16 "id", JStr (utf16 "a"));
                   (utf16 "label", JStr (utf16 "A"));
                   (utf16 "group", JStr (utf16 "g"))] in
    let b := JObj [(utf16 "id", JStr (utf16 "b"));
                   (utf16 "label", JStr (utf16 "B"));
                   (utf16 "group", JStr (utf16 "g"))] in
    let l := JObj [(utf16 "source", a); (utf16 "target", JStr (utf16 "b"));
                   (utf16 "relation", JStr (utf16 "r"))] in
    let doc := JObj [(utf16 "nodes", JArr [a; b]); (utf16 "links", JArr [l])] in
    let na := plainNode (utf16 "a") (utf16 "A") (utf16 "g") in
    let nb := plainNode (utf16 "b") (utf16 "B") (utf16 "g") in
    let g := mkData [na; nb] [mkLink (ByNode na) (ById (utf16 "b")) (utf16 "r") None] in
    let file := mkFile (utf16 "graph.json") 200 (utf16 "{ }") in
    validate doc = Normal Valid
    /\ asGraphData doc = Some g
    /\ match play (rt := exampleRuntime (Some doc)) (ly := exampleLayout)
                  [Upload (Some file)] with
       | Done w1 =>
         dataProp w1 = g
         /\ match step (rt := exampleRuntime (Some doc)) (ly := exampleLayout)
                       w1 (Tick 1 f) with
            | Done w2 =>
              exportJSON (rt := exampleRuntime (Some doc)) w2
              = JSON_stringify (Runtime := exampleRuntime (Some doc))
                               (dataProp w2) 2
              /\ dataProp w2
                 = mkData [na; nb]
                          [mkLink (ByNode (withMotion na None None (Some NaN)
                                                      (Some NaN)))
                                  (ById (utf16 "b")) (utf16 "r") None]
              /\ dataProp w2 <> g
            | _ => False
            end
       | _ => False
       end.
Proof.
  intros f a b l doc na nb g file.
  split; [reflexivity |]. split; [reflexivity |].
  vm_compute. split; [reflexivity |]. split; [reflexivity |].
  split; [reflexivity | discriminate].
Qed.

(** With the endpoints given by id, as the service and the sample graph
    give them, the same tick leaves the graph as it was. *)
Example tick_leaves_sample_graph (f : Forces) :
  dataProp (tick 0 f (started (rt := exampleRuntime None) (ly := exampleLayout)))
  = INITIAL_DATA.
Proof. vm_compute. reflexivity. Qed.

(* ===================================================================== *)
(** ** Graphs whose links give their ends by id are never written to *)
(* ===================================================================== *)

Lemma nudged_refl (base top : nat) (h : list obj) : nudged base top h h.
Proof. now split_and!. Qed.

Lemma nudged_trans (base top : nat) (h h1 h2 : list obj) :
  nudged base top h h1 -> nudged base top h1 h2 -> nudged base top h h2.
Proof.
  intros [L1 [R1 K1]] [L2 [R2 K2]]. split_and!.
  - congruence.
  - intros l Hl. now rewrite R2, R1.
  - intros l. now rewrite K2, K1.
Qed.

Lemma readLinkObj_updateNode f (l l1 : loc) (h : list obj) :
  readLinkObj (updateNode f l h) l1 = readLinkObj h l1.
Proof.
  unfold updateNode, readLinkObj.
  destruct (h !! l) as [[n | lk] |] eqn:E; try reflexivity.
  destruct (decide (l = l1)) as [<- | Hne].
  - rewrite list_lookup_insert_eq by (eapply lookup_lt_Some; exact E).
    now rewrite E.
  - now rewrite list_lookup_insert_ne.
Qed.

Lemma updateNode_nudged (base top : nat) f (l : loc) (h : list obj) :
  l < base \/ top <= l -> nudged base top h (updateNode f l h).
Proof.
  intros Hout. split_and!.
  - apply length_updateNode.
  - intros l1 Hl1. unfold updateNode.
    destruct (h !! l) as [[n | lk] |]; try reflexivity.
    apply list_lookup_insert_ne. lia.
  - intros l1. apply readLinkObj_updateNode.
Qed.

Lemma moveNodes_nudged (base top : nat) (f : Forces) (ls : list loc) :
  forall (i : nat) (h : list obj),
    Forall (fun l => l < base \/ top <= l) ls ->
    nudged base top h (moveNodes f i ls h).
Proof.
  induction ls as [| l rest IH]; intros i h Hall; simpl.
  - apply nudged_refl.
  - inversion Hall; subst.
    eapply nudged_trans; [apply updateNode_nudged; eassumption |].
    now apply IH.
Qed.

Lemma linkForce_nudged (base top : nat) (f : Forces) (ls : list loc) :
  forall (i : nat) (h : list obj),
    Forall (fun l => forall lk, readLinkObj h l = Some lk ->
                                endAway base top (length h) (source lk)
                                /\ endAway base top (length h) (target lk)) ls ->
    nudged base top h (linkForce f i ls h).
Proof.
  induction ls as [| l rest IH]; intros i h Hall; simpl.
  - apply nudged_refl.
  - inversion Hall as [| l0 rest0 Hl Hrest]; subst.
    set (h1 := match readLinkObj h l with
               | Some lk =>
                 match source lk, target lk with
                 | ByNode s, ByNode t =>
                   updateNode (accelerate (onSource (pulls f i))) s
                     (updateNode (accelerate (onTarget (pulls f i))) t h)
                 | _, _ => h
                 end
               | None => h
               end).
    assert (Hn : nudged base top h h1).
    { subst h1. destruct (readLinkObj h l) as [lk |]; [| apply nudged_refl].
      destruct (Hl lk eq_refl) as [Hs Ht].
      destruct (source lk) as [? | s]; [apply nudged_refl |].
      destruct (target lk) as [? | t]; [apply nudged_refl |].
      simpl in Hs, Ht. destruct Hs as [_ Hs]. destruct Ht as [_ Ht].
      eapply nudged_trans; apply updateNode_nudged; assumption. }
    eapply nudged_trans; [exact Hn |]. apply IH.
    destruct Hn as [Hlen [_ Hk]].
    eapply Forall_impl; [exact Hrest |]. simpl. intros l1 H1 lk E.
    rewrite Hk in E. rewrite Hlen. now apply H1.
Qed.

Lemma readData_nudged (base top : nat) (h h1 : list obj) (d : DataRef) :
  nudged base top h h1 ->
  Forall (fun l => base <= l < top) (nodeRefs d) ->
  Forall (fun l => base <= l < top) (linkRefs d) ->
  (forall l lk, base <= l < top -> readLinkObj h l = Some lk -> idEnds lk) ->
  readData h1 d = readData h d.
Proof.
  intros [_ [Hr Hk]] Hn Hl Hid. unfold readData. f_equal; apply omap_ext_Forall.
  - eapply Forall_impl; [exact Hn |]. simpl. intros l Hin.
    unfold readNode. now rewrite Hr.
  - eapply Forall_impl; [exact Hl |]. simpl. intros l Hin.
    unfold readLink. rewrite Hk.
    destruct (readLinkObj h l) as [lk |] eqn:E; [| reflexivity].
    destruct (Hid l lk Hin E) as [Hs Ht].
    destruct (source lk); [| destruct Hs].
    destruct (target lk); [| destruct Ht]. reflexivity.
Qed.

Lemma away_le (base top n m : nat) (l : loc) :
  n <= m -> away base top n l -> away base top m l.
Proof. unfold away. lia. Qed.

Lemma endAway_le (base top n m : nat) (e : Endpoint loc) :
  n <= m -> endAway base top n e -> endAway base top m e.
Proof. destruct e; simpl; [trivial | apply away_le]. Qed.

(** A simulation stays away when the store changes but its links do not. *)
Lemma simAway_stable (base top : nat) (h h1 : list obj) (sim : Simulation) :
  length h <= length h1 ->
  (forall l, l < length h -> readLinkObj h1 l = readLinkObj h l) ->
  simAway base top h sim -> simAway base top h1 sim.
Proof.
  intros Hlen Hk [Hn Hl]. split.
  - eapply Forall_impl; [exact Hn |]. simpl. intros l. now apply away_le.
  - eapply Forall_impl; [exact Hl |]. simpl. intros l [Ha He]. split.
    + now apply (away_le _ _ (length h)).
    + intros lk E. rewrite Hk in E by apply Ha.
      destruct (He lk E) as [Hs Ht].
      split; eapply endAway_le; eassumption.
Qed.

Lemma apartAt_nudged (base top : nat) (h h1 : list obj) (d : DataRef)
      (ss : list Simulation) (datums : list loc) :
  nudged base top h h1 ->
  apartAt base top h d ss datums -> apartAt base top h1 d ss datums.
Proof.
  intros [Hlen [Hr Hk]] [Htop [Hn [Hl [Hid [Hs Hd]]]]].
  split_and!; try assumption.
  - lia.
  - intros l lk Hin E. rewrite Hk in E. now apply (Hid l).
  - eapply Forall_impl; [exact Hs |]. simpl. intros sim.
    apply simAway_stable; [lia | intros; apply Hk].
  - now rewrite Hlen.
Qed.

Lemma copyAll_objects (refs : list loc) :
  forall (h h1 : list obj) (cs : list loc) (c : loc) (o : obj),
    copyAll h refs = (h1, cs) ->
    length h <= c -> h1 !! c = Some o ->
    exists l, In l refs /\ h1 !! l = Some o.
Proof.
  induction refs as [| r rest IH]; intros h h1 cs c o; simpl.
  - intros E Hc Ho. injection E as <- <-.
    apply lookup_lt_Some in Ho. lia.
  - destruct (h !! r) as [o0 |] eqn:Er.
    + destruct (copyAll (h ++ [o0]) rest) as [h2 cs2] eqn:E2.
      intros E Hc Ho. injection E as <- <-.
      destruct (copyAll_fresh _ _ _ _ E2) as [objs [Hh2 _]].
      destruct (decide (c = length h)) as [-> | Hne].
      * exists r. split; [now left |].
        rewrite Hh2, <- app_assoc, <- cons_middle in Ho |- *.
        rewrite list_lookup_middle in Ho by reflexivity. injection Ho as <-.
        now apply lookup_app_l_Some.
      * destruct (IH _ _ _ c o E2) as [l [Hin Hl]];
          [rewrite length_app; simpl; lia | exact Ho |].
        exists l. split; [now right | exact Hl].
    + intros E Hc Ho. destruct (IH _ _ _ c o E Hc Ho) as [l [Hin Hl]].
      exists l. split; [now right | exact Hl].
Qed.

Lemma initializeNodes_links {ly : Layout} (ls : list loc) :
  forall (i : nat) (h : list obj),
    length (initializeNodes i ls h) = length h
    /\ forall l, readLinkObj (initializeNodes i ls h) l = readLinkObj h l.
Proof.
  induction ls as [| l0 rest IH]; intros i h; simpl; [now split |].
  destruct (IH (S i) (updateNode (initializeNode i) l0 h)) as [Hlen Hk].
  split.
  - now rewrite Hlen, length_updateNode.
  - intros l. now rewrite Hk, readLinkObj_updateNode.
Qed.

Lemma nodeById_in (h : list obj) (ns : list loc) (key : jsstring) (n : loc) :
  nodeById h ns key = Some n -> In n ns.
Proof.
  unfold nodeById. intros E. apply find_some in E as [Hin _].
  now apply in_rev.
Qed.

Lemma resolveEndpoint_among (h : list obj) (ns : list loc)
      (e e1 : Endpoint loc) :
  endAmong ns e -> resolveEndpoint h ns e = Some e1 -> endAmong ns e1.
Proof.
  destruct e as [s | l]; simpl.
  - intros _. destruct (nodeById h ns s) as [n |] eqn:E; [| discriminate].
    simpl. intros E1. injection E1 as <-. simpl. eapply nodeById_in, E.
  - intros Hin E1. now injection E1 as <-.
Qed.

Lemma initializeLinks_ends (ns all : list loc) (ls : list loc) :
  forall (i : nat) (h h1 : list obj),
    (forall l lk, In l all -> readLinkObj h l = Some lk ->
                  endAmong ns (source lk) /\ endAmong ns (target lk)) ->
    initializeLinks ns i ls h = Some h1 ->
    length h1 = length h
    /\ forall l lk, In l all -> readLinkObj h1 l = Some lk ->
                    endAmong ns (source lk) /\ endAmong ns (target lk).
Proof.
  induction ls as [| l0 rest IH]; intros i h h1 Hends; simpl.
  - intros E. injection E as <-. now split.
  - destruct (readLinkObj h l0) as [lk0 |] eqn:E0; [| now apply IH].
    destruct (resolveEndpoint h ns (source lk0)) as [s |] eqn:Es;
      [| discriminate].
    destruct (resolveEndpoint h ns (target lk0)) as [t |] eqn:Et;
      [| discriminate].
    intros E. apply IH in E.
    + now rewrite length_insert in E.
    + intros l lk Hin. unfold readLinkObj.
      destruct (decide (l0 = l)) as [<- | Hne].
      * assert (Hlt : l0 < length h).
        { unfold readLinkObj in E0.
          destruct (h !! l0) eqn:E1; [| discriminate].
          eapply lookup_lt_Some, E1. }
        rewrite list_lookup_insert_eq by exact Hlt.
        intros E1. injection E1 as <-. simpl.
        destruct (Hends l0 lk0 Hin E0) as [Hs Ht].
        split; [exact (resolveEndpoint_among _ _ _ _ Hs Es)
               | exact (resolveEndpoint_among _ _ _ _ Ht Et)].
      * rewrite list_lookup_insert_ne by exact Hne.
        apply (Hends l lk Hin).
Qed.

Lemma simAway_alter (base top : nat) (h : list obj) f (s : nat)
      (ss : list Simulation) :
  (forall sim, simNodes (f sim) = simNodes sim
               /\ simLinks (f sim) = simLinks sim) ->
  Forall (simAway base top h) ss ->
  Forall (simAway base top h) (alter f s ss).
Proof.
  intros Hf Hall. apply Forall_alter; [exact Hall |].
  intros sim _ [Hn Hl]. destruct (Hf sim) as [En El].
  unfold simAway. now rewrite En, El.
Qed.

Lemma runCleanup_away (base top : nat) (h : list obj) (v : ViewState) :
  Forall (simAway base top h) (sims v) ->
  Forall (simAway base top h) (sims (runCleanup v)).
Proof.
  intros Hall. unfold runCleanup. destruct (cleanup v) as [s |]; [| exact Hall].
  simpl. apply simAway_alter; [now split | exact Hall].
Qed.

Lemma seq_away (base top n a k : nat) :
  top <= a -> a + k <= n -> Forall (away base top n) (seq a k).
Proof.
  intros Ha Hn. apply Forall_forall. intros l Hl.
  apply list_elem_of_In, in_seq in Hl. unfold away. lia.
Qed.

(** A run of the simulation effect keeps the graph apart: the objects of
    the new simulation are new, and the ends of its links are among its
    own nodes. *)
Lemma simulationEffect_apart {ly : Layout} (base top : nat) (w w1 : World) :
  apartAt base top (heap w) (graphData (app w)) (sims (view w))
          (map nodeDatum (nodeElems (svg (view w)))) ->
  simulationEffect w = Done w1 ->
  apartAt base top (heap w1) (graphData (app w1)) (sims (view w1))
          (map nodeDatum (nodeElems (svg (view w1)))).
Proof.
  intros [Htop [Hn [Hl [Hid [Hs Hd]]]]] E.
  destruct (simulationEffect_frame _ _ E) as [Hk [Ha _]].
  assert (Hlinks : forall l, l < length (heap w) ->
                             readLinkObj (heap w1) l = readLinkObj (heap w) l).
  { intros l Hlt. now apply (readLinkObj_keeps (length (heap w))). }
  assert (Hold : Forall (simAway base top (heap w1)) (sims (runCleanup (view w)))).
  { eapply Forall_impl; [apply runCleanup_away; exact Hs |]. simpl.
    intros sim. apply simAway_stable; [apply Hk | exact Hlinks]. }
  rewrite Ha. unfold simulationEffect in E.
  destruct (nodeRefs (graphData (app w))) as [| r rest] eqn:Hrefs.
  { injection E as <-. simpl in *. rewrite runCleanup_svg.
    unfold apartAt. rewrite Hrefs. split_and!; try assumption. }
  rewrite <- Hrefs in E.
  destruct (copyAll (heap w) (nodeRefs (graphData (app w)))) as [h1 ns] eqn:E1.
  destruct (copyAll h1 (linkRefs (graphData (app w)))) as [h2 ls] eqn:E2.
  destruct (initializeLinks ns 0 ls (initializeNodes 0 ns h2)) as [h4 |] eqn:E4;
    [| discriminate].
  injection E as <-. simpl in *.
  destruct (copyAll_fresh _ _ _ _ E1) as [o1 [-> ->]].
  destruct (copyAll_fresh _ _ _ _ E2) as [o2 [Hh2 ->]].
  destruct (initializeNodes_links (seq (length (heap w)) (length o1)) 0 h2)
    as [Hlen3 Hk3].
  assert (Hstart : forall l lk,
             In l (seq (length (heap w ++ o1)) (length o2)) ->
             readLinkObj (initializeNodes 0 (seq (length (heap w)) (length o1)) h2)
                         l = Some lk ->
             endAmong (seq (length (heap w)) (length o1)) (source lk)
             /\ endAmong (seq (length (heap w)) (length o1)) (target lk)).
  { intros l lk Hin Hread. rewrite Hk3 in Hread.
    apply in_seq in Hin. unfold readLinkObj in Hread.
    destruct (h2 !! l) as [[n | lk1] |] eqn:El; try discriminate.
    injection Hread as ->.
    destruct (copyAll_objects _ _ _ _ l (OLink lk) E2) as [l1 [Hin1 Hl1]];
      [lia | exact El |].
    assert (Hr1 : base <= l1 < top).
    { rewrite Forall_forall in Hl. apply Hl. now apply list_elem_of_In. }
    rewrite Hh2, <- app_assoc, lookup_app_l in Hl1 by lia.
    destruct (Hid l1 lk Hr1) as [Hsrc Htgt].
    { unfold readLinkObj. now rewrite Hl1. }
    destruct (source lk); [| destruct Hsrc].
    destruct (target lk); [| destruct Htgt]. now split. }
  destruct (initializeLinks_ends _ _ _ _ _ _ Hstart E4) as [Hlen4 Hends].
  assert (Hsize : length h4 = length (heap w) + length o1 + length o2).
  { rewrite Hlen4, Hlen3, Hh2, !length_app. lia. }
  assert (Hnodes : Forall (away base top (length h4))
                          (seq (length (heap w)) (length o1))).
  { apply seq_away; lia. }
  unfold apartAt. rewrite Hrefs. split_and!; try assumption.
  - lia.
  - intros l lk Hin Hread. rewrite Hlinks in Hread by lia. now apply (Hid l).
  - apply Forall_app. split; [exact Hold |]. constructor; [| constructor].
    split; simpl; [exact Hnodes |].
    apply Forall_forall. intros l Hin. apply list_elem_of_In in Hin.
    split.
    + apply in_seq in Hin. rewrite length_app in Hin. unfold away. lia.
    + intros lk Hread. destruct (Hends l lk Hin Hread) as [Hsrc Htgt].
      rewrite Forall_forall in Hnodes.
      split; [destruct (source lk) as [? | n] | destruct (target lk) as [? | n]];
        simpl in *; trivial; now apply Hnodes, list_elem_of_In.
  - rewrite map_map. simpl. now rewrite map_id.
Qed.

Lemma highlightEffect_apart {rt : Runtime} (base top : nat) (w : World) :
  apartAt base top (heap w) (graphData (app w)) (sims (view w))
          (map nodeDatum (nodeElems (svg (view w)))) ->
  apartAt base top (heap (highlightEffect w)) (graphData (app (highlightEffect w)))
          (sims (view (highlightEffect w)))
          (map nodeDatum (nodeElems (svg (view (highlightEffect w))))).
Proof.
  destruct (highlightEffect_frame w) as [Hh [Ha [_ [_ [Hs _]]]]].
  destruct (drawing_data _ _ (highlightEffect_drawing w)) as [_ Hd].
  now rewrite Hh, Ha, Hs, Hd.
Qed.

Lemma commit_apart {rt : Runtime} {ly : Layout} (base top : nat) (a b : bool)
      (w w1 : World) :
  apartAt base top (heap w) (graphData (app w)) (sims (view w))
          (map nodeDatum (nodeElems (svg (view w)))) ->
  commit a b w = Done w1 ->
  apartAt base top (heap w1) (graphData (app w1)) (sims (view w1))
          (map nodeDatum (nodeElems (svg (view w1)))).
Proof.
  intros Hap. unfold commit. destruct a.
  - destruct (simulationEffect w) as [w2 | |] eqn:E; try discriminate.
    intros E1. injection E1 as <-. apply highlightEffect_apart.
    eapply simulationEffect_apart; eassumption.
  - destruct b; intros E1; injection E1 as <-;
      [now apply highlightEffect_apart | exact Hap].
Qed.

Lemma apartAt_dataBelow (base top : nat) (h : list obj) (d : DataRef)
      (ss : list Simulation) (ds : list loc) :
  apartAt base top h d ss ds -> dataBelow (length h) h d.
Proof.
  intros [Htop [Hn [Hl [Hid _]]]]. split.
  - eapply Forall_impl; [exact Hn |]. simpl. intros; lia.
  - rewrite Forall_forall in Hl |- *. intros l Hin. specialize (Hl l Hin).
    split; [lia |]. intros lk E. destruct (Hid l lk Hl E) as [Hs Ht].
    destruct (source lk); [| destruct Hs].
    destruct (target lk); [| destruct Ht]. now split.
Qed.

(** The effects leave the graph of the [data] property as it is. *)
Lemma commit_dataProp {rt : Runtime} {ly : Layout} (base top : nat)
      (a b : bool) (w w1 : World) :
  apartAt base top (heap w) (graphData (app w)) (sims (view w))
          (map nodeDatum (nodeElems (svg (view w)))) ->
  commit a b w = Done w1 ->
  dataProp w1 = dataProp w.
Proof.
  intros Hap E. destruct (commit_frame _ _ _ _ E) as [Hk [Ha _]].
  unfold dataProp. rewrite Ha. apply (readData_keeps (length (heap w)));
    [exact Hk | eapply apartAt_dataBelow; exact Hap].
Qed.

Lemma tick_apart (base top : nat) (s : nat) (f : Forces) (w : World) :
  apartAt base top (heap w) (graphData (app w)) (sims (view w))
          (map nodeDatum (nodeElems (svg (view w)))) ->
  apartAt base top (heap (tick s f w)) (graphData (app (tick s f w)))
          (sims (view (tick s f w)))
          (map nodeDatum (nodeElems (svg (view (tick s f w)))))
  /\ dataProp (tick s f w) = dataProp w.
Proof.
  intros Hap. unfold tick.
  destruct (sims (view w) !! s) as [sim |] eqn:Es; [| now split].
  destruct (running sim); [| now split].
  pose proof Hap as [Htop [Hn [Hl [Hid [Hs Hd]]]]].
  destruct (Forall_lookup_1 _ _ _ _ Hs Es) as [Hnodes Hlinks].
  assert (Hnudge : nudged base top (heap w) (tickObjects f sim (heap w))).
  { unfold tickObjects. eapply nudged_trans.
    - apply linkForce_nudged. eapply Forall_impl; [exact Hlinks |].
      simpl. intros l [_ He]. exact He.
    - apply moveNodes_nudged. eapply Forall_impl; [exact Hnodes |].
      simpl. intros l [_ Ho]. exact Ho. }
  split.
  - simpl.
    assert (Hdatums : forall es h,
               map nodeDatum (map (placeNode h) es) = map nodeDatum es).
    { intros es h. rewrite map_map. apply map_ext. intros e.
      unfold placeNode. now destruct (readNode h (nodeDatum e)). }
    destruct (bool_decide (drawnBy (svg (view w)) = Some s)); simpl;
      rewrite ?Hdatums; now apply (apartAt_nudged base top (heap w)).
  - unfold dataProp. simpl. now apply (readData_nudged base top).
Qed.

Lemma dragTarget_away (base top : nat) (w : World) (i s : nat) (d : loc) :
  Forall (away base top (length (heap w)))
         (map nodeDatum (nodeElems (svg (view w)))) ->
  dragTarget w i = Some (s, d) -> d < base \/ top <= d.
Proof.
  intros Hd. unfold dragTarget.
  destruct (drawnBy (svg (view w))) as [s0 |]; [| discriminate].
  destruct (nodeElems (svg (view w)) !! i) as [e |] eqn:Ee; [| discriminate].
  intros E. injection E as <- <-.
  rewrite Forall_fmap in Hd. apply (Forall_lookup_1 _ _ _ _ Hd Ee).
Qed.

(** A write to the datum of a drawn node, with the simulations retargeted
    or not, keeps the graph apart and as it is. *)
Lemma drag_apart (base top : nat) (w : World) (d : loc) f
      (ss : list Simulation) :
  d < base \/ top <= d ->
  (ss = sims (view w)
   \/ exists g s, ss = alter g s (sims (view w))
                  /\ forall sim, simNodes (g sim) = simNodes sim
                                 /\ simLinks (g sim) = simLinks sim) ->
  apartAt base top (heap w) (graphData (app w)) (sims (view w))
          (map nodeDatum (nodeElems (svg (view w)))) ->
  apartAt base top (updateNode f d (heap w)) (graphData (app w)) ss
          (map nodeDatum (nodeElems (svg (view w))))
  /\ readData (updateNode f d (heap w)) (graphData (app w)) = dataProp w.
Proof.
  intros Hout Hss Hap.
  pose proof (updateNode_nudged base top f d (heap w) Hout) as Hnudge.
  pose proof Hap as [Htop [Hn [Hl [Hid [Hs Hd]]]]].
  split; [| now apply (readData_nudged base top)].
  apply (apartAt_nudged base top (heap w)); [exact Hnudge |].
  destruct Hss as [-> | [g [s [-> Hg]]]]; [exact Hap |].
  split_and!; try assumption. now apply simAway_alter.
Qed.

Lemma storeLinks_idEnds (ls : list GraphLink) :
  forall (h h1 : list obj) (locs : list loc),
    Forall idEnds ls ->
    storeLinks h ls = (h1, locs) ->
    exists ext, h1 = h ++ ext
                /\ Forall (fun o => forall lk, o = OLink lk -> idEnds lk) ext.
Proof.
  induction ls as [| l rest IH]; intros h h1 locs Hall; simpl.
  - intros E. injection E as <- <-. exists []. now rewrite app_nil_r.
  - inversion Hall as [| l0 rest0 [Hs Ht] Hrest]; subst.
    unfold storeLink.
    destruct (source l) as [s |]; [| destruct Hs].
    destruct (target l) as [t |]; [| destruct Ht]. simpl.
    destruct (storeLinks _ rest) as [h2 others] eqn:E2.
    intros E. injection E as <- <-.
    destruct (IH _ _ _ Hrest E2) as [ext [-> Hext]].
    exists (OLink (mkLink (ById s) (ById t) (relation l) (linkIndex l)) :: ext).
    split; [now rewrite <- app_assoc |].
    constructor; [| exact Hext].
    intros lk E. injection E as <-. now split.
Qed.

Lemma storeData_range (h h1 : list obj) (g : GraphData) (d : DataRef) :
  Forall idEnds (links g) ->
  storeData h g = (h1, d) ->
  (exists ext, h1 = h ++ ext)
  /\ Forall (fun l => length h <= l < length h1) (nodeRefs d)
  /\ Forall (fun l => length h <= l < length h1) (linkRefs d)
  /\ (forall l lk, length h <= l < length h1 ->
                   readLinkObj h1 l = Some lk -> idEnds lk).
Proof.
  intros Hids Hs.
  destruct (storeData_spec _ _ _ _ Hs) as [Hext [Hrefs [_ [_ [_ Hbelow]]]]].
  unfold storeData in Hs.
  destruct (storeLinks (h ++ map ONode (nodes g)) (links g)) as [h2 ls] eqn:E.
  injection Hs as <- <-. simpl in *.
  destruct (storeLinks_spec _ _ _ _ E) as [ext0 [Hh2 [_ [Hlb Hge]]]].
  destruct (storeLinks_idEnds _ _ _ _ Hids E) as [ext [-> Hobjs]].
  split_and!.
  - exists (map ONode (nodes g) ++ ext). now rewrite app_assoc.
  - apply Forall_forall. intros l Hl. apply list_elem_of_In, in_seq in Hl.
    rewrite !length_app, length_map. lia.
  - rewrite Forall_forall in Hlb, Hge |- *. intros l Hl.
    specialize (Hge l Hl). destruct (Hlb l Hl) as [Hlt _].
    rewrite length_app in Hge. lia.
  - intros l lk [Hlo Hhi]. unfold readLinkObj.
    destruct (((h ++ map ONode (nodes g)) ++ ext) !! l) as [[n | lk1] |] eqn:El;
      try discriminate.
    intros E1. injection E1 as ->.
    rewrite <- app_assoc, lookup_app_r in El by exact Hlo.
    apply list_elem_of_lookup_2, elem_of_app in El.
    destruct El as [El | El].
    + apply list_elem_of_fmap in El. destruct El as [n [En _]]. discriminate.
    + rewrite Forall_forall in Hobjs. now apply (Hobjs _ El).
Qed.

Lemma simAway_rebase (b0 t0 : nat) (h ext : list obj) (sim : Simulation) :
  simAway b0 t0 h sim ->
  simAway (length h) (length (h ++ ext)) (h ++ ext) sim.
Proof.
  intros [Hn Hl]. split.
  - eapply Forall_impl; [exact Hn |]. simpl. intros l [Hlt _].
    unfold away. rewrite length_app. lia.
  - eapply Forall_impl; [exact Hl |]. simpl. intros l [[Hlt _] He]. split.
    + unfold away. rewrite length_app. lia.
    + intros lk E. unfold readLinkObj in E.
      rewrite lookup_app_l in E by exact Hlt.
      destruct (He lk E) as [Hs Ht].
      split; [destruct (source lk) | destruct (target lk)]; simpl in *;
        trivial; unfold away in *; rewrite length_app; lia.
Qed.

(** Storing a graph whose links give their ends by id puts it apart from
    everything that was there. *)
Lemma stored_apart (h h1 : list obj) (g : GraphData) (d : DataRef)
      (b0 t0 : nat) (d0 : DataRef) (ss : list Simulation) (ds : list loc) :
  Forall idEnds (links g) ->
  storeData h g = (h1, d) ->
  apartAt b0 t0 h d0 ss ds ->
  apartAt (length h) (length h1) h1 d ss ds.
Proof.
  intros Hids Hs [_ [_ [_ [_ [Hsims Hds]]]]].
  destruct (storeData_range _ _ _ _ Hids Hs) as [[ext ->] [Hn [Hl Hid]]].
  split_and!; try assumption.
  - lia.
  - eapply Forall_impl; [exact Hsims |]. simpl. intros sim.
    apply simAway_rebase.
  - eapply Forall_impl; [exact Hds |]. simpl. intros l [Hlt _].
    unfold away. rewrite length_app. lia.
Qed.

(** Every event keeps the graph apart, provided that the graph it stores,
    if any, gives the ends of its links by id; and an event that stores no
    graph leaves the graph of the [data] property as it is. *)
Lemma step_apart {rt : Runtime} {ly : Layout} (w : World) (e : Event)
      (w1 : World) :
  apart w -> tame w e -> step w e = Done w1 ->
  apart w1 /\ (replacement w e = None -> dataProp w1 = dataProp w).
Proof.
  intros [base [top Hap]] Htame Hstep. unfold tame in Htame.
  destruct (replacement w e) as [g |] eqn:Hrep.
  { destruct (replacing_step w e g Hrep) as [w0 [Hs0 [Hst [Hv _]]]].
    rewrite Hs0 in Hstep. split; [| discriminate].
    exists (length (heap w)), (length (heap w0)).
    eapply commit_apart; [| exact Hstep]. rewrite Hv.
    exact (stored_apart _ _ _ _ _ _ _ _ _ Htame Hst Hap). }
  assert (Hboth :
            apartAt base top (heap w1) (graphData (app w1)) (sims (view w1))
                    (map nodeDatum (nodeElems (svg (view w1))))
            /\ dataProp w1 = dataProp w);
    [| destruct Hboth as [H1 H2]; split; [now exists base, top | now intros _]].
  assert (Hcommit : forall a b w0,
             apartAt base top (heap w0) (graphData (app w0)) (sims (view w0))
                     (map nodeDatum (nodeElems (svg (view w0)))) ->
             dataProp w0 = dataProp w ->
             commit a b w0 = Done w1 ->
             apartAt base top (heap w1) (graphData (app w1)) (sims (view w1))
                     (map nodeDatum (nodeElems (svg (view w1))))
             /\ dataProp w1 = dataProp w).
  { intros a b w0 Hap0 Hd0 Hc. split; [eapply commit_apart; eassumption |].
    rewrite <- Hd0. eapply commit_dataProp; eassumption. }
  destruct e; simpl in Hstep, Hrep.
  - destruct (loading (status (app w))); [injection Hstep as <-; now split |].
    unfold handleGenerate in Hstep.
    destruct (nonEmpty (trim (query (app w))));
      [| injection Hstep as <-; now split].
    eapply Hcommit; [| | exact Hstep]; [exact Hap | reflexivity].
  - injection Hstep as <-. unfold serviceSettled.
    destruct (inflight w !! i) as [[| d] |]; try (now split).
    destruct (generateKnowledgeGraph r); now split.
  - unfold graphBuilt in Hstep.
    destruct (inflight w !! i) as [[| d] |];
      try (injection Hstep as <-; now split).
    rewrite Hrep in Hstep. discriminate.
  - unfold handleFileUpload in Hstep.
    destruct file as [f |]; [| injection Hstep as <-; now split].
    destruct (sizeLimit <? size f)%N; [injection Hstep as <-; now split |].
    destruct (endsWith (toLowerCase (name f)) (utf16 ".json"));
      [| injection Hstep as <-; now split].
    apply importJson_cases in Hstep.
    destruct Hstep as [[msg [-> _]] | [doc [g [Hp [Hv [Hg _]]]]]];
      [now split |].
    rewrite Hp, Hv, Hg in Hrep. discriminate.
  - injection Hstep as <-. now split.
  - unfold clickNode in Hstep.
    destruct (nodeElems (svg (view w)) !! i);
      [| injection Hstep as <-; now split].
    eapply Hcommit; [| | exact Hstep]; [exact Hap | reflexivity].
  - unfold followLink in Hstep.
    destruct (relatedLinks w !! i) as [l |];
      [| injection Hstep as <-; now split].
    destruct (otherNode w l); [| injection Hstep as <-; now split].
    eapply Hcommit; [| | exact Hstep]; [exact Hap | reflexivity].
  - eapply Hcommit; [| | exact Hstep]; [exact Hap | reflexivity].
  - eapply Hcommit; [| | exact Hstep]; [exact Hap | reflexivity].
  - eapply Hcommit; [| | exact Hstep]; [exact Hap | reflexivity].
  - injection Hstep as <-. unfold zoomed.
    destruct (zoomRef (view w)); now split.
  - injection Hstep as <-. unfold dragstarted.
    destruct (dragTarget w i) as [[s d] |] eqn:Ed; [| now split].
    pose proof Hap as [_ [_ [_ [_ [_ Hds]]]]].
    pose proof (dragTarget_away _ _ _ _ _ _ Hds Ed) as Hout.
    destruct active; simpl; apply drag_apart; try assumption;
      [now left | right; eexists; eexists; split; [reflexivity | now split]].
  - injection Hstep as <-. unfold dragged.
    destruct (dragTarget w i) as [[s d] |] eqn:Ed; [| now split].
    pose proof Hap as [_ [_ [_ [_ [_ Hds]]]]].
    pose proof (dragTarget_away _ _ _ _ _ _ Hds Ed) as Hout.
    simpl. apply drag_apart; try assumption. now left.
  - injection Hstep as <-. unfold dragended.
    destruct (dragTarget w i) as [[s d] |] eqn:Ed; [| now split].
    pose proof Hap as [_ [_ [_ [_ [_ Hds]]]]].
    pose proof (dragTarget_away _ _ _ _ _ _ Hds Ed) as Hout.
    destruct active; simpl; apply drag_apart; try assumption;
      [now left | right; eexists; eexists; split; [reflexivity | now split]].
  - injection Hstep as <-. now apply tick_apart.
Qed.

Lemma unmounted_apart : apart unmounted.
Proof.
  unfold apart, unmounted.
  destruct (storeData [] INITIAL_DATA) as [h d] eqn:E. simpl.
  exists 0, (length h).
  assert (Hids : Forall (@idEnds GraphNode) (links INITIAL_DATA))
    by (repeat constructor).
  destruct (storeData_range _ _ _ _ Hids E) as [_ [Hn [Hl Hid]]].
  split_and!; try assumption; constructor.
Qed.

Lemma started_apart {rt : Runtime} {ly : Layout} : apart started.
Proof.
  unfold started, mounted.
  destruct (commit true true unmounted) as [w | |] eqn:E;
    try apply unmounted_apart.
  destruct unmounted_apart as [base [top Hap]].
  exists base, top. eapply commit_apart; eassumption.
Qed.

Lemma run_apart {rt : Runtime} {ly : Layout} (es : list Event) :
  forall (w w1 : World),
    apart w -> tameRun w es -> run w es = Done w1 -> apart w1.
Proof.
  induction es as [| e es IH]; intros w w1 Hap; simpl.
  - intros _ E. now injection E as <-.
  - intros [Ht Hrest].
    destruct (step w e) as [w2 | |] eqn:Es; try discriminate.
    intros E. eapply IH; [| exact Hrest | exact E].
    eapply step_apart; eassumption.
Qed.

(** As long as every graph that was stored gives the ends of its links by
    id (the sample graph does, and the schema of the service asks for it),
    the graph in the state is changed by nothing but its replacement:
    ticks, drags, clicks, searches, zooms and resizes leave it, and the
    text that [exportJSON] writes, as they were. *)
Theorem graph_changes_only_by_replacement {rt : Runtime} {ly : Layout} :
  forall (es : list Event) (w : World) (e : Event) (w1 : World),
    tameRun started es ->
    play es = Done w ->
    replacement w e = None ->
    step w e = Done w1 ->
    dataProp w1 = dataProp w /\ exportJSON w1 = exportJSON w.
Proof.
  intros es w e w1 Htame Hplay Hrep Hstep.
  assert (Hap : apart w).
  { eapply run_apart; [apply started_apart | exact Htame | exact Hplay]. }
  assert (Ht : tame w e) by (unfold tame; now rewrite Hrep).
  destruct (step_apart w e w1 Hap Ht Hstep) as [_ Hd].
  unfold exportJSON. now rewrite (Hd Hrep).
Qed.

(* ===================================================================== *)
(** ** The pass on the page *)
(* ===================================================================== *)

Lemma map_zip_with_new {E X P} (f : E -> X -> E) (proj : E -> P) (new : X -> P)
      (es : list E) :
  (forall e a, proj (f e a) = new a) ->
  forall xs, length xs = length es ->
             map proj (zip_with f es xs) = map new xs.
Proof.
  intros Hproj. induction es as [| e es IH]; intros [| a xs] Hlen;
    simpl in *; try discriminate; [reflexivity |].
  rewrite Hproj, IH; [reflexivity | lia].
Qed.

(** After the highlighting effect the elements on screen have the
    opacities and strokes of the pass, in the order of the elements. *)
Lemma highlightEffect_styles {rt : Runtime} (w : World) (p : Pass) :
  thePass w = Some p ->
  map opacity (nodeElems (svg (view (highlightEffect w))))
  = map Some (nodeOpacities p)
  /\ map (fun e => (lineOpacity e, stroke e))
         (lineElems (svg (view (highlightEffect w))))
     = map (fun st => (Some (fst st), snd st)) (lineStyles p)
  /\ map textOpacity (textElems (svg (view (highlightEffect w))))
     = map Some (labelOpacities p).
Proof.
  intros Hp. unfold highlightEffect. rewrite Hp. unfold thePass in Hp.
  destruct (boundNodes w) as [nd |] eqn:En; [| discriminate].
  destruct (boundLines w) as [ld |] eqn:El; [| discriminate].
  destruct (boundTexts w) as [td |] eqn:Et; [| discriminate].
  injection Hp as <-.
  apply mapM_length_option in En, El, Et. rewrite length_map in En, El, Et.
  destruct (pass_lengths (filterText (view w)) (selected w) (dataProp w)
                         nd ld td (refsSet (view w)) (dimensions (view w)))
    as [Hn [Hl Ht]].
  set (p := highlightPass _ _ _ _ _ _ _ _) in *.
  unfold applyPass. simpl.
  destruct (zoomTo p); simpl;
    (split_and!; (apply map_zip_with_new; [reflexivity | congruence])).
Qed.

(** The sample page with [ml] clicked: [ai], [ml] and [dl] stay at full
    opacity, [nn] and [gemini] are dimmed, and the two links at [ml] get
    the accent stroke. *)
Example sample_page_selection :
  exists w,
    play (rt := exampleRuntime None) (ly := exampleLayout) [ClickNode 1]
    = Done w
    /\ map opacity (nodeElems (svg (view w)))
       = [Some 1%Q; Some 1%Q; Some 1%Q; Some (1 # 10)%Q; Some (1 # 10)%Q]
    /\ map stroke (lineElems (svg (view w)))
       = [accent; accent; inactive; inactive].
Proof. eexists. split; [vm_compute; reflexivity |]. split; reflexivity. Qed.

(** [generateKnowledgeGraph] throws exactly when the call fails, the
    text of the response is missing or empty, or the text does not parse. *)
Lemma generation_fails_iff {rt : Runtime} (r : Response) :
  generateKnowledgeGraph r = None <->
  r = ApiError \/ r = ApiText None \/ r = ApiText (Some [])
  \/ exists text, r = ApiText (Some text) /\ JSON_parse text = None.
Proof.
  unfold generateKnowledgeGraph. split.
  - destruct r as [| [text |]]; [now left | | now right; left].
    destruct text as [| c text]; [now right; right; left |].
    simpl. intros E. right. right. right. now exists (c :: text).
  - intros [-> | [-> | [-> | [text [-> E]]]]]; try reflexivity.
    now destruct (nonEmpty text).
Qed.

(* ===================================================================== *)
(** ** Further properties: the text box and the request *)
(* ===================================================================== *)

Import Service Form Palette Props.

(** *** [trim] *)

Lemma trimStart_split (s : jsstring) :
  exists sp, s = sp ++ trimStart s /\ blank sp.
Proof.
  induction s as [| c s IH]; cbn [trimStart].
  - exists []. split; [reflexivity | constructor].
  - destruct (isSpace c) eqn:E.
    + destruct IH as [sp [Hs Hb]]. exists (c :: sp).
      split; [rewrite <- app_comm_cons; f_equal; exact Hs | now constructor].
    + exists []. split; [reflexivity | constructor].
Qed.

Lemma trimStart_head (s : jsstring) (c : N) (r : jsstring) :
  trimStart s = c :: r -> isSpace c = false.
Proof.
  induction s as [| d s IH]; cbn [trimStart]; [discriminate |].
  destruct (isSpace d) eqn:E; [exact IH |].
  intros E1. injection E1 as <- _. exact E.
Qed.

Lemma trimStart_fixed (c : N) (r : jsstring) :
  isSpace c = false -> trimStart (c :: r) = c :: r.
Proof. intros E. cbn [trimStart]. now rewrite E. Qed.

Lemma trimStart_blank (s : jsstring) : trimStart s = [] <-> blank s.
Proof.
  split.
  - intros E. destruct (trimStart_split s) as [sp [Hs Hb]].
    rewrite E, app_nil_r in Hs. now subst.
  - induction 1 as [| c s Hc _ IH]; cbn [trimStart]; [reflexivity |].
    now rewrite Hc.
Qed.

Lemma blank_rev (s : jsstring) : blank (rev s) <-> blank s.
Proof.
  unfold blank. split; intros H.
  - rewrite <- (rev_involutive s). now apply List.Forall_rev.
  - now apply List.Forall_rev.
Qed.

(** A string is trimmed to the empty string exactly when it is blank. *)
Lemma trim_blank (s : jsstring) : trim s = [] <-> blank s.
Proof.
  unfold trim. split.
  - intros E. apply (f_equal (@rev N)) in E. rewrite rev_involutive in E.
    cbn [rev] in E. apply trimStart_blank in E.
    apply (proj1 (blank_rev _)) in E.
    destruct (trimStart s) as [| c r] eqn:Es; [now apply trimStart_blank |].
    apply trimStart_head in Es. inversion E; congruence.
  - intros Hb. apply trimStart_blank in Hb. now rewrite Hb.
Qed.

Lemma nonEmpty_trim (s : jsstring) : nonEmpty (trim s) = false <-> blank s.
Proof.
  rewrite <- trim_blank. destruct (trim s); simpl; split; congruence.
Qed.

(** Trimming twice is trimming once. *)
Lemma trim_idempotent (s : jsstring) : trim (trim s) = trim s.
Proof.
  unfold trim.
  destruct (trimStart s) as [| c r] eqn:Es; [reflexivity |].
  pose proof (trimStart_head _ _ _ Es) as Hc.
  destruct (trimStart_split (rev (c :: r))) as [sp [Hs Hb]].
  destruct (trimStart (rev (c :: r))) as [| d v] eqn:Ev.
  - reflexivity.
  - pose proof (trimStart_head _ _ _ Ev) as Hd.
    assert (Hu : c :: r = rev (d :: v) ++ rev sp).
    { rewrite <- rev_app_distr, <- Hs. now rewrite rev_involutive. }
    assert (Hfix : trimStart (rev (d :: v)) = rev (d :: v)).
    { destruct (rev (d :: v)) as [| c1 r1] eqn:Er.
      - apply (f_equal (@length N)) in Er. rewrite length_rev in Er.
        discriminate.
      - injection Hu as <- _. now apply trimStart_fixed. }
    rewrite Hfix, rev_involutive. now rewrite (trimStart_fixed _ _ Hd).
Qed.

(** *** The effects that only restyle *)

Lemma highlightEffect_view {rt : Runtime} (w : World) :
  dimensions (view (highlightEffect w)) = dimensions (view w)
  /\ simulationRef (view (highlightEffect w)) = simulationRef (view w)
  /\ svgSelectionRef (view (highlightEffect w)) = svgSelectionRef (view w).
Proof. unfold highlightEffect. destruct (thePass w); split_and!; reflexivity. Qed.

(** A commit without a new graph or size runs at most the highlighting
    effect: it ends, and leaves the objects, the state of [App], the
    simulations and the geometry of the drawing as they are. *)
Lemma commit_restyle {rt : Runtime} {ly : Layout} (b : bool) (w : World) :
  exists w1, commit false b w = Done w1
             /\ heap w1 = heap w
             /\ app w1 = app w
             /\ inflight w1 = inflight w
             /\ filterText (view w1) = filterText (view w)
             /\ dimensions (view w1) = dimensions (view w)
             /\ sims (view w1) = sims (view w)
             /\ cleanup (view w1) = cleanup (view w)
             /\ zoomRef (view w1) = zoomRef (view w)
             /\ drawing (svg (view w1)) = drawing (svg (view w)).
Proof.
  unfold commit. destruct b.
  - exists (highlightEffect w). split; [reflexivity |].
    destruct (highlightEffect_frame w) as [H1 [H2 [H3 [H4 [H5 [H6 H7]]]]]].
    destruct (highlightEffect_view w) as [H8 _].
    split_and!; try assumption. apply highlightEffect_drawing.
  - exists w. split_and!; reflexivity.
Qed.

(** X1. [handleGenerate] with a query that is empty or made of white
    space only does nothing. With any other query it ends with the status
    [analyzing], no node selected and one more call pending; the query,
    the graph, the objects and the simulations are as before. *)
Theorem X1_blank_query_is_not_submitted {rt : Runtime} {ly : Layout} :
  forall (w : World),
    (blank (query (app w)) -> handleGenerate w = Done w)
    /\ (~ blank (query (app w)) ->
        exists w1,
          handleGenerate w = Done w1
          /\ status (app w1) = analysing
          /\ selectedNode (app w1) = None
          /\ inflight w1 = inflight w ++ [Calling]
          /\ query (app w1) = query (app w)
          /\ graphData (app w1) = graphData (app w)
          /\ heap w1 = heap w
          /\ sims (view w1) = sims (view w)).
Proof.
  intros w. unfold handleGenerate. split.
  - intros Hb. apply nonEmpty_trim in Hb. now rewrite Hb.
  - intros Hnb.
    destruct (nonEmpty (trim (query (app w)))) eqn:E;
      [| now apply nonEmpty_trim in E].
    destruct (commit_restyle (selectionChanges None w)
                (withInflight (inflight w ++ [Calling])
                   (setSelectedNode None (setStatus analysing w))))
      as [w1 [Hc [Hh [Ha [Hi [_ [_ [Hs _]]]]]]]].
    exists w1. split; [exact Hc |]. rewrite Ha, Hi, Hh, Hs.
    split_and!; reflexivity.
Qed.

(** The page as it starts has an empty query, and nothing is submitted;
    with the query [AI] a call is pending after [handleGenerate]. *)
Lemma X1_witness :
  let w := setQuery (utf16 "AI") unmounted in
  blank (query (app unmounted))
  /\ handleGenerate (rt := exampleRuntime None) (ly := exampleLayout) unmounted
     = Done unmounted
  /\ ~ blank (query (app w))
  /\ exists w1,
      handleGenerate (rt := exampleRuntime None) (ly := exampleLayout) w
      = Done w1
      /\ status (app w1) = analysing
      /\ inflight w1 = [Calling].
Proof.
  intros w.
  assert (Hb : blank (query (app unmounted))) by constructor.
  assert (Hnb : ~ blank (query (app w))).
  { intros H. inversion H as [| c s Hc Hs]. discriminate Hc. }
  split; [exact Hb |].
  split; [exact (proj1 (X1_blank_query_is_not_submitted
                          (rt := exampleRuntime None) (ly := exampleLayout)
                          unmounted) Hb) |].
  split; [exact Hnb |].
  destruct (proj2 (X1_blank_query_is_not_submitted
                     (rt := exampleRuntime None) (ly := exampleLayout) w) Hnb)
    as [w1 [H1 [H2 [_ [H3 _]]]]].
  exists w1. split; [exact H1 |]. split; [exact H2 |]. exact H3.
Defined.

(** X2. Ctrl+Enter or Cmd+Enter in the text box does what the submit
    button does, and any other key nothing; and a submission is
    [handleGenerate] when the query is not blank and nothing is loading,
    and nothing otherwise. *)
Theorem X2_shortcut_submits_like_the_button {rt : Runtime} {ly : Layout} :
  forall (e : KeyEvent) (w : World),
    handleKeyDown e w
    = (if (ctrlKey e || metaKey e) && str_eqb (key e) (utf16 "Enter")
       then step w Submit else Done w)
    /\ step w Submit
       = (if nonEmpty (trim (query (app w))) && negb (loading (status (app w)))
          then handleGenerate w else Done w).
Proof.
  intros e w.
  assert (Hsub : step w Submit
                 = (if nonEmpty (trim (query (app w)))
                       && negb (loading (status (app w)))
                    then handleGenerate w else Done w)).
  { cbn [step]. unfold handleGenerate.
    destruct (loading (status (app w))); cbn [negb].
    - now rewrite andb_false_r.
    - now destruct (nonEmpty (trim (query (app w)))). }
  split; [| exact Hsub].
  unfold handleKeyDown. rewrite Hsub.
  now destruct ((ctrlKey e || metaKey e) && str_eqb (key e) (utf16 "Enter")).
Qed.

(** *** The prompt *)

Lemma given_trim (s : jsstring) : given (Some (trim s)) = given (Some s).
Proof.
  unfold given. rewrite trim_idempotent.
  destruct (nonEmpty (trim s)) eqn:E; [| now rewrite !andb_false_r].
  destruct s; [discriminate E | reflexivity].
Qed.

Lemma given_blank (s : jsstring) : blank s -> given (Some s) = false.
Proof.
  intros Hb. unfold given. apply nonEmpty_trim in Hb. rewrite Hb.
  apply andb_false_r.
Qed.

Lemma given_not_blank (s : jsstring) : ~ blank s -> given (Some s) = true.
Proof.
  intros Hb. unfold given.
  destruct (nonEmpty (trim s)) eqn:E;
    [| exfalso; apply Hb; now apply nonEmpty_trim].
  destruct s as [| c s]; [exfalso; apply Hb; constructor | reflexivity].
Qed.

(** X13. The options [domain] and [entityTypes] reach the prompt
    trimmed. An option that is not blank stands in the prompt, trimmed
    and between double quotes, after the words of its constraint; an option
    that is blank adds nothing: with both blank the prompt is the one of a
    call without options. The query stands in the prompt as it was typed,
    between double quotes. *)
Theorem X13_options_reach_the_prompt_trimmed :
  forall (q d e : jsstring),
    prompt q (Some d) (Some e) = prompt q (Some (trim d)) (Some (trim e))
    /\ (~ blank d ->
        exists before after,
          prompt q (Some d) (Some e)
          = before ++ utf16 "    严格限定领域 (Domain): "
                   ++ quote ++ trim d ++ quote ++ after)
    /\ (~ blank e ->
        exists before after,
          prompt q (Some d) (Some e)
          = before ++ utf16 "    优先提取的实体类型 (Entity Types): "
                   ++ quote ++ trim e ++ quote ++ after)
    /\ (blank d -> prompt q (Some d) (Some e) = prompt q None (Some e))
    /\ (blank e -> prompt q (Some d) (Some e) = prompt q (Some d) None)
    /\ (blank d -> blank e -> prompt q (Some d) (Some e) = prompt q None None)
    /\ (exists before after,
           prompt q (Some d) (Some e)
           = before ++ quote ++ q ++ quote ++ after)
    /\ includes (prompt q (Some d) (Some e)) q = true.
Proof.
  intros q d e.
  assert (Hq : exists before after,
             prompt q (Some d) (Some e)
             = before ++ quote ++ q ++ quote ++ after).
  { unfold prompt, promptHead.
    exists (nl ++ utf16 "    请分析以下文本 or 主题，并构建一个可视化的知识图谱数据。"
            ++ nl ++ utf16 "    提取关键实体（nodes）及其关系（links）。"
            ++ nl ++ utf16 "    "
            ++ nl ++ utf16 "    主题/文本: ").
    eexists. rewrite <- !app_assoc. reflexivity. }
  split; [| split; [| split; [| split; [| split; [| split; [| split;
    [exact Hq |]]]]]]].
  - unfold prompt, constraints, domainLine, entityTypesLine.
    now rewrite !given_trim, !trim_idempotent.
  - intros Hd. unfold prompt, constraints. rewrite (given_not_blank _ Hd).
    unfold domainLine.
    exists (promptHead ++ q ++ quote ++ nl ++ utf16 "    " ++ nl).
    destruct (given (Some e)); eexists; rewrite app_nil_l, <- !app_assoc;
      reflexivity.
  - intros He. unfold prompt, constraints. rewrite (given_not_blank _ He).
    unfold entityTypesLine.
    destruct (given (Some d)).
    + exists (promptHead ++ q ++ quote ++ nl ++ utf16 "    " ++ domainLine d
              ++ nl).
      eexists. rewrite app_nil_l, <- !app_assoc. reflexivity.
    + exists (promptHead ++ q ++ quote ++ nl ++ utf16 "    " ++ nl).
      eexists. rewrite app_nil_l, <- !app_assoc. reflexivity.
  - intros Hd. unfold prompt, constraints. now rewrite (given_blank _ Hd).
  - intros He. unfold prompt, constraints. now rewrite (given_blank _ He).
  - intros Hd He. unfold prompt, constraints.
    now rewrite (given_blank _ Hd), (given_blank _ He).
  - destruct Hq as [before [after E]]. rewrite E. apply includes_spec.
    exists (before ++ quote), (quote ++ after). now rewrite <- !app_assoc.
Qed.

(** A domain typed between spaces stands in the prompt without them; an
    option made of spaces adds nothing. *)
Lemma X13_witness :
  ~ blank (utf16 " physics ")
  /\ blank (utf16 "  ")
  /\ trim (utf16 " physics ") = utf16 "physics"
  /\ (exists before after,
         prompt (utf16 "AI") (Some (utf16 " physics ")) (Some (utf16 "  "))
         = before ++ utf16 "    严格限定领域 (Domain): "
                  ++ quote ++ trim (utf16 " physics ") ++ quote ++ after)
  /\ prompt (utf16 "AI") (Some (utf16 " physics ")) (Some (utf16 "  "))
     = prompt (utf16 "AI") (Some (utf16 " physics ")) None.
Proof.
  assert (Hd : ~ blank (utf16 " physics ")).
  { intros H. apply nonEmpty_trim in H. vm_compute in H. discriminate H. }
  assert (He : blank (utf16 "  ")) by (repeat constructor).
  split; [exact Hd |]. split; [exact He |].
  split; [vm_compute; reflexivity |].
  destruct (X13_options_reach_the_prompt_trimmed
              (utf16 "AI") (utf16 " physics ") (utf16 "  "))
    as [_ [Hdom [_ [_ [Hent _]]]]].
  split; [exact (Hdom Hd) | exact (Hent He)].
Defined.

(* ===================================================================== *)
(** ** Further properties: the checks of an imported document *)
(* ===================================================================== *)

Lemma isArray_Some (v : option json) (items : list json) :
  isArray v = Some items <-> v = Some (JArr items).
Proof.
  destruct v as [[| b | q | s | l | fs] |]; simpl; split; congruence.
Qed.

(** [n.id && n.label] throws on [null], holds for an object with truthy
    [id] and [label], and fails for every other value. *)
Lemma hasIdAndLabel_cases (n : json) :
  (n = JNull /\ hasIdAndLabel n = Throw)
  \/ (named n /\ hasIdAndLabel n = Normal true)
  \/ (n <> JNull /\ ~ named n /\ hasIdAndLabel n = Normal false).
Proof.
  destruct n as [| b | q | s | l | fs].
  - left. now split.
  - right; right. split_and!; [discriminate | | reflexivity].
    intros [fs [E _]]. discriminate E.
  - right; right. split_and!; [discriminate | | reflexivity].
    intros [fs [E _]]. discriminate E.
  - right; right. split_and!; [discriminate | | reflexivity].
    intros [fs [E _]]. discriminate E.
  - right; right. split_and!; [discriminate | | reflexivity].
    intros [fs [E _]]. discriminate E.
  - unfold hasIdAndLabel, getProp, named.
    destruct (truthy (field (utf16 "id") fs)) eqn:Ei.
    + destruct (truthy (field (utf16 "label") fs)) eqn:El.
      * right; left. split; [| reflexivity]. now exists fs.
      * right; right. split_and!; [discriminate | | reflexivity].
        intros [fs1 [E [_ H]]]. injection E as <-. congruence.
    + right; right. split_and!; [discriminate | | reflexivity].
      intros [fs1 [E [H _]]]. injection E as <-. congruence.
Qed.

Lemma named_not_null (n : json) : named n -> n <> JNull.
Proof. intros [fs [-> _]]. discriminate. Qed.

Lemma everyNode_cons (n : json) (rest : list json) :
  everyNode (n :: rest)
  = match hasIdAndLabel n with
    | Throw => Throw
    | Normal true => everyNode rest
    | Normal false => Normal false
    end.
Proof. reflexivity. Qed.

Lemma everyNode_valid (ns : list json) :
  everyNode ns = Normal true <-> Forall named ns.
Proof.
  induction ns as [| n rest IH]; [split; [constructor | reflexivity] |].
  rewrite everyNode_cons.
  destruct (hasIdAndLabel_cases n) as [[-> ->] | [[Hn ->] | [_ [Hn ->]]]].
  - split; [discriminate |]. intros H. inversion H as [| ? ? H1 _]; subst.
    now apply named_not_null in H1.
  - rewrite IH. split; [now constructor | intros H; now inversion H].
  - split; [discriminate |]. intros H. now inversion H.
Qed.

Lemma everyNode_throws (ns : list json) :
  everyNode ns = Throw <->
  exists pre post, ns = pre ++ JNull :: post /\ Forall named pre.
Proof.
  induction ns as [| n rest IH].
  - split; [discriminate |]. intros [pre [post [E _]]]. now destruct pre.
  - rewrite everyNode_cons.
    destruct (hasIdAndLabel_cases n) as [[-> ->] | [[Hn ->] | [Hnull [Hn ->]]]].
    + split; [| reflexivity]. intros _. exists [], rest. now split.
    + rewrite IH. split.
      * intros [pre [post [-> Hpre]]]. exists (n :: pre), post.
        split; [reflexivity | now constructor].
      * intros [pre [post [E Hpre]]]. destruct pre as [| p pre].
        -- injection E as -> _. now apply named_not_null in Hn.
        -- injection E as -> ->. exists pre, post. split; [reflexivity |].
           now inversion Hpre.
    + split; [discriminate |]. intros [pre [post [E Hpre]]].
      destruct pre as [| p pre].
      * injection E as -> _. congruence.
      * injection E as -> _. now inversion Hpre.
Qed.

Lemma everyNode_fails (ns : list json) :
  everyNode ns = Normal false <->
  exists pre n post, ns = pre ++ n :: post /\ Forall named pre
                     /\ n <> JNull /\ ~ named n.
Proof.
  induction ns as [| n rest IH].
  - split; [discriminate |]. intros [pre [m [post [E _]]]]. now destruct pre.
  - rewrite everyNode_cons.
    destruct (hasIdAndLabel_cases n) as [[-> ->] | [[Hn ->] | [Hnull [Hn ->]]]].
    + split; [discriminate |]. intros [pre [m [post [E [Hpre [Hm _]]]]]].
      destruct pre as [| p pre].
      * injection E as <- _. congruence.
      * injection E as <- _. inversion Hpre as [| ? ? H1 _]; subst.
        now apply named_not_null in H1.
    + rewrite IH. split.
      * intros [pre [m [post [-> [Hpre Hm]]]]]. exists (n :: pre), m, post.
        split; [reflexivity |]. split; [now constructor | exact Hm].
      * intros [pre [m [post [E [Hpre [Hm Hnm]]]]]]. destruct pre as [| p pre].
        -- injection E as -> _. contradiction.
        -- injection E as -> ->. exists pre, m, post.
           split; [reflexivity |]. split; [now inversion Hpre | now split].
    + split; [| reflexivity]. intros _. exists [], n, rest.
      split; [reflexivity |]. split; [constructor | now split].
Qed.

(** The verdict on an object whose [nodes] and [links] are arrays is the
    one of the check of the entries of [nodes]. *)
Lemma validate_arrays (fs : list (jsstring * json)) (ns ls : list json) :
  field (utf16 "nodes") fs = Some (JArr ns) ->
  field (utf16 "links") fs = Some (JArr ls) ->
  validate (JObj fs)
  = match everyNode ns with
    | Throw => Throw
    | Normal true => Normal Valid
    | Normal false => Normal NodeWithoutIdOrLabel
    end.
Proof. intros En El. unfold validate, getProp. now rewrite En, El. Qed.

Lemma validate_not_arrays (fs : list (jsstring * json)) :
  (forall ns ls, field (utf16 "nodes") fs = Some (JArr ns) ->
                 field (utf16 "links") fs = Some (JArr ls) -> False) ->
  validate (JObj fs) = Normal NotArrays.
Proof.
  intros H. unfold validate, getProp.
  destruct (isArray (field (utf16 "nodes") fs)) as [ns |] eqn:En;
    [| reflexivity].
  destruct (isArray (field (utf16 "links") fs)) as [ls |] eqn:El;
    [| reflexivity].
  apply isArray_Some in En, El. destruct (H _ _ En El).
Qed.

(** X3. What the checks of the import say of a parsed document. It is
    valid exactly when it is an object whose [nodes] and [links] are
    arrays and every entry of [nodes] is an object with truthy [id] and
    [label]; the entries of [links] are not looked at. A node is reported
    as lacking [id] or [label] exactly when the first entry that is not
    such an object is not [null]; the checks throw exactly when the
    document is [null] or that first entry is [null]; and the arrays are
    reported as missing in every other case. *)
Theorem X3_validation_verdicts :
  forall (doc : json),
    (validate doc = Normal Valid <->
     exists fs ns ls,
       doc = JObj fs
       /\ field (utf16 "nodes") fs = Some (JArr ns)
       /\ field (utf16 "links") fs = Some (JArr ls)
       /\ Forall named ns)
    /\ (validate doc = Normal NodeWithoutIdOrLabel <->
        exists fs ns ls pre n post,
          doc = JObj fs
          /\ field (utf16 "nodes") fs = Some (JArr ns)
          /\ field (utf16 "links") fs = Some (JArr ls)
          /\ ns = pre ++ n :: post /\ Forall named pre
          /\ n <> JNull /\ ~ named n)
    /\ (validate doc = Throw <->
        doc = JNull
        \/ exists fs ns ls pre post,
            doc = JObj fs
            /\ field (utf16 "nodes") fs = Some (JArr ns)
            /\ field (utf16 "links") fs = Some (JArr ls)
            /\ ns = pre ++ JNull :: post /\ Forall named pre)
    /\ (validate doc = Normal NotArrays <->
        doc <> JNull
        /\ forall fs ns ls,
            doc = JObj fs ->
            field (utf16 "nodes") fs = Some (JArr ns) ->
            field (utf16 "links") fs = Some (JArr ls) -> False).
Proof.
  intros doc.
  assert (Hprim : (forall fs, doc <> JObj fs) -> doc <> JNull ->
                  validate doc = Normal NotArrays).
  { intros Ho Hn. destruct doc; try reflexivity; [congruence |].
    now destruct (Ho fields). }
  destruct doc as [| b | q | s | l | fs].
  1: { split_and!; (split; [try discriminate | ]).
       - intros [fs [ns [ls [E _]]]]. discriminate E.
       - intros [fs [ns [ls [pre [n [post [E _]]]]]]]. discriminate E.
       - intros _. now left.
       - reflexivity.
       - intros [H _]. congruence. }
  1-4: rewrite Hprim by discriminate;
       (split_and!; (split; [try discriminate | ]));
       [ intros [fs [ns [ls [E _]]]]; discriminate E
       | intros [fs [ns [ls [pre [n [post [E _]]]]]]]; discriminate E
       | intros [E | [fs [ns [ls [pre [post [E _]]]]]]]; discriminate E
       | intros _; split; [discriminate | intros fs ns ls E; discriminate E]
       | reflexivity ].
  destruct (isArray (field (utf16 "nodes") fs)) as [ns |] eqn:En.
  2: { assert (Hno : forall ns ls, field (utf16 "nodes") fs = Some (JArr ns) ->
                                   field (utf16 "links") fs = Some (JArr ls) ->
                                   False).
       { intros ns ls E _. apply isArray_Some in E. congruence. }
       rewrite (validate_not_arrays _ Hno).
       split_and!; (split; [try discriminate | ]).
       - intros [fs1 [ns [ls [E [E1 [E2 _]]]]]]. injection E as <-. exfalso. eauto.
       - intros [fs1 [ns [ls [pre [n [post [E [E1 [E2 _]]]]]]]]].
         injection E as <-. exfalso. eauto.
       - intros [E | [fs1 [ns [ls [pre [post [E [E1 [E2 _]]]]]]]]];
           [discriminate E |]. injection E as <-. exfalso. eauto.
       - intros _. split; [discriminate |]. intros fs1 ns ls E.
         injection E as <-. apply Hno.
       - reflexivity. }
  destruct (isArray (field (utf16 "links") fs)) as [ls |] eqn:El.
  2: { assert (Hno : forall ns ls, field (utf16 "nodes") fs = Some (JArr ns) ->
                                   field (utf16 "links") fs = Some (JArr ls) ->
                                   False).
       { intros ns1 ls _ E. apply isArray_Some in E. congruence. }
       rewrite (validate_not_arrays _ Hno).
       split_and!; (split; [try discriminate | ]).
       - intros [fs1 [ns1 [ls [E [E1 [E2 _]]]]]]. injection E as <-. exfalso. eauto.
       - intros [fs1 [ns1 [ls [pre [n [post [E [E1 [E2 _]]]]]]]]].
         injection E as <-. exfalso. eauto.
       - intros [E | [fs1 [ns1 [ls [pre [post [E [E1 [E2 _]]]]]]]]];
           [discriminate E |]. injection E as <-. exfalso. eauto.
       - intros _. split; [discriminate |]. intros fs1 ns1 ls E.
         injection E as <-. apply Hno.
       - reflexivity. }
  apply isArray_Some in En, El.
  rewrite (validate_arrays _ _ _ En El).
  split_and!.
  - split.
    + intros E. exists fs, ns, ls. split_and!; try easy.
      apply everyNode_valid. now destruct (everyNode ns) as [[|] |].
    + intros [fs1 [ns1 [ls1 [E [E1 [E2 Hall]]]]]]. injection E as <-.
      assert (ns1 = ns) by congruence. subst ns1.
      apply everyNode_valid in Hall. now rewrite Hall.
  - split.
    + intros E.
      assert (Ef : everyNode ns = Normal false)
        by now destruct (everyNode ns) as [[|] |].
      apply everyNode_fails in Ef.
      destruct Ef as [pre [n [post [E1 [E2 [E3 E4]]]]]].
      exists fs, ns, ls, pre, n, post. now split_and!.
    + intros [fs1 [ns1 [ls1 [pre [n [post [E [E1 [E2 [E3 [E4 [E5 E6]]]]]]]]]]]].
      injection E as <-. assert (ns1 = ns) by congruence. subst ns1.
      assert (Ef : everyNode ns = Normal false).
      { apply everyNode_fails. exists pre, n, post. now split_and!. }
      now rewrite Ef.
  - split.
    + intros E. right.
      assert (Ef : everyNode ns = Throw)
        by now destruct (everyNode ns) as [[|] |].
      apply everyNode_throws in Ef. destruct Ef as [pre [post [E1 E2]]].
      exists fs, ns, ls, pre, post. now split_and!.
    + intros [E | [fs1 [ns1 [ls1 [pre [post [E [E1 [E2 [E3 E4]]]]]]]]]];
        [discriminate E |].
      injection E as <-. assert (ns1 = ns) by congruence. subst ns1.
      assert (Ef : everyNode ns = Throw).
      { apply everyNode_throws. exists pre, post. now split. }
      now rewrite Ef.
  - split.
    + intros E. now destruct (everyNode ns) as [[|] |].
    + intros [_ H]. destruct (H fs ns ls eq_refl En El).
Qed.

(** *** The messages of the import *)

Lemma messages_differ :
  tooLarge <> unparsable /\ tooLarge <> notArrays /\ tooLarge <> nodeFields
  /\ unparsable <> notArrays /\ unparsable <> nodeFields
  /\ notArrays <> nodeFields.
Proof. split_and!; intros E; vm_compute in E; discriminate E. Qed.

Lemma alert_inj (m1 m2 : jsstring) (w : World) :
  Done (alert m1 w) = Done (alert m2 w) -> m1 = m2.
Proof.
  intros E.
  apply (f_equal (fun r => match r with
                           | Done x => alerts (app x)
                           | _ => []
                           end)) in E.
  simpl in E. now injection E.
Qed.

Lemma cons_differs {A : Type} (a : A) (l : list A) : a :: l <> l.
Proof.
  intros E. apply (f_equal (@length A)) in E. simpl in E. lia.
Qed.

Lemma setQuery_no_alert (q msg : jsstring) (w : World) :
  Done (setQuery q w) <> Done (alert msg w).
Proof.
  intros E.
  apply (f_equal (fun r => match r with
                           | Done x => alerts (app x)
                           | _ => []
                           end)) in E.
  simpl in E. symmetry in E. now apply cons_differs in E.
Qed.

Lemma imported_app (g : GraphData) (st : GenerationStatus) (q : jsstring)
      (w : World) :
  let w0 := setSelectedNode None (setStatus st (setQuery q (setGraphData g w))) in
  alerts (app w0) = alerts (app w)
  /\ inflight w0 = inflight w
  /\ query (app w0) = q
  /\ status (app w0) = st
  /\ selectedNode (app w0) = None.
Proof.
  unfold setGraphData. destruct (storeData (heap w) g) as [h d].
  now split_and!.
Qed.

Lemma imported_stores (g : GraphData) (st : GenerationStatus) (q : jsstring)
      (w : World) :
  storeData (heap w) g
  = (heap (setSelectedNode None (setStatus st (setQuery q (setGraphData g w)))),
     graphData
       (app (setSelectedNode None
               (setStatus st (setQuery q (setGraphData g w)))))).
Proof.
  unfold setGraphData. destruct (storeData (heap w) g) as [h d]. reflexivity.
Qed.

Lemma import_no_alert {rt : Runtime} {ly : Layout} (g : GraphData)
      (st : GenerationStatus) (q msg : jsstring) (w : World) :
  commit true true
         (setSelectedNode None (setStatus st (setQuery q (setGraphData g w))))
  <> Done (alert msg w).
Proof.
  intros E. apply commit_frame in E. destruct E as [_ [E _]].
  apply (f_equal alerts) in E.
  destruct (imported_app g st q w) as [Ha _]. rewrite Ha in E.
  simpl in E. now apply cons_differs in E.
Qed.

(** The message that an upload answers with, and why. *)
Lemma upload_alert {rt : Runtime} {ly : Layout} (f : File) (w : World)
      (msg : jsstring) :
  handleFileUpload (Some f) w = Done (alert msg w) <->
  (msg = tooLarge /\ (sizeLimit < size f)%N)
  \/ ((size f <= sizeLimit)%N /\ isJson f = true
      /\ ((msg = unparsable
           /\ (JSON_parse (content f) = None
               \/ exists doc, JSON_parse (content f) = Some doc
                              /\ validate doc = Throw))
          \/ (msg = notArrays
              /\ exists doc, JSON_parse (content f) = Some doc
                             /\ validate doc = Normal NotArrays)
          \/ (msg = nodeFields
              /\ exists doc, JSON_parse (content f) = Some doc
                             /\ validate doc = Normal NodeWithoutIdOrLabel))).
Proof.
  unfold handleFileUpload, isJson, tooLarge, unparsable, notArrays, nodeFields.
  destruct (sizeLimit <? size f)%N eqn:Es.
  { apply N.ltb_lt in Es. split.
    - intros E. apply alert_inj in E. left. now split.
    - intros [[-> _] | [Hle _]]; [reflexivity | lia]. }
  apply N.ltb_ge in Es.
  destruct (endsWith (toLowerCase (name f)) (utf16 ".json")) eqn:Ej.
  2: { split.
       - intros E. now apply setQuery_no_alert in E.
       - intros [[_ Hlt] | [_ [E _]]]; [lia | discriminate E]. }
  unfold importJson.
  destruct (JSON_parse (content f)) as [doc |] eqn:Ep.
  2: { split.
       - intros E. apply alert_inj in E. right. split_and!; try easy.
         left. split; [easy | now left].
       - intros [[_ Hlt] | [_ [_ [[-> _] | [[_ [doc [E _]]] | [_ [doc [E _]]]]]]]];
           [lia | reflexivity | discriminate E | discriminate E]. }
  destruct (validate doc) as [[| |] |] eqn:Ev.
  - split.
    + destruct (asGraphData doc) as [g |]; [| discriminate].
      intros E. now apply import_no_alert in E.
    + intros [[_ Hlt] | [_ [_ H]]]; [lia |].
      destruct H as [[_ [E | [d [E E1]]]] | [[_ [d [E E1]]] | [_ [d [E E1]]]]];
        congruence.
  - split.
    + intros E. apply alert_inj in E. right. split_and!; try easy.
      right; right. split; [easy | now exists doc].
    + intros [[_ Hlt] | [_ [_ H]]]; [lia |].
      destruct H as [[_ [E | [d [E E1]]]] | [[_ [d [E E1]]] | [-> _]]];
        congruence.
  - split.
    + intros E. apply alert_inj in E. right. split_and!; try easy.
      right; left. split; [easy | now exists doc].
    + intros [[_ Hlt] | [_ [_ H]]]; [lia |].
      destruct H as [[_ [E | [d [E E1]]]] | [[-> _] | [_ [d [E E1]]]]];
        congruence.
  - split.
    + intros E. apply alert_inj in E. right. split_and!; try easy.
      left. split; [easy | right; now exists doc].
    + intros [[_ Hlt] | [_ [_ H]]]; [lia |].
      destruct H as [[-> _] | [[_ [d [E E1]]] | [_ [d [E E1]]]]];
        congruence.
Qed.

(** X4. Each message of [handleFileUpload] has its own cause. The file
    is called too large exactly when its size is above 5 MB (5242880
    bytes are accepted), whatever its name and content. For a smaller
    file named [*.json], case ignored, the import answers that the file
    cannot be parsed exactly when [JSON.parse] throws or the checks throw
    (the document is [null], or a [null] entry of [nodes] is reached),
    that the arrays are missing exactly when the checks say so, and that a
    node lacks [id] or [label] exactly when the checks say so. There is
    no other message. *)
Theorem X4_each_alert_has_one_cause {rt : Runtime} {ly : Layout} :
  forall (f : File) (w : World),
    (handleFileUpload (Some f) w = Done (alert tooLarge w)
     <-> (5242880 < size f)%N)
    /\ (handleFileUpload (Some f) w = Done (alert unparsable w) <->
        (size f <= 5242880)%N /\ isJson f = true
        /\ (JSON_parse (content f) = None
            \/ exists doc, JSON_parse (content f) = Some doc
                           /\ validate doc = Throw))
    /\ (handleFileUpload (Some f) w = Done (alert notArrays w) <->
        (size f <= 5242880)%N /\ isJson f = true
        /\ exists doc, JSON_parse (content f) = Some doc
                       /\ validate doc = Normal NotArrays)
    /\ (handleFileUpload (Some f) w = Done (alert nodeFields w) <->
        (size f <= 5242880)%N /\ isJson f = true
        /\ exists doc, JSON_parse (content f) = Some doc
                       /\ validate doc = Normal NodeWithoutIdOrLabel)
    /\ (forall msg, handleFileUpload (Some f) w = Done (alert msg w) ->
                    msg = tooLarge \/ msg = unparsable \/ msg = notArrays
                    \/ msg = nodeFields).
Proof.
  intros f w.
  change 5242880%N with sizeLimit.
  destruct messages_differ as [D1 [D2 [D3 [D4 [D5 D6]]]]].
  split_and!.
  - rewrite upload_alert. split.
    + intros [[_ H] | [_ [_ [[E _] | [[E _] | [E _]]]]]]; congruence.
    + intros H. left. split; [reflexivity | exact H].
  - rewrite upload_alert. split.
    + intros [[E _] | [H1 [H2 [[_ H] | [[E _] | [E _]]]]]]; try congruence.
      split; [exact H1 |]. split; [exact H2 | exact H].
    + intros [H1 [H2 H]]. right. split; [exact H1 |]. split; [exact H2 |].
      left. split; [reflexivity | exact H].
  - rewrite upload_alert. split.
    + intros [[E _] | [H1 [H2 [[E _] | [[_ H] | [E _]]]]]]; try congruence.
      split; [exact H1 |]. split; [exact H2 | exact H].
    + intros [H1 [H2 H]]. right. split; [exact H1 |]. split; [exact H2 |].
      right; left. split; [reflexivity | exact H].
  - rewrite upload_alert. split.
    + intros [[E _] | [H1 [H2 [[E _] | [[E _] | [_ H]]]]]]; try congruence.
      split; [exact H1 |]. split; [exact H2 | exact H].
    + intros [H1 [H2 H]]. right. split; [exact H1 |]. split; [exact H2 |].
      right; right. split; [reflexivity | exact H].
  - intros msg E. apply upload_alert in E.
    destruct E as [[-> _] | [_ [_ [[-> _] | [[-> _] | [-> _]]]]]];
      [now left | right; now left | right; right; now left
      | right; right; now right].
Qed.

(** *** Documents that have the type [GraphData] *)

Lemma reqString_Some (v : option json) (s : jsstring) :
  reqString v = Some s -> v = Some (JStr s).
Proof.
  destruct v as [[| b | q | s1 | l | fs] |]; simpl; congruence.
Qed.

Lemma bind_Some {A B : Type} (o : option A) (f : A -> option B) (b : B) :
  o ≫= f = Some b -> exists a, o = Some a /\ f a = Some b.
Proof. destruct o as [a |]; [intros E; now exists a | discriminate]. Qed.

(** A node read from a document has the [id] and the [label] that the
    document gives as strings. *)
Lemma asGraphNode_fields (v : json) (n : GraphNode) :
  asGraphNode v = Some n ->
  exists fs, v = JObj fs
             /\ field (utf16 "id") fs = Some (JStr (id n))
             /\ field (utf16 "label") fs = Some (JStr (label n)).
Proof.
  unfold asGraphNode. destruct v as [| b | q | s | l | fs]; try discriminate.
  destruct (knownKeys _ fs); [| discriminate].
  intros E.
  apply bind_Some in E as [i [Ei E]].
  apply bind_Some in E as [lb [El E]].
  apply bind_Some in E as [g [_ E]].
  apply bind_Some in E as [d [_ E]].
  apply bind_Some in E as [r [_ E]].
  apply bind_Some in E as [ix [_ E]].
  apply bind_Some in E as [x0 [_ E]].
  apply bind_Some in E as [y0 [_ E]].
  apply bind_Some in E as [vx0 [_ E]].
  apply bind_Some in E as [vy0 [_ E]].
  apply bind_Some in E as [fx0 [_ E]].
  apply bind_Some in E as [fy0 [_ E]].
  injection E as <-. exists fs. cbn [id label].
  split_and!; [reflexivity | now apply reqString_Some ..].
Qed.

Lemma hasIdAndLabel_typed (v : json) (n : GraphNode) :
  asGraphNode v = Some n -> hasIdAndLabel v = Normal (wellNamed n).
Proof.
  intros E. apply asGraphNode_fields in E as [fs [-> [Ei El]]].
  unfold hasIdAndLabel, getProp, wellNamed. rewrite Ei, El.
  cbn [truthy]. now destruct (nonEmpty (id n)).
Qed.

Lemma everyNode_typed (vs : list json) (ns : list GraphNode) :
  mapM asGraphNode vs = Some ns ->
  everyNode vs = Normal (forallb wellNamed ns).
Proof.
  rewrite mapM_Some. induction 1 as [| v n vs ns Hv _ IH]; [reflexivity |].
  rewrite everyNode_cons, (hasIdAndLabel_typed _ _ Hv). cbn [forallb].
  destruct (wellNamed n); [exact IH | reflexivity].
Qed.

(** A document of type [GraphData]: its two arrays and its nodes. *)
Lemma asGraphData_fields (doc : json) (g : GraphData) :
  asGraphData doc = Some g ->
  exists fs vs ls,
    doc = JObj fs
    /\ field (utf16 "nodes") fs = Some (JArr vs)
    /\ field (utf16 "links") fs = Some (JArr ls)
    /\ mapM asGraphNode vs = Some (nodes g)
    /\ mapM asGraphLink ls = Some (links g).
Proof.
  unfold asGraphData. destruct doc as [| b | q | s | l | fs]; try discriminate.
  destruct (knownKeys _ fs); [| discriminate].
  destruct (field (utf16 "nodes") fs) as [[| | | | vs |] |] eqn:Fn;
    try discriminate.
  destruct (field (utf16 "links") fs) as [[| | | | ls |] |] eqn:Fl;
    try discriminate.
  intros E.
  apply bind_Some in E as [ns [En E]].
  apply bind_Some in E as [lks [El E]].
  injection E as <-. exists fs, vs, ls. now split_and!.
Qed.

Lemma validate_typed (doc : json) (g : GraphData) :
  asGraphData doc = Some g ->
  validate doc
  = Normal (if forallb wellNamed (nodes g) then Valid
            else NodeWithoutIdOrLabel).
Proof.
  intros E.
  destruct (asGraphData_fields _ _ E) as [fs [vs [ls [-> [En [El [Hn _]]]]]]].
  rewrite (validate_arrays _ _ _ En El), (everyNode_typed _ _ Hn).
  now destruct (forallb wellNamed (nodes g)).
Qed.

(** X5. For a document that has the type [GraphData], the checks of the
    import come down to the nodes: the document is valid exactly when
    every node has a non-empty [id] and a non-empty [label], and
    otherwise a node is reported as lacking [id] or [label]. *)
Theorem X5_typed_document_is_valid_iff_nodes_are_named :
  forall (doc : json) (g : GraphData),
    asGraphData doc = Some g ->
    validate doc
    = Normal (if forallb wellNamed (nodes g) then Valid
              else NodeWithoutIdOrLabel).
Proof. exact validate_typed. Qed.

(** A document with one node whose label is the empty string has the
    type [GraphData] and does not pass the checks. *)
Lemma X5_witness :
  let doc := JObj [(utf16 "nodes",
                    JArr [JObj [(utf16 "id", JStr (utf16 "n1"));
                                (utf16 "label", JStr []);
                                (utf16 "group", JStr (utf16 "g"))]]);
                   (utf16 "links", JArr [])] in
  let g := mkData [plainNode (utf16 "n1") [] (utf16 "g")] [] in
  asGraphData doc = Some g
  /\ validate doc = Normal NodeWithoutIdOrLabel.
Proof.
  intros doc g.
  assert (E : asGraphData doc = Some g) by (vm_compute; reflexivity).
  split; [exact E |].
  exact (X5_typed_document_is_valid_iff_nodes_are_named doc g E).
Defined.

(* ===================================================================== *)
(** ** Further properties: links that name no node *)
(* ===================================================================== *)

Lemma find_pointwise {A : Type} (f g : A -> bool) (l : list A) :
  (forall a, f a = g a) -> find f l = find g l.
Proof.
  intros H. induction l as [| a l IH]; [reflexivity |].
  cbn [find]. now rewrite H, IH.
Qed.

Lemma readNode_insert_link (h : list obj) (l a : loc) (lk0 lk : Link loc) :
  readLinkObj h l = Some lk0 ->
  readNode (<[l := OLink lk]> h) a = readNode h a.
Proof.
  unfold readLinkObj, readNode. intros E.
  destruct (h !! l) as [[n | lk1] |] eqn:El; try discriminate.
  destruct (decide (l = a)) as [<- | Hne].
  - rewrite list_lookup_insert_eq by (eapply lookup_lt_Some; exact El).
    now rewrite El.
  - now rewrite list_lookup_insert_ne.
Qed.

Lemma readLinkObj_insert_other (h : list obj) (l l1 : loc) (o : obj) :
  l <> l1 -> readLinkObj (<[l := o]> h) l1 = readLinkObj h l1.
Proof. intros Hne. unfold readLinkObj. now rewrite list_lookup_insert_ne. Qed.

Lemma resolveEndpoint_insert_link (h : list obj) (ns : list loc) (l : loc)
      (lk0 lk : Link loc) (e : Endpoint loc) :
  readLinkObj h l = Some lk0 ->
  resolveEndpoint (<[l := OLink lk]> h) ns e = resolveEndpoint h ns e.
Proof.
  intros E. destruct e as [s | a]; [| reflexivity].
  unfold resolveEndpoint, nodeById. f_equal. apply find_pointwise.
  intros a. now rewrite (readNode_insert_link _ _ _ _ _ E).
Qed.

(** The link force finds its nodes when every link of the simulation
    has ends that resolve, and throws when one has not. *)
Lemma initializeLinks_succeeds (ns ls : list loc) :
  forall (i : nat) (h : list obj),
    NoDup ls ->
    (forall l, In l ls ->
               exists lk, readLinkObj h l = Some lk
                          /\ resolveEndpoint h ns (source lk) <> None
                          /\ resolveEndpoint h ns (target lk) <> None) ->
    exists h1, initializeLinks ns i ls h = Some h1.
Proof.
  induction ls as [| l rest IH]; intros i h Hnd Hall; [now exists h |].
  inversion Hnd as [| ? ? Hnotin Hnd1]; subst.
  destruct (Hall l (or_introl eq_refl)) as [lk [El [Hs Ht]]].
  cbn [initializeLinks]. rewrite El.
  destruct (resolveEndpoint h ns (source lk)) as [s |]; [| congruence].
  destruct (resolveEndpoint h ns (target lk)) as [t |]; [| congruence].
  apply IH; [exact Hnd1 |].
  intros l1 Hin. destruct (Hall l1 (or_intror Hin)) as [lk1 [E1 [Hs1 Ht1]]].
  exists lk1. rewrite !(resolveEndpoint_insert_link _ _ _ _ _ _ El).
  split; [| now split].
  rewrite readLinkObj_insert_other; [exact E1 |]. intros ->. apply Hnotin. now apply list_elem_of_In.
Qed.

Lemma initializeLinks_throws (ns ls : list loc) :
  forall (i : nat) (h : list obj),
    NoDup ls ->
    (forall l, In l ls -> exists lk, readLinkObj h l = Some lk) ->
    (exists l lk, In l ls /\ readLinkObj h l = Some lk
                  /\ (resolveEndpoint h ns (source lk) = None
                      \/ resolveEndpoint h ns (target lk) = None)) ->
    initializeLinks ns i ls h = None.
Proof.
  induction ls as [| l rest IH]; intros i h Hnd Hall Hbad.
  { destruct Hbad as [l [lk [[] _]]]. }
  inversion Hnd as [| ? ? Hnotin Hnd1]; subst.
  destruct (Hall l (or_introl eq_refl)) as [lk El].
  cbn [initializeLinks]. rewrite El.
  destruct (resolveEndpoint h ns (source lk)) as [s |] eqn:Es; [| reflexivity].
  destruct (resolveEndpoint h ns (target lk)) as [t |] eqn:Et; [| reflexivity].
  apply IH; [exact Hnd1 | |].
  - intros l1 Hin. destruct (Hall l1 (or_intror Hin)) as [lk1 E1].
    exists lk1. rewrite readLinkObj_insert_other; [exact E1 |].
    intros ->. apply Hnotin. now apply list_elem_of_In.
  - destruct Hbad as [l0 [lk0 [[<- | Hin] [E0 Hnone]]]].
    + assert (lk0 = lk) by congruence. subst lk0.
      destruct Hnone; congruence.
    + exists l0, lk0. split; [exact Hin |].
      rewrite !(resolveEndpoint_insert_link _ _ _ _ _ _ El).
      split; [| exact Hnone].
      rewrite readLinkObj_insert_other; [exact E0 |]. intros ->. apply Hnotin. now apply list_elem_of_In.
Qed.

(** *** The objects of the links of a stored graph *)

Lemma readEndpoint_sameEnd (h : list obj) (e : Endpoint loc)
      (v : Endpoint GraphNode) :
  readEndpoint h e = Some v -> sameEnd e v.
Proof.
  destruct e as [s | a]; simpl.
  - intros E. now injection E as <-.
  - destruct (readNode h a); simpl; [| discriminate].
    intros E. now injection E as <-.
Qed.

Lemma readLink_sameEnd (h : list obj) (a : loc) (L : GraphLink) :
  readLink h a = Some L ->
  exists lk, h !! a = Some (OLink lk)
             /\ sameEnd (source lk) (source L)
             /\ sameEnd (target lk) (target L).
Proof.
  unfold readLink, readLinkObj.
  destruct (h !! a) as [[n | lk] |]; try discriminate.
  destruct (readEndpoint h (source lk)) as [s |] eqn:Es; [| discriminate].
  destruct (readEndpoint h (target lk)) as [t |] eqn:Et; [| discriminate].
  intros E. injection E as <-. exists lk. split; [reflexivity |].
  split; [exact (readEndpoint_sameEnd _ _ _ Es)
         | exact (readEndpoint_sameEnd _ _ _ Et)].
Qed.

Lemma stored_links (h h1 : list obj) (g : GraphData) (d : DataRef) :
  storeData h g = (h1, d) ->
  exists lks,
    Forall2 (fun a lk => h1 !! a = Some (OLink lk)) (linkRefs d) lks
    /\ Forall2 (fun lk L => sameEnd (source lk) (source L)
                            /\ sameEnd (target lk) (target L))
               lks (links g).
Proof.
  intros E. destruct (storeData_spec _ _ _ _ E) as [_ [_ [_ [Rl _]]]].
  induction Rl as [| a L refs Ls Ha _ IH].
  - exists []. split; constructor.
  - destruct IH as [lks [H1 H2]].
    destruct (readLink_sameEnd _ _ _ Ha) as [lk [Hlk Hends]].
    exists (lk :: lks). split; now constructor.
Qed.

Lemma initializeNode_id {ly : Layout} (i : nat) (n : GraphNode) :
  id (initializeNode i n) = id n.
Proof.
  unfold initializeNode.
  destruct (isNaN _ || isNaN _); destruct (isNaN (vx n) || isNaN (vy n));
    reflexivity.
Qed.

(** In the store of a new simulation, an id is found by the link force
    exactly when a node of the graph has it. *)
Lemma nodeById_copies {ly : Layout} (h0 : list obj) (ns : list GraphNode)
      (ext : list obj) (s : jsstring) :
  nodeById (h0 ++ map ONode (imap initializeNode ns) ++ ext)
           (seq (length h0) (length ns)) s <> None
  <-> In s (map id ns).
Proof.
  pose proof (stored_nodes (imap initializeNode ns) h0 ext) as Hst.
  rewrite length_imap in Hst.
  set (h3 := h0 ++ map ONode (imap initializeNode ns) ++ ext) in *.
  unfold nodeById. split.
  - intros Hf.
    destruct (find _ (rev (seq (length h0) (length ns)))) as [l |] eqn:E;
      [| congruence].
    apply find_some in E as [Hin Hl]. apply in_rev in Hin.
    apply list_elem_of_In, list_elem_of_lookup in Hin as [j Hj].
    destruct (Forall2_lookup_l _ _ _ _ _ Hst Hj) as [m [Hm Hr]].
    rewrite Hr in Hl. apply str_eqb_true in Hl.
    apply list_lookup_imap_Some in Hm as [n [Hn ->]].
    rewrite initializeNode_id in Hl. subst s.
    apply in_map. eapply list_elem_of_In, list_elem_of_lookup_2, Hn.
  - intros Hin. apply in_map_iff in Hin as [n [<- Hn]].
    apply list_elem_of_In, list_elem_of_lookup in Hn as [j Hj].
    assert (Hm : imap initializeNode ns !! j = Some (initializeNode j n)).
    { apply list_lookup_imap_Some. now exists n. }
    destruct (Forall2_lookup_r _ _ _ _ _ Hst Hm) as [l [Hl Hr]].
    intros Hnone.
    assert (Hin : In l (rev (seq (length h0) (length ns)))).
    { apply in_rev. rewrite rev_involutive.
      eapply list_elem_of_In, list_elem_of_lookup_2, Hl. }
    pose proof (find_none _ _ Hnone l Hin) as Hf. cbv beta in Hf.
    rewrite Hr, initializeNode_id, str_eqb_refl in Hf. discriminate Hf.
Qed.

Lemma linkCopy_read (pre : list obj) (lks : list (Link loc)) (j : nat)
      (lk : Link loc) :
  lks !! j = Some lk ->
  readLinkObj (pre ++ map OLink lks) (length pre + j) = Some lk.
Proof.
  intros E. unfold readLinkObj.
  rewrite lookup_app_r by lia.
  replace (length pre + j - length pre) with j by lia.
  now rewrite list_lookup_fmap, E.
Qed.

(** A run of the simulation effect on a graph that was just stored and
    has nodes comes down to the link force on the copies. *)
Lemma simulationEffect_links {ly : Layout} (h : list obj) (g : GraphData)
      (w0 : World) :
  storeData h g = (heap w0, graphData (app w0)) ->
  nodes g <> [] ->
  exists lks,
    Forall2 (fun lk L => sameEnd (source lk) (source L)
                         /\ sameEnd (target lk) (target L))
            lks (links g)
    /\ (initializeLinks (seq (length (heap w0)) (length (nodes g))) 0
                        (seq (length (heap w0) + length (nodes g)) (length lks))
                        (heap w0 ++ map ONode (imap initializeNode (nodes g))
                                 ++ map OLink lks) = None ->
        simulationEffect w0 = NodeNotFound)
    /\ (forall h4,
           initializeLinks (seq (length (heap w0)) (length (nodes g))) 0
                           (seq (length (heap w0) + length (nodes g))
                                (length lks))
                           (heap w0 ++ map ONode (imap initializeNode (nodes g))
                                    ++ map OLink lks) = Some h4 ->
           exists w2, simulationEffect w0 = Done w2).
Proof.
  intros Hs Hne.
  destruct (stored_links _ _ _ _ Hs) as [lks [Hobj Hends]].
  exists lks. split; [exact Hends |].
  unfold simulationEffect.
  destruct (storeData_spec _ _ _ _ Hs) as [_ [Hrefs [Rn _]]].
  destruct (nodeRefs (graphData (app w0))) as [| r rest] eqn:Hn.
  { destruct (nodes g); [congruence | discriminate]. }
  rewrite <- Hn in Hrefs, Rn. rewrite <- Hn.
  assert (Hobjs : Forall2 (fun r o => heap w0 !! r = Some o)
                          (nodeRefs (graphData (app w0)))
                          (map ONode (nodes g))).
  { apply Forall2_fmap_r. eapply Forall2_impl; [exact Rn |].
    simpl. intros a n. unfold readNode.
    destruct (heap w0 !! a) as [[m | lk] |]; congruence. }
  rewrite (copyAll_valid _ _ _ Hobjs).
  assert (Hlen : length (nodeRefs (graphData (app w0))) = length (nodes g)).
  { rewrite Hrefs. apply length_seq. }
  rewrite Hlen.
  assert (Hlobjs : Forall2 (fun r o => (heap w0 ++ map ONode (nodes g)) !! r
                                       = Some o)
                           (linkRefs (graphData (app w0))) (map OLink lks)).
  { apply Forall2_fmap_r. eapply Forall2_impl; [exact Hobj |].
    simpl. intros a lk E. now apply lookup_app_l_Some. }
  rewrite (copyAll_valid _ _ _ Hlobjs).
  rewrite (Forall2_length _ _ _ Hobj).
  rewrite length_app, length_map, <- app_assoc, initializeNodes_copies.
  change (imap (fun j : nat => initializeNode (0 + j)) (nodes g))
    with (imap initializeNode (nodes g)).
  split.
  - intros E. now rewrite E.
  - intros h4 E. rewrite E. eauto.
Qed.

Lemma knownEnd_dec (g : GraphData) (e : Endpoint GraphNode) :
  {knownEnd g e} + {~ knownEnd g e}.
Proof.
  destruct e as [s | n]; simpl; [| now left].
  apply in_dec. apply list_eq_dec.
Qed.

(** Whether the effect ends or throws, for a graph that was just stored
    and has nodes. *)
Lemma simulationEffect_decided {ly : Layout} (h : list obj) (g : GraphData)
      (w0 : World) :
  storeData h g = (heap w0, graphData (app w0)) ->
  nodes g <> [] ->
  (closed g -> exists w2, simulationEffect w0 = Done w2)
  /\ (~ closed g -> simulationEffect w0 = NodeNotFound).
Proof.
  intros Hs Hne.
  destruct (simulationEffect_links _ _ _ Hs Hne) as [lks [Hends [Hnone Hsome]]].
  set (ns := seq (length (heap w0)) (length (nodes g))) in *.
  set (h3 := heap w0 ++ map ONode (imap initializeNode (nodes g))
                  ++ map OLink lks) in *.
  assert (Hres : forall e v, sameEnd e v ->
                             (resolveEndpoint h3 ns e <> None <-> knownEnd g v)).
  { intros [s | a] [t | n] Hsame; simpl in Hsame; try contradiction.
    - subst t. cbn [resolveEndpoint knownEnd].
      rewrite <- (nodeById_copies (heap w0) (nodes g) (map OLink lks) s).
      fold ns h3. destruct (nodeById h3 ns s); simpl; split; congruence.
    - simpl. split; [trivial | discriminate]. }
  assert (Hread : forall j lk, lks !! j = Some lk ->
                               readLinkObj h3 (length (heap w0)
                                               + length (nodes g) + j)
                               = Some lk).
  { intros j lk E. subst h3. rewrite app_assoc.
    rewrite <- (linkCopy_read (heap w0 ++ map ONode (imap initializeNode (nodes g)))
                              lks j lk E).
    f_equal. rewrite length_app, length_map, length_imap. lia. }
  split.
  - intros Hclosed.
    destruct (initializeLinks_succeeds ns
                (seq (length (heap w0) + length (nodes g)) (length lks)) 0 h3)
      as [h4 E]; [apply NoDup_seq | | exact (Hsome h4 E)].
    intros l Hin. apply list_elem_of_In, list_elem_of_lookup in Hin as [j Hj].
    apply lookup_seq in Hj as [-> Hlt].
    destruct (lookup_lt_is_Some_2 lks j Hlt) as [lk Hlk].
    exists lk. split; [now apply Hread |].
    destruct (Forall2_lookup_l _ _ _ _ _ Hends Hlk) as [L [HL [H1 H2]]].
    unfold closed in Hclosed. rewrite Forall_forall in Hclosed.
    destruct (Hclosed L (list_elem_of_lookup_2 _ _ _ HL)) as [K1 K2].
    split; [now apply (Hres _ _ H1) | now apply (Hres _ _ H2)].
  - intros Hopen. apply Hnone.
    apply initializeLinks_throws; [apply NoDup_seq | |].
    + intros l Hin. apply list_elem_of_In, list_elem_of_lookup in Hin as [j Hj].
      apply lookup_seq in Hj as [-> Hlt].
      destruct (lookup_lt_is_Some_2 lks j Hlt) as [lk Hlk].
      exists lk. now apply Hread.
    + unfold closed in Hopen.
      apply neg_Forall_Exists_neg in Hopen.
      2: { intros L. destruct (knownEnd_dec g (source L));
             destruct (knownEnd_dec g (target L)); tauto. }
      apply Exists_exists in Hopen as [L [HL Hbad]].
      apply list_elem_of_lookup in HL as [j Hj].
      destruct (Forall2_lookup_r _ _ _ _ _ Hends Hj) as [lk [Hlk [H1 H2]]].
      exists (length (heap w0) + length (nodes g) + j), lk.
      split; [| split; [now apply Hread |]].
      * apply list_elem_of_In, list_elem_of_lookup. exists j.
        apply lookup_seq. split; [reflexivity |].
        eapply lookup_lt_Some, Hlk.
      * destruct (resolveEndpoint h3 ns (source lk)) eqn:Es; [| now left].
        destruct (resolveEndpoint h3 ns (target lk)) eqn:Et; [| now right].
        exfalso. apply Hbad. split.
        -- apply (Hres _ _ H1). congruence.
        -- apply (Hres _ _ H2). congruence.
Qed.

(** X7. A graph put in the state by a generation or an import is not
    checked for its links. When it has nodes and every link names, by
    id, nodes of the graph (or gives node objects), the event ends; when
    one link names an id that no node has, the simulation effect throws
    [node not found] and the page is lost. A graph without nodes is
    accepted whatever its links, since the effect returns early. *)
Theorem X7_dangling_link_stops_the_render {rt : Runtime} {ly : Layout} :
  forall (w : World) (e : Event) (g : GraphData),
    replacement w e = Some g ->
    (nodes g = [] -> exists w1, step w e = Done w1)
    /\ (nodes g <> [] -> closed g -> exists w1, step w e = Done w1)
    /\ (nodes g <> [] -> ~ closed g -> step w e = NodeNotFound).
Proof.
  intros w e g Hrep.
  destruct (replacing_step _ _ _ Hrep) as [w0 [Hstep [Hs _]]].
  rewrite Hstep. unfold commit. split_and!.
  - intros Hempty.
    destruct (storeData_spec _ _ _ _ Hs) as [_ [Hrefs _]].
    rewrite Hempty in Hrefs. rewrite (simulationEffect_empty _ Hrefs). eauto.
  - intros Hne Hclosed.
    destruct (proj1 (simulationEffect_decided _ _ _ Hs Hne) Hclosed) as [w2 E].
    rewrite E. eauto.
  - intros Hne Hopen.
    now rewrite (proj2 (simulationEffect_decided _ _ _ Hs Hne) Hopen).
Qed.

(** A file with one node and a link to the id [zz], which no node has,
    passes the checks, and the page that imports it is lost. *)
Lemma X7_witness :
  let a := JObj [(utf16 "id", JStr (utf16 "a"));
                 (utf16 "label", JStr (utf16 "A"));
                 (utf16 "group", JStr (utf16 "g"))] in
  let l := JObj [(utf16 "source", JStr (utf16 "a"));
                 (utf16 "target", JStr (utf16 "zz"));
                 (utf16 "relation", JStr (utf16 "r"))] in
  let doc := JObj [(utf16 "nodes", JArr [a]); (utf16 "links", JArr [l])] in
  let g := mkData [plainNode (utf16 "a") (utf16 "A") (utf16 "g")]
                  [plainLink (utf16 "a") (utf16 "zz") (utf16 "r")] in
  let f := mkFile (utf16 "graph.json") 120 (utf16 "{ }") in
  validate doc = Normal Valid
  /\ replacement (rt := exampleRuntime (Some doc)) unmounted (Upload (Some f))
     = Some g
  /\ nodes g <> []
  /\ ~ closed g
  /\ step (rt := exampleRuntime (Some doc)) (ly := exampleLayout) unmounted
          (Upload (Some f)) = NodeNotFound.
Proof.
  intros a l doc g f.
  assert (Hrep : replacement (rt := exampleRuntime (Some doc)) unmounted
                             (Upload (Some f)) = Some g)
    by (vm_compute; reflexivity).
  assert (Hne : nodes g <> []) by discriminate.
  assert (Hopen : ~ closed g).
  { intros H. inversion H as [| ? ? [_ Ht] _]; subst.
    simpl in Ht. destruct Ht as [Ht | []]. vm_compute in Ht. discriminate Ht. }
  split; [vm_compute; reflexivity |].
  split; [exact Hrep |]. split; [exact Hne |]. split; [exact Hopen |].
  exact (proj2 (proj2 (X7_dangling_link_stops_the_render
                         (rt := exampleRuntime (Some doc))
                         (ly := exampleLayout) unmounted (Upload (Some f)) g
                         Hrep)) Hne Hopen).
Defined.

(** The effects that follow [setGraphData(g)] end when every link of [g]
    names nodes of [g]. *)
Lemma replacement_ends {rt : Runtime} {ly : Layout} (h : list obj)
      (g : GraphData) (w0 : World) :
  storeData h g = (heap w0, graphData (app w0)) ->
  closed g -> exists w1, commit true true w0 = Done w1.
Proof.
  intros Hs Hclosed. unfold commit.
  destruct (nodes g) as [| n rest] eqn:Hn.
  - destruct (storeData_spec _ _ _ _ Hs) as [_ [Hrefs _]].
    rewrite Hn in Hrefs. rewrite (simulationEffect_empty _ Hrefs). eauto.
  - assert (Hne : nodes g <> []) by (rewrite Hn; discriminate).
    destruct (proj1 (simulationEffect_decided _ _ _ Hs Hne) Hclosed) as [w2 E].
    rewrite E. eauto.
Qed.

(* ===================================================================== *)
(** ** Replacing the graph: the old simulation and the search text *)
(* ===================================================================== *)

(** *** A simulation that was stopped by a replacement stays stopped *)

Lemma retired_view (s : nat) (old : Simulation) (v v1 : ViewState) :
  sims v1 = sims v -> drawnBy (svg v1) = drawnBy (svg v) ->
  retired s old v -> retired s old v1.
Proof. unfold retired. intros -> ->. trivial. Qed.

Lemma runCleanup_retired (s : nat) (old : Simulation) (v : ViewState) :
  retired s old v -> retired s old (runCleanup v).
Proof.
  intros [Hs Hd]. unfold retired. rewrite runCleanup_svg. split; [| exact Hd].
  unfold runCleanup. destruct (cleanup v) as [c |]; [| exact Hs]. simpl.
  destruct (decide (c = s)) as [-> | Hne].
  - rewrite list_lookup_alter_eq, Hs. reflexivity.
  - now rewrite list_lookup_alter_ne.
Qed.

Lemma simulationEffect_retired {ly : Layout} (s : nat) (old : Simulation)
      (w w1 : World) :
  simulationEffect w = Done w1 ->
  retired s old (view w) -> retired s old (view w1).
Proof.
  unfold simulationEffect. intros E Hr. apply runCleanup_retired in Hr.
  destruct (nodeRefs (graphData (app w))) as [| r rest].
  - injection E as <-. exact Hr.
  - destruct (copyAll (heap w) (r :: rest)) as [h1 ns].
    destruct (copyAll h1 (linkRefs (graphData (app w)))) as [h2 ls].
    destruct (initializeLinks ns 0 ls (initializeNodes 0 ns h2)) as [h4 |];
      [| discriminate].
    injection E as <-. destruct Hr as [Hs Hd]. unfold retired. simpl.
    split; [now apply lookup_app_l_Some |].
    eexists. split; [reflexivity |]. eapply lookup_lt_Some, Hs.
Qed.

Lemma highlightEffect_retired {rt : Runtime} (s : nat) (old : Simulation)
      (w : World) :
  retired s old (view w) -> retired s old (view (highlightEffect w)).
Proof.
  destruct (highlightEffect_frame w) as [_ [_ [_ [_ [Hsims _]]]]].
  destruct (drawing_data _ _ (highlightEffect_drawing w)) as [Hd _].
  now apply retired_view.
Qed.

Lemma commit_retired {rt : Runtime} {ly : Layout} (s : nat) (old : Simulation)
      (a b : bool) (w w1 : World) :
  commit a b w = Done w1 ->
  retired s old (view w) -> retired s old (view w1).
Proof.
  unfold commit. intros E Hr. destruct a.
  - destruct (simulationEffect w) as [w2 | |] eqn:Es; try discriminate.
    injection E as <-. apply highlightEffect_retired.
    eapply simulationEffect_retired; eassumption.
  - destruct b; injection E as <-;
      [now apply highlightEffect_retired | exact Hr].
Qed.

Lemma dragTarget_drawnBy (w : World) (i s : nat) (d : loc) :
  dragTarget w i = Some (s, d) -> drawnBy (svg (view w)) = Some s.
Proof.
  unfold dragTarget. destruct (drawnBy (svg (view w))) as [s0 |];
    [| discriminate].
  destruct (nodeElems (svg (view w)) !! i); [| discriminate].
  intros E. now injection E as <- _.
Qed.

Lemma retired_alter (s s0 : nat) (old : Simulation) (f : Simulation -> Simulation)
      (v : ViewState) :
  drawnBy (svg v) = Some s0 ->
  retired s old v -> retired s old (withSims (alter f s0 (sims v)) v).
Proof.
  intros Hd [Hs [d [Hd1 Hlt]]]. unfold retired. simpl. split; [| eauto].
  rewrite list_lookup_alter_ne; [exact Hs |].
  rewrite Hd in Hd1. injection Hd1 as ->. lia.
Qed.

Lemma step_retired {rt : Runtime} {ly : Layout} (s : nat) (old : Simulation)
      (w : World) (e : Event) (w1 : World) :
  step w e = Done w1 -> retired s old (view w) -> retired s old (view w1).
Proof.
  intros E Hr. destruct e; simpl in E.
  - destruct (loading (status (app w))); [now injection E as <- |].
    unfold handleGenerate in E.
    destruct (nonEmpty (trim (query (app w)))); [| now injection E as <-].
    eapply commit_retired; [exact E | exact Hr].
  - injection E as <-. unfold serviceSettled.
    destruct (inflight w !! i) as [[| d] |]; try exact Hr.
    destruct (generateKnowledgeGraph r); exact Hr.
  - unfold graphBuilt in E.
    destruct (inflight w !! i) as [[| d] |]; try (now injection E as <-).
    destruct (asGraphData d) as [g |]; [| discriminate].
    eapply commit_retired; [exact E |].
    destruct (setGraphData_stores g w) as [_ [Hv _]].
    simpl. now rewrite Hv.
  - unfold handleFileUpload in E.
    destruct file as [f |]; [| now injection E as <-].
    destruct (sizeLimit <? size f)%N; [now injection E as <- |].
    destruct (endsWith (toLowerCase (name f)) (utf16 ".json"));
      [| now injection E as <-].
    apply importJson_cases in E.
    destruct E as [[msg [-> _]] | [doc [g [_ [_ [_ Hc]]]]]]; [exact Hr |].
    eapply commit_retired; [exact Hc |].
    destruct (setGraphData_stores g w) as [_ [Hv _]].
    simpl. now rewrite Hv.
  - now injection E as <-.
  - unfold clickNode in E.
    destruct (nodeElems (svg (view w)) !! i); [| now injection E as <-].
    eapply commit_retired; [exact E | exact Hr].
  - unfold followLink in E.
    destruct (relatedLinks w !! i) as [l |]; [| now injection E as <-].
    destruct (otherNode w l); [| now injection E as <-].
    eapply commit_retired; [exact E | exact Hr].
  - eapply commit_retired; [exact E | exact Hr].
  - eapply commit_retired; [exact E | exact Hr].
  - eapply commit_retired; [exact E | exact Hr].
  - injection E as <-. unfold zoomed.
    destruct (zoomRef (view w)); exact Hr.
  - injection E as <-. unfold dragstarted.
    destruct (dragTarget w i) as [[s0 d] |] eqn:Et; [| exact Hr].
    destruct active; [exact Hr |]. simpl.
    apply retired_alter; [| exact Hr]. eapply dragTarget_drawnBy, Et.
  - injection E as <-. unfold dragged.
    destruct (dragTarget w i) as [[s0 d] |]; exact Hr.
  - injection E as <-. unfold dragended.
    destruct (dragTarget w i) as [[s0 d] |] eqn:Et; [| exact Hr].
    destruct active; [exact Hr |]. simpl.
    apply retired_alter; [| exact Hr]. eapply dragTarget_drawnBy, Et.
  - injection E as <-. unfold tick.
    destruct (sims (view w) !! s0) as [sim |]; [| exact Hr].
    destruct (running sim); [| exact Hr].
    eapply retired_view; [| | exact Hr]; [reflexivity |]. simpl.
    now destruct (bool_decide _).
Qed.

Lemma run_retired {rt : Runtime} {ly : Layout} (s : nat) (old : Simulation)
      (es : list Event) :
  forall (w w1 : World),
    run w es = Done w1 -> retired s old (view w) -> retired s old (view w1).
Proof.
  induction es as [| e es IH]; intros w w1; simpl.
  - intros E. now injection E as <-.
  - destruct (step w e) as [w2 | |] eqn:Es; try discriminate.
    intros E Hr. eapply IH; [exact E |].
    eapply step_retired; eassumption.
Qed.

Lemma retired_tick (s : nat) (old : Simulation) (w : World) :
  retired s old (view w) -> forall f, tick s f w = w.
Proof. intros [Hs _] f. unfold tick. now rewrite Hs. Qed.

(** *** The pass that follows a replacement finds its data *)

Lemma readEndpoint_insert_link (h : list obj) (l : loc) (lk0 lk : Link loc)
      (e : Endpoint loc) :
  readLinkObj h l = Some lk0 ->
  readEndpoint (<[l := OLink lk]> h) e = readEndpoint h e.
Proof.
  intros E. destruct e as [key | a]; [reflexivity |]. simpl.
  now rewrite (readNode_insert_link _ _ _ _ _ E).
Qed.

Lemma resolveEndpoint_readable (h : list obj) (ns : list loc)
      (e e1 : Endpoint loc) :
  readEndpoint h e <> None ->
  resolveEndpoint h ns e = Some e1 -> readEndpoint h e1 <> None.
Proof.
  destruct e as [key | a]; simpl.
  - intros _. destruct (nodeById h ns key) as [n |] eqn:E; [| discriminate].
    simpl. intros E1. injection E1 as <-.
    unfold nodeById in E. apply find_some in E as [_ Hn]. simpl.
    destruct (readNode h n); [discriminate | discriminate Hn].
  - intros H E. injection E as <-. exact H.
Qed.

(** The links of a simulation can be read after the link force has
    resolved their ends. *)
Lemma initializeLinks_readable (ns all ls : list loc) :
  forall (i : nat) (h h1 : list obj),
    (forall l, In l ls -> In l all) ->
    (forall l, In l all ->
               exists lk, readLinkObj h l = Some lk
                          /\ readEndpoint h (source lk) <> None
                          /\ readEndpoint h (target lk) <> None) ->
    initializeLinks ns i ls h = Some h1 ->
    forall l, In l all ->
              exists lk, readLinkObj h1 l = Some lk
                         /\ readEndpoint h1 (source lk) <> None
                         /\ readEndpoint h1 (target lk) <> None.
Proof.
  induction ls as [| l rest IH]; intros i h h1 Hsub Hall E.
  - injection E as <-. exact Hall.
  - cbn [initializeLinks] in E.
    destruct (Hall l (Hsub l (or_introl eq_refl))) as [lk [El [Hs Ht]]].
    rewrite El in E.
    destruct (resolveEndpoint h ns (source lk)) as [s |] eqn:Es;
      [| discriminate].
    destruct (resolveEndpoint h ns (target lk)) as [t |] eqn:Et;
      [| discriminate].
    eapply IH; [| | exact E].
    + intros l1 H1. apply Hsub. now right.
    + intros l1 H1. destruct (decide (l1 = l)) as [-> | Hne].
      * eexists. split.
        { unfold readLinkObj. rewrite list_lookup_insert_eq; [reflexivity |].
          unfold readLinkObj in El.
          destruct (h !! l) eqn:X; [eapply lookup_lt_Some, X | discriminate]. }
        simpl. rewrite !(readEndpoint_insert_link _ _ _ _ _ El).
        split; [exact (resolveEndpoint_readable _ _ _ _ Hs Es)
               | exact (resolveEndpoint_readable _ _ _ _ Ht Et)].
      * destruct (Hall l1 H1) as [lk1 [E1 [Hs1 Ht1]]]. exists lk1.
        rewrite readLinkObj_insert_other by congruence.
        rewrite !(readEndpoint_insert_link _ _ _ _ _ El). now split_and!.
Qed.

Lemma readable_link (h : list obj) (l : loc) (lk : Link loc) :
  readLinkObj h l = Some lk ->
  readEndpoint h (source lk) <> None ->
  readEndpoint h (target lk) <> None ->
  is_Some (readLink h l).
Proof.
  intros El Hs Ht. unfold readLink. rewrite El.
  destruct (readEndpoint h (source lk)); [| congruence].
  destruct (readEndpoint h (target lk)); [| congruence].
  eauto.
Qed.

(** A run of the simulation effect on a graph that was just stored and
    has nodes: the store it ends with and the data of the lines and of the
    relation labels. *)
Lemma simulationEffect_shape {ly : Layout} (h : list obj) (g : GraphData)
      (w0 w2 : World) :
  storeData h g = (heap w0, graphData (app w0)) ->
  nodes g <> [] ->
  simulationEffect w0 = Done w2 ->
  exists lks,
    Forall2 (fun a lk => heap w0 !! a = Some (OLink lk))
            (linkRefs (graphData (app w0))) lks
    /\ initializeLinks (seq (length (heap w0)) (length (nodes g))) 0
                       (seq (length (heap w0) + length (nodes g)) (length lks))
                       (heap w0 ++ map ONode (imap initializeNode (nodes g))
                                ++ map OLink lks)
       = Some (heap w2)
    /\ map lineDatum (lineElems (svg (view w2)))
       = seq (length (heap w0) + length (nodes g)) (length lks)
    /\ map textDatum (textElems (svg (view w2)))
       = seq (length (heap w0) + length (nodes g)) (length lks).
Proof.
  intros Hs Hne Esim.
  destruct (stored_links _ _ _ _ Hs) as [lks [Hobj Hends]].
  exists lks. split; [exact Hobj |].
  revert Esim. unfold simulationEffect.
  destruct (storeData_spec _ _ _ _ Hs) as [_ [Hrefs [Rn _]]].
  destruct (nodeRefs (graphData (app w0))) as [| r rest] eqn:Hn.
  { destruct (nodes g); [congruence | discriminate]. }
  rewrite <- Hn in Hrefs, Rn. rewrite <- Hn.
  assert (Hobjs : Forall2 (fun r o => heap w0 !! r = Some o)
                          (nodeRefs (graphData (app w0)))
                          (map ONode (nodes g))).
  { apply Forall2_fmap_r. eapply Forall2_impl; [exact Rn |].
    simpl. intros a n. unfold readNode.
    destruct (heap w0 !! a) as [[m | lk] |]; congruence. }
  rewrite (copyAll_valid _ _ _ Hobjs).
  assert (Hlen : length (nodeRefs (graphData (app w0))) = length (nodes g)).
  { rewrite Hrefs. apply length_seq. }
  rewrite Hlen.
  assert (Hlobjs : Forall2 (fun r o => (heap w0 ++ map ONode (nodes g)) !! r
                                       = Some o)
                           (linkRefs (graphData (app w0))) (map OLink lks)).
  { apply Forall2_fmap_r. eapply Forall2_impl; [exact Hobj |].
    simpl. intros a lk E. now apply lookup_app_l_Some. }
  rewrite (copyAll_valid _ _ _ Hlobjs).
  rewrite (Forall2_length _ _ _ Hobj).
  rewrite length_app, length_map, <- app_assoc, initializeNodes_copies.
  change (imap (fun j : nat => initializeNode (0 + j)) (nodes g))
    with (imap initializeNode (nodes g)).
  destruct (initializeLinks _ 0 _ _) as [h4 |]; [| discriminate].
  intros E. injection E as <-. simpl.
  split_and!; [reflexivity | |]; rewrite map_map; simpl; apply map_id.
Qed.

(** After that run every element on screen has its datum in the store,
    so the highlighting pass is computed. *)
Lemma replacement_bound {ly : Layout} (h : list obj) (g : GraphData)
      (w0 w2 : World) :
  storeData h g = (heap w0, graphData (app w0)) ->
  nodes g <> [] ->
  simulationEffect w0 = Done w2 ->
  boundNodes w2 = Some (imap initializeNode (nodes g))
  /\ exists ld, boundLines w2 = Some ld /\ boundTexts w2 = Some ld.
Proof.
  intros Hs Hne Esim.
  destruct (simulationEffect_started _ _ _ _ Hs Hne Esim)
    as [sim [_ [_ [_ [_ [_ [S6 S7]]]]]]].
  destruct (simulationEffect_shape _ _ _ _ Hs Hne Esim)
    as [lks [Hobj [Hinit [Hlines Htexts]]]].
  split; [unfold boundNodes; now rewrite S6 |].
  set (base := length (heap w0) + length (nodes g)) in *.
  set (h3 := heap w0 ++ map ONode (imap initializeNode (nodes g))
                  ++ map OLink lks) in *.
  assert (Hfirst : forall l, In l (seq base (length lks)) ->
                             exists lk, readLinkObj h3 l = Some lk
                                        /\ readEndpoint h3 (source lk) <> None
                                        /\ readEndpoint h3 (target lk) <> None).
  { intros l Hin.
    apply list_elem_of_In, list_elem_of_lookup in Hin as [j Hj].
    apply lookup_seq in Hj as [-> Hlt].
    destruct (lookup_lt_is_Some_2 lks j Hlt) as [lk Hlk].
    exists lk.
    assert (El : readLinkObj h3 (base + j) = Some lk).
    { subst h3 base. rewrite app_assoc.
      rewrite <- (linkCopy_read
                    (heap w0 ++ map ONode (imap initializeNode (nodes g)))
                    lks j lk Hlk).
      f_equal. rewrite length_app, length_map, length_imap. lia. }
    split; [exact El |].
    destruct (storeData_spec _ _ _ _ Hs) as [_ [_ [_ [Rl _]]]].
    destruct (Forall2_lookup_r _ _ _ _ _ Hobj Hlk) as [a [Ha Hlka]].
    destruct (Forall2_lookup_l _ _ _ _ _ Rl Ha) as [L [_ HL]].
    unfold readLink, readLinkObj in HL. rewrite Hlka in HL.
    destruct (readEndpoint (heap w0) (source lk)) as [es |] eqn:Es;
      [| discriminate].
    destruct (readEndpoint (heap w0) (target lk)) as [et |] eqn:Et;
      [| discriminate].
    subst h3.
    rewrite (readEndpoint_app _ _ _ _ Es), (readEndpoint_app _ _ _ _ Et).
    split; discriminate. }
  assert (Hread : forall l, In l (seq base (length lks)) ->
                            is_Some (readLink (heap w2) l)).
  { intros l Hin.
    destruct (initializeLinks_readable _ (seq base (length lks)) _ _ _ _
                (fun l H => H) Hfirst Hinit l Hin)
      as [lk [El [H1 H2]]].
    now apply (readable_link _ _ lk). }
  assert (Hall : Forall (is_Some ∘ readLink (heap w2)) (seq base (length lks))).
  { apply Forall_forall. intros l Hl. apply Hread. now apply list_elem_of_In. }
  destruct (mapM_is_Some_2 _ _ Hall) as [ld Hld]. exists ld.
  unfold boundLines, boundTexts. now rewrite Hlines, Htexts.
Qed.

Lemma initializeNode_label {ly : Layout} (i : nat) (n : GraphNode) :
  label (initializeNode i n) = label n.
Proof.
  unfold initializeNode.
  destruct (isNaN _ || isNaN _); destruct (isNaN (vx n) || isNaN (vy n));
    reflexivity.
Qed.

Lemma highlightEffect_bound {rt : Runtime} (w : World) :
  boundLines (highlightEffect w) = boundLines w
  /\ boundTexts (highlightEffect w) = boundTexts w
  /\ selected (highlightEffect w) = selected w
  /\ dataProp (highlightEffect w) = dataProp w.
Proof.
  destruct (highlightEffect_frame w) as [Hh [Ha _]].
  pose proof (highlightEffect_drawing w) as Hd. unfold drawing in Hd.
  injection Hd as _ _ Hl Ht.
  apply (f_equal (map (fun t => fst (fst t)))) in Hl.
  apply (f_equal (map fst)) in Ht. rewrite !map_map in Hl, Ht.
  unfold boundLines, boundTexts, selected, dataProp.
  cbn [fst] in Hl, Ht. rewrite Hh, Ha. split_and!; try reflexivity.
  - f_equal. exact Hl.
  - f_equal. exact Ht.
Qed.

(** With a text in the search box, the pass that follows a replacement
    by a graph with nodes is the one of that text on the new graph: it
    leaves at full opacity the nodes of the new graph whose label contains
    the text and dims the others, and it styles the lines and the relation
    labels by the rule of the links. *)
Lemma replacement_pass {rt : Runtime} {ly : Layout} (h : list obj)
      (g : GraphData) (w0 w2 : World) :
  storeData h g = (heap w0, graphData (app w0)) ->
  nodes g <> [] ->
  simulationEffect w0 = Done w2 ->
  filterText (view w0) <> [] ->
  let w1 := highlightEffect w2 in
  let text := filterText (view w0) in
  map opacity (nodeElems (svg (view w1)))
  = map (fun n => Some (if labelMatches text n then 1%Q else (1 # 10)%Q))
        (nodes g)
  /\ exists ld,
      boundLines w1 = Some ld
      /\ boundTexts w1 = Some ld
      /\ map (fun e => (lineOpacity e, stroke e)) (lineElems (svg (view w1)))
         = map (fun l => (Some (linkOpacity text (selected w1) g l),
                          linkStroke text (selected w1) g l)) ld
      /\ map textOpacity (textElems (svg (view w1)))
         = map (fun l => Some (linkOpacity text (selected w1) g l)) ld.
Proof.
  intros Hs Hne Esim Htext w1 text. subst w1 text.
  destruct (replacement_bound _ _ _ _ Hs Hne Esim) as [Hn [ld [Hl Ht]]].
  destruct (simulationEffect_frame _ _ Esim) as [Hk [Ha [_ [Hf _]]]].
  destruct (highlightEffect_bound w2) as [Bl [Bt [Bs _]]].
  assert (Hdata : dataProp w2 = g).
  { destruct (storeData_spec _ _ _ _ Hs) as [_ [_ [_ [_ Hb]]]].
    unfold dataProp. rewrite Ha, (readData_keeps _ _ _ _ Hk Hb).
    exact (storeData_read _ _ _ _ Hs). }
  assert (Hp : thePass w2
               = Some (highlightPass (filterText (view w2)) (selected w2)
                                     (dataProp w2)
                                     (imap initializeNode (nodes g)) ld ld
                                     (refsSet (view w2)) (dimensions (view w2)))).
  { unfold thePass. now rewrite Hn, Hl, Ht. }
  destruct (highlightEffect_styles _ _ Hp) as [Ho [Hls Hts]].
  rewrite Ho, Hls, Hts, Bl, Bt, Bs, Hl, Ht, Hf, Hdata.
  unfold highlightPass, isSearchActive.
  destruct (filterText (view w0)) as [| c text] eqn:Etext; [congruence |].
  cbn [nonEmpty negb andb nodeOpacities lineStyles labelOpacities].
  split.
  - rewrite map_map. change (map ?f (imap ?k ?l)) with (f <$> imap k l).
    rewrite fmap_imap.
    rewrite (imap_ext _ (const (fun n => Some (if labelMatches (c :: text) n
                                               then 1%Q else (1 # 10)%Q)))).
    + now rewrite imap_const.
    + intros i n _. unfold compose, const, nodeOpacity, isNodeHighlighted,
        isSearchActive, labelMatches. cbn [nonEmpty].
      now rewrite initializeNode_label.
  - exists ld. rewrite !map_map. now split_and!.
Qed.

(** A graph without nodes is put in place of the sample graph: the effect
    returns before it clears the drawing, the old elements keep their drag
    handlers, and a drag on one of them starts the stopped simulation
    again, whose ticks move the old drawing. *)
Example stopped_simulation_restarts_after_empty_graph :
  let doc := JObj [(utf16 "nodes", JArr []); (utf16 "links", JArr [])] in
  let f := mkFile (utf16 "empty.json") 24 (utf16 "{ }") in
  let forces := mkForces (fun _ => mkPull (Num 1, Num 1) (Num 1, Num 1))
                         (fun _ => mkPush (Num 1, Num 1) (Num 1, Num 1)) in
  exists w1 w2,
    play (rt := exampleRuntime (Some doc)) (ly := exampleLayout)
         [Upload (Some f)] = Done w1
    /\ option_map running (sims (view w1) !! 0) = Some false
    /\ tick 0 forces w1 = w1
    /\ run (rt := exampleRuntime (Some doc)) (ly := exampleLayout)
           w1 [DragStart 0 false] = Done w2
    /\ option_map running (sims (view w2) !! 0) = Some true
    /\ drawing (svg (view (tick 0 forces w2))) <> drawing (svg (view w2)).
Proof.
  intros doc f forces. eexists. eexists.
  split; [vm_compute; reflexivity |].
  split; [vm_compute; reflexivity |].
  split; [vm_compute; reflexivity |].
  split; [vm_compute; reflexivity |].
  split; [vm_compute; reflexivity |].
  intros E. vm_compute in E. discriminate E.
Qed.

(** C4 (amended). For every replacement of the graph, by an import or by
    the end of a generation: the [data] property is the new graph; the
    search text is kept as it was, and when it is not empty and the new
    graph has nodes, the pass that follows the replacement applies it to
    them (full opacity for the nodes whose label contains it, low opacity
    for the others) and styles the lines and the relation labels by the
    rule of the links for that text; an import leaves no node selected; the simulation
    started by the previous run of the effect is stopped and its ticks
    change nothing, and when the new graph has nodes it stays stopped
    whatever the events that follow; when the new graph has nodes a new
    simulation runs on node objects created by this run, whose values are
    those of the new document (positions and pins included) as d3
    initialises them, and the elements drawn are bound to them. A
    generation clears the selection when it is submitted. In every state, a
    tick of any simulation but the one that drew the elements leaves the
    drawing as it is. *)
Theorem C4_replacement_restarts_the_simulation {rt : Runtime} {ly : Layout} :
  (forall (w : World) (e : Event) (g : GraphData) (w1 : World),
      replacement w e = Some g ->
      step w e = Done w1 ->
      dataProp w1 = g
      /\ filterText (view w1) = filterText (view w)
      /\ (nodes g <> [] ->
          filterText (view w) <> [] ->
          let text := filterText (view w) in
          map opacity (nodeElems (svg (view w1)))
          = map (fun n => Some (if labelMatches text n
                                then 1%Q else (1 # 10)%Q))
                (nodes g)
          /\ exists ld,
              boundLines w1 = Some ld
              /\ boundTexts w1 = Some ld
              /\ map (fun e => (lineOpacity e, stroke e))
                     (lineElems (svg (view w1)))
                 = map (fun l => (Some (linkOpacity text (selected w1) g l),
                                  linkStroke text (selected w1) g l)) ld
              /\ map textOpacity (textElems (svg (view w1)))
                 = map (fun l => Some (linkOpacity text (selected w1) g l))
                       ld)
      /\ ((exists file, e = Upload file) -> selectedNode (app w1) = None)
      /\ (forall (s : nat) (old : Simulation),
             cleanup (view w) = Some s ->
             sims (view w) !! s = Some old ->
             sims (view w1) !! s = Some (stop old)
             /\ running (stop old) = false
             /\ (forall f, tick s f w1 = w1)
             /\ (nodes g <> [] ->
                 forall (es : list Event) (w2 : World),
                   run w1 es = Done w2 ->
                   sims (view w2) !! s = Some (stop old)
                   /\ forall f, tick s f w2 = w2))
      /\ (nodes g <> [] ->
          exists sim,
            sims (view w1) !! length (sims (view w)) = Some sim
            /\ cleanup (view w1) = Some (length (sims (view w)))
            /\ drawnBy (svg (view w1)) = Some (length (sims (view w)))
            /\ running sim = true
            /\ Forall (fun l => length (heap w) <= l) (simNodes sim)
            /\ map nodeDatum (nodeElems (svg (view w1))) = simNodes sim
            /\ mapM (readNode (heap w1)) (simNodes sim)
               = Some (imap initializeNode (nodes g))))
  /\ (forall (w w1 : World),
         nonEmpty (trim (query (app w))) = true ->
         handleGenerate w = Done w1 ->
         selectedNode (app w1) = None
         /\ filterText (view w1) = filterText (view w))
  /\ (forall (w : World) (s : nat) (f : Forces),
         drawnBy (svg (view w)) <> Some s ->
         svg (view (tick s f w)) = svg (view w)).
Proof.
  split_and!.
  - intros w e g w1 Hrep Hstep.
    destruct (replacing_step w e g Hrep) as [w0 [Hs0 [Hst [Hv Hsel]]]].
    rewrite Hs0 in Hstep.
    destruct (commit_frame _ _ _ _ Hstep) as [_ [Ha [_ Hf]]].
    assert (Hc := Hstep). unfold commit in Hstep.
    destruct (simulationEffect w0) as [w2 | |] eqn:Esim; try discriminate.
    injection Hstep as <-.
    destruct (highlightEffect_frame w2) as [Hh [_ [_ [_ [Hsims [Hcl _]]]]]].
    destruct (simulationEffect_sims _ _ Esim) as [extra Hextra].
    destruct (drawing_data _ _ (highlightEffect_drawing w2)) as [Hdb Hnd].
    assert (Hnew : nodes g <> [] ->
                   exists sim,
                     sims (view w2) = sims (runCleanup (view w0)) ++ [sim]
                     /\ cleanup (view w2) = Some (length (sims (view w)))
                     /\ drawnBy (svg (view w2)) = Some (length (sims (view w)))
                     /\ running sim = true
                     /\ simNodes sim = seq (length (heap w0)) (length (nodes g))
                     /\ map nodeDatum (nodeElems (svg (view w2))) = simNodes sim
                     /\ mapM (readNode (heap w2)) (simNodes sim)
                        = Some (imap initializeNode (nodes g))).
    { intros Hne.
      destruct (simulationEffect_started _ _ _ _ Hst Hne Esim)
        as [sim [S1 [S2 [S3 [S4 [S5 [S6 S7]]]]]]].
      rewrite Hv in S2, S3. exists sim. now split_and!. }
    split_and!.
    + eapply replaced_dataProp; [exact Hst | exact Hc].
    + now rewrite Hf, Hv.
    + intros Hne Htext. rewrite <- Hv in Htext |- *.
      exact (replacement_pass _ _ _ _ Hst Hne Esim Htext).
    + intros Hup. rewrite Ha. now apply Hsel.
    + intros s old Hclean Hold.
      assert (Hlook : sims (view (highlightEffect w2)) !! s = Some (stop old)).
      { rewrite Hsims, Hextra, (runCleanup_stops _ s) by (now rewrite Hv).
        apply lookup_app_l_Some. rewrite list_lookup_alter_eq, Hv, Hold.
        reflexivity. }
      split_and!; [exact Hlook | reflexivity | |].
      * intros f. unfold tick. now rewrite Hlook.
      * intros Hne es w3 Hrun.
        destruct (Hnew Hne) as [sim [_ [_ [S3 _]]]].
        assert (Hr : retired s old (view (highlightEffect w2))).
        { split; [exact Hlook |]. exists (length (sims (view w))).
          split; [now rewrite Hdb |]. eapply lookup_lt_Some, Hold. }
        pose proof (run_retired _ _ _ _ _ Hrun Hr) as Hr3.
        split; [exact (proj1 Hr3) | exact (retired_tick _ _ _ Hr3)].
    + intros Hne.
      destruct (Hnew Hne) as [sim [S1 [S2 [S3 [S4 [S5 [S6 S7]]]]]]].
      destruct (runCleanup_sims (view w0)) as [Hlen _].
      assert (Hlen1 : length (sims (view w))
                      = length (sims (runCleanup (view w0))))
        by (rewrite Hlen; now rewrite Hv).
      exists sim. rewrite Hsims, Hcl, Hdb, Hnd, Hh. split_and!; try assumption.
      * rewrite S1, Hlen1. now apply list_lookup_middle.
      * rewrite S5. eapply Forall_impl; [apply seq_above |]. simpl.
        intros l Hl. destruct (storeData_spec _ _ _ _ Hst) as [[ext E] _].
        rewrite E, length_app in Hl. lia.
  - intros w w1 Hq. unfold handleGenerate. rewrite Hq. intros Hc.
    destruct (commit_frame _ _ _ _ Hc) as [_ [Ha [_ Hf]]].
    now rewrite Ha, Hf.
  - intros w s f Hother. unfold tick.
    destruct (sims (view w) !! s) as [sim |]; [| reflexivity].
    destruct (running sim); [| reflexivity]. simpl.
    now rewrite bool_decide_eq_false_2.
Qed.

(** An import over the sample graph while [ai] is in the search box: the
    text stays, the node [Air] of the new graph matches it and the node
    [Sea] is dimmed, and the simulation of the sample graph stays stopped
    through a drag of the new node. *)
Lemma C4_witness :
  let air := JObj [(utf16 "id", JStr (utf16 "n1"));
                   (utf16 "label", JStr (utf16 "Air"));
                   (utf16 "group", JStr (utf16 "g"))] in
  let sea := JObj [(utf16 "id", JStr (utf16 "n2"));
                   (utf16 "label", JStr (utf16 "Sea"));
                   (utf16 "group", JStr (utf16 "g"))] in
  let doc := JObj [(utf16 "nodes", JArr [air; sea]); (utf16 "links", JArr [])] in
  let f := mkFile (utf16 "new.json") 64 (utf16 "{ }") in
  let g := mkData [plainNode (utf16 "n1") (utf16 "Air") (utf16 "g");
                   plainNode (utf16 "n2") (utf16 "Sea") (utf16 "g")] [] in
  let w := match play (rt := exampleRuntime (Some doc)) (ly := exampleLayout)
                      [Search (utf16 "ai")] with
           | Done w => w
           | _ => unmounted
           end in
  let old := mkSim (seq 9 5) (seq 14 4) true 0 in
  replacement (rt := exampleRuntime (Some doc)) w (Upload (Some f)) = Some g
  /\ nodes g <> []
  /\ filterText (view w) <> []
  /\ cleanup (view w) = Some 0
  /\ sims (view w) !! 0 = Some old
  /\ exists w1 w2,
      step (rt := exampleRuntime (Some doc)) (ly := exampleLayout)
           w (Upload (Some f)) = Done w1
      /\ run (rt := exampleRuntime (Some doc)) (ly := exampleLayout)
             w1 [DragStart 0 false; Drag 0 (Num 5) (Num 5)] = Done w2
      /\ dataProp w1 = g
      /\ filterText (view w1) = filterText (view w)
      /\ map opacity (nodeElems (svg (view w1)))
         = [Some 1%Q; Some (1 # 10)%Q]
      /\ selectedNode (app w1) = None
      /\ sims (view w2) !! 0 = Some (stop old)
      /\ forall forces, tick 0 forces w2 = w2.
Proof.
  intros air sea doc f g w old.
  assert (H1 : replacement (rt := exampleRuntime (Some doc)) w (Upload (Some f))
               = Some g) by reflexivity.
  assert (H2 : nodes g <> []) by discriminate.
  assert (H3 : filterText (view w) <> []).
  { intros E. vm_compute in E. discriminate E. }
  assert (H4 : cleanup (view w) = Some 0) by (vm_compute; reflexivity).
  assert (H5 : sims (view w) !! 0 = Some old) by (vm_compute; reflexivity).
  split_and!; try assumption.
  destruct (step (rt := exampleRuntime (Some doc)) (ly := exampleLayout)
                 w (Upload (Some f))) as [w1 | |] eqn:E.
  - destruct (run (rt := exampleRuntime (Some doc)) (ly := exampleLayout)
                  w1 [DragStart 0 false; Drag 0 (Num 5) (Num 5)])
      as [w2 | |] eqn:E2; [| discriminate E2 | discriminate E2].
    exists w1, w2. split; [reflexivity |]. split; [exact E2 |].
    destruct (proj1 (C4_replacement_restarts_the_simulation
                       (rt := exampleRuntime (Some doc)) (ly := exampleLayout))
                    w (Upload (Some f)) g w1 H1 E)
      as [Hd [Hf [Hop [Hsel [Hold _]]]]].
    destruct (Hold 0 old H4 H5) as [_ [_ [_ Hstay]]].
    destruct (Hstay H2 _ w2 E2) as [Hstop Htick].
    split_and!; [exact Hd | exact Hf | | apply Hsel; eauto | exact Hstop
                 | exact Htick].
    rewrite (proj1 (Hop H2 H3)). vm_compute. reflexivity.
  - vm_compute in E. discriminate E.
  - vm_compute in E. discriminate E.
Defined.

(* ===================================================================== *)
(** ** Further properties: export, then import *)
(* ===================================================================== *)

(** X6. A file that holds what [exportJSON] wrote, named [*.json] and not
    above the size limit, is imported back as the same graph when the
    parser reads the text as the graph it was printed from and every node
    has a non-empty [id] and [label]: the graph and its export are
    unchanged, the query is emptied, the status names the file and no
    node is selected; and the import ends when the links name nodes of
    the graph. When some node has an empty [id] or [label] (which a
    generated graph may have, and is drawn and exported all the same),
    the file is refused with the message about [id] and [label]. *)
Theorem X6_exported_graph_imports_back {rt : Runtime} {ly : Layout} :
  forall (w : World) (f : File) (doc : json),
    content f = exportJSON w ->
    isJson f = true ->
    (size f <= sizeLimit)%N ->
    JSON_parse (exportJSON w) = Some doc ->
    asGraphData doc = Some (dataProp w) ->
    (forallb wellNamed (nodes (dataProp w)) = true ->
     (forall w1,
         handleFileUpload (Some f) w = Done w1 ->
         dataProp w1 = dataProp w
         /\ exportJSON w1 = exportJSON w
         /\ query (app w1) = []
         /\ status (app w1) = imported f
         /\ selectedNode (app w1) = None)
     /\ (closed (dataProp w) ->
         exists w1, handleFileUpload (Some f) w = Done w1))
    /\ (forallb wellNamed (nodes (dataProp w)) = false ->
        handleFileUpload (Some f) w = Done (alert nodeFields w)).
Proof.
  intros w f doc Hc Hj Hsize Hp Hg.
  pose proof (validate_typed _ _ Hg) as Hv.
  unfold handleFileUpload. unfold isJson in Hj.
  apply N.ltb_ge in Hsize. rewrite Hsize, Hj. unfold importJson.
  rewrite Hc, Hp, Hv. split.
  - intros Hnamed. rewrite Hnamed, Hg.
    destruct (imported_app (dataProp w) (imported f) [] w)
      as [_ [_ [Hq [Hst Hsel]]]].
    pose proof (imported_stores (dataProp w) (imported f) [] w) as Hs.
    split.
    + intros w1 E.
      pose proof (replaced_dataProp (heap w) (dataProp w) _ w1 Hs E) as Hd.
      apply commit_frame in E. destruct E as [_ [Ha _]].
      rewrite Ha, Hq, Hst, Hsel. unfold exportJSON. rewrite Hd.
      split_and!; reflexivity.
    + intros Hclosed. exact (replacement_ends _ _ _ Hs Hclosed).
  - intros Hbad. rewrite Hbad. unfold nodeFields. reflexivity.
Qed.

(** The sample graph, as the page starts with it: a file with its
    document is imported as the same graph. *)
Lemma X6_witness :
  let node := fun i l g => JObj [(utf16 "id", JStr (utf16 i));
                                 (utf16 "label", JStr (utf16 l));
                                 (utf16 "group", JStr (utf16 g))] in
  let link := fun s t r => JObj [(utf16 "source", JStr (utf16 s));
                                 (utf16 "target", JStr (utf16 t));
                                 (utf16 "relation", JStr (utf16 r))] in
  let doc := JObj [(utf16 "nodes",
                    JArr [node "ai" "人工智能" "技术"; node "ml" "机器学习" "技术";
                          node "dl" "深度学习" "技术"; node "nn" "神经网络" "概念";
                          node "gemini" "Gemini" "模型"]%string);
                   (utf16 "links",
                    JArr [link "ai" "ml" "包含"; link "ml" "dl" "包含";
                          link "dl" "nn" "使用";
                          link "gemini" "ai" "属于"]%string)] in
  let f := mkFile (utf16 "graph.json") 600 [] in
  asGraphData doc = Some (dataProp unmounted)
  /\ forallb wellNamed (nodes (dataProp unmounted)) = true
  /\ closed (dataProp unmounted)
  /\ exists w1,
      handleFileUpload (rt := exampleRuntime (Some doc)) (ly := exampleLayout)
                       (Some f) unmounted = Done w1
      /\ dataProp w1 = dataProp unmounted.
Proof.
  intros node link doc f.
  assert (Hg : asGraphData doc = Some (dataProp unmounted))
    by (vm_compute; reflexivity).
  assert (Hn : forallb wellNamed (nodes (dataProp unmounted)) = true)
    by (vm_compute; reflexivity).
  assert (Hcl : closed (dataProp unmounted)).
  { assert (Hd : dataProp unmounted = INITIAL_DATA) by (vm_compute; reflexivity).
    rewrite Hd. unfold closed, INITIAL_DATA, plainLink, plainNode.
    simpl. repeat (constructor; [split; simpl; auto 10 |]). constructor. }
  split; [exact Hg |]. split; [exact Hn |]. split; [exact Hcl |].
  destruct (X6_exported_graph_imports_back
              (rt := exampleRuntime (Some doc)) (ly := exampleLayout)
              unmounted f doc eq_refl eq_refl) as [Hback _];
    [discriminate | reflexivity | exact Hg |].
  destruct (Hback Hn) as [Hsame Hends].
  destruct (Hends Hcl) as [w1 E]. exists w1. split; [exact E |].
  exact (proj1 (Hsame w1 E)).
Defined.

(* ===================================================================== *)
(** ** Further properties: a tick of the simulation *)
(* ===================================================================== *)

Lemma readNode_updateNode f (l a : loc) (h : list obj) :
  readNode (updateNode f l h) a
  = if decide (a = l) then option_map f (readNode h a) else readNode h a.
Proof.
  unfold updateNode, readNode.
  destruct (decide (a = l)) as [-> | Hne].
  - destruct (h !! l) as [[n | lk] |] eqn:E; rewrite ?E; try reflexivity.
    now rewrite list_lookup_insert_eq by (eapply lookup_lt_Some; exact E).
  - destruct (h !! l) as [[n | lk] |] eqn:E; try reflexivity.
    rewrite list_lookup_insert_ne; [reflexivity | congruence].
Qed.

Lemma sameNode_refl (n : GraphNode) : sameNode n n.
Proof. now split_and!. Qed.

Lemma sameNode_trans (n n1 n2 : GraphNode) :
  sameNode n n1 -> sameNode n1 n2 -> sameNode n n2.
Proof.
  unfold sameNode. intros [A1 [A2 [A3 A4]]] [B1 [B2 [B3 B4]]].
  split_and!; congruence.
Qed.

Lemma updateNode_same f (l a : loc) (h : list obj) (n : GraphNode) :
  (forall m, sameNode m (f m)) ->
  readNode h a = Some n ->
  exists n1, readNode (updateNode f l h) a = Some n1 /\ sameNode n n1.
Proof.
  intros Hf E. rewrite readNode_updateNode, E.
  destruct (decide (a = l)); simpl; eauto using sameNode_refl.
Qed.

Lemma accelerate_same (delta : number * number) (m : GraphNode) :
  sameNode m (accelerate delta m).
Proof. now split_and!. Qed.

Lemma moveNode_same (p : NodePush) (m : GraphNode) : sameNode m (moveNode p m).
Proof.
  unfold moveNode.
  destruct (pinned (fx m)); destruct (pinned (fy m)); now split_and!.
Qed.

(** The link force writes velocities only. *)
Lemma linkForce_same (f : Forces) (ls : list loc) :
  forall (i : nat) (h : list obj) (a : loc) (n : GraphNode),
    readNode h a = Some n ->
    exists n1, readNode (linkForce f i ls h) a = Some n1 /\ sameNode n n1.
Proof.
  induction ls as [| l rest IH]; intros i h a n E; cbn [linkForce].
  - exists n. split; [exact E | apply sameNode_refl].
  - assert (Hstep : exists n1,
               readNode
                 match readLinkObj h l with
                 | Some lk =>
                   match source lk, target lk with
                   | ByNode s, ByNode t =>
                     updateNode (accelerate (onSource (pulls f i))) s
                       (updateNode (accelerate (onTarget (pulls f i))) t h)
                   | _, _ => h
                   end
                 | None => h
                 end a = Some n1 /\ sameNode n n1).
    { destruct (readLinkObj h l) as [lk |]; [| eauto using sameNode_refl].
      destruct (source lk) as [s0 | s]; [eauto using sameNode_refl |].
      destruct (target lk) as [t0 | t]; [eauto using sameNode_refl |].
      destruct (updateNode_same (accelerate (onTarget (pulls f i))) t a h n
                  (accelerate_same _) E) as [n1 [E1 S1]].
      destruct (updateNode_same (accelerate (onSource (pulls f i))) s a _ n1
                  (accelerate_same _) E1) as [n2 [E2 S2]].
      exists n2. split; [exact E2 | eapply sameNode_trans; eassumption]. }
    destruct Hstep as [n1 [E1 S1]].
    destruct (IH (S i) _ a n1 E1) as [n2 [E2 S2]].
    exists n2. split; [exact E2 | eapply sameNode_trans; eassumption].
Qed.

Lemma moveNodes_other (f : Forces) (ls : list loc) :
  forall (i : nat) (h : list obj) (a : loc),
    ~ In a ls -> readNode (moveNodes f i ls h) a = readNode h a.
Proof.
  induction ls as [| l rest IH]; intros i h a Hnot; cbn [moveNodes];
    [reflexivity |].
  rewrite IH by (intros Hin; apply Hnot; now right).
  rewrite readNode_updateNode.
  destruct (decide (a = l)) as [-> |]; [| reflexivity].
  exfalso. apply Hnot. now left.
Qed.

(** A node of the simulation is moved once in a tick. *)
Lemma moveNodes_at (f : Forces) (ls : list loc) :
  forall (i : nat) (h : list obj) (a : loc) (n : GraphNode),
    NoDup ls -> In a ls -> readNode h a = Some n ->
    exists j, readNode (moveNodes f i ls h) a = Some (moveNode (pushes f j) n).
Proof.
  induction ls as [| l rest IH]; intros i h a n Hnd Hin E; [destruct Hin |].
  inversion Hnd as [| ? ? Hnotin Hnd1]; subst. cbn [moveNodes].
  destruct (decide (a = l)) as [-> | Hne].
  - exists i. rewrite moveNodes_other
      by (intros H; apply Hnotin; now apply list_elem_of_In).
    rewrite readNode_updateNode, E. now rewrite decide_True.
  - destruct Hin as [-> | Hin]; [congruence |].
    apply (IH (S i)); [exact Hnd1 | exact Hin |].
    rewrite readNode_updateNode, E. now rewrite decide_False.
Qed.

Lemma moveNode_pinned (p : NodePush) (n : GraphNode) (ex ey : number) :
  fx n = At ex -> fy n = At ey ->
  x (moveNode p n) = Some ex /\ y (moveNode p n) = Some ey
  /\ vx (moveNode p n) = Some (Num 0) /\ vy (moveNode p n) = Some (Num 0).
Proof.
  intros Hx Hy. unfold moveNode. rewrite Hx, Hy. now split_and!.
Qed.

Lemma linkForce_links (f : Forces) (ls : list loc) :
  forall (i : nat) (h : list obj) (l : loc),
    readLinkObj (linkForce f i ls h) l = readLinkObj h l.
Proof.
  induction ls as [| l0 rest IH]; intros i h l; cbn [linkForce];
    [reflexivity |].
  rewrite IH. destruct (readLinkObj h l0) as [lk |]; [| reflexivity].
  destruct (source lk) as [s0 | s]; [reflexivity |].
  destruct (target lk) as [t0 | t]; [reflexivity |].
  now rewrite !readLinkObj_updateNode.
Qed.

Lemma moveNodes_links (f : Forces) (ls : list loc) :
  forall (i : nat) (h : list obj) (l : loc),
    readLinkObj (moveNodes f i ls h) l = readLinkObj h l.
Proof.
  induction ls as [| l0 rest IH]; intros i h l; cbn [moveNodes];
    [reflexivity |].
  now rewrite IH, readLinkObj_updateNode.
Qed.

(** A tick of a running simulation, unfolded. *)
Lemma tick_running (s : nat) (f : Forces) (w : World) (sim : Simulation) :
  sims (view w) !! s = Some sim -> running sim = true ->
  heap (tick s f w) = tickObjects f sim (heap w)
  /\ (drawnBy (svg (view w)) = Some s ->
      svg (view (tick s f w)) = onTick (tickObjects f sim (heap w)) (svg (view w))).
Proof.
  intros Es Hr. unfold tick. rewrite Es, Hr. split; [reflexivity |].
  intros Hd. cbn [view withHeap withView withSvg svg].
  now rewrite bool_decide_eq_true_2.
Qed.

(** X8. While a node is dragged it follows the pointer. After [dragged]
    has set the pin of the node to the position of the pointer, a tick of
    the simulation that drew the node puts the node at that position with
    velocity 0, whatever the forces, and its element is translated
    there. *)
Theorem X8_dragged_node_follows_the_pointer :
  forall (w : World) (i s : nat) (d : loc) (sim : Simulation)
         (n0 : GraphNode) (ex ey : number) (f : Forces),
    dragTarget w i = Some (s, d) ->
    sims (view w) !! s = Some sim ->
    running sim = true ->
    NoDup (simNodes sim) ->
    In d (simNodes sim) ->
    readNode (heap w) d = Some n0 ->
    let w1 := tick s f (dragged i ex ey w) in
    (exists n,
        readNode (heap w1) d = Some n
        /\ id n = id n0
        /\ x n = Some ex /\ y n = Some ey
        /\ vx n = Some (Num 0) /\ vy n = Some (Num 0))
    /\ (exists e,
           nodeElems (svg (view w1)) !! i = Some e
           /\ nodeDatum e = d
           /\ nodeAt e = Some (Some ex, Some ey)).
Proof.
  intros w i s d sim n0 ex ey f Ht Es Hr Hnd Hin E0 w1.
  assert (Hdrag : dragged i ex ey w
                  = withHeap (updateNode (fun n => withPin n (At ex) (At ey)) d
                                         (heap w)) w).
  { unfold dragged. now rewrite Ht. }
  subst w1.
  assert (Htarget : drawnBy (svg (view w)) = Some s
                    /\ exists e, nodeElems (svg (view w)) !! i = Some e
                                 /\ nodeDatum e = d).
  { unfold dragTarget in Ht.
    destruct (drawnBy (svg (view w))) as [s1 |]; [| discriminate].
    destruct (nodeElems (svg (view w)) !! i) as [e |]; [| discriminate].
    injection Ht as -> <-. eauto. }
  destruct Htarget as [Hd [e [He Hde]]].
  destruct (tick_running s f (dragged i ex ey w) sim) as [Hheap Hsvg];
    [now rewrite Hdrag | exact Hr |].
  rewrite Hdrag in Hheap, Hsvg. cbn [heap view withHeap] in Hheap, Hsvg.
  specialize (Hsvg Hd).
  set (h1 := updateNode (fun n => withPin n (At ex) (At ey)) d (heap w)) in *.
  assert (E1 : readNode h1 d = Some (withPin n0 (At ex) (At ey))).
  { subst h1. rewrite readNode_updateNode, E0. now rewrite decide_True. }
  destruct (linkForce_same f (simLinks sim) 0 h1 d _ E1)
    as [n1 [E2 [Hid [_ [Hfx Hfy]]]]].
  destruct (moveNodes_at f (simNodes sim) 0 _ d n1 Hnd Hin E2) as [j E3].
  destruct (moveNode_pinned (pushes f j) n1 ex ey Hfx Hfy)
    as [Hx [Hy [Hvx Hvy]]].
  rewrite Hdrag, Hheap, Hsvg.
  split.
  - exists (moveNode (pushes f j) n1). split; [exact E3 |].
    split; [| now split_and!].
    destruct (moveNode_same (pushes f j) n1) as [Hid1 _].
    rewrite Hid1, Hid. reflexivity.
  - exists (placeNode (tickObjects f sim h1) e). cbn [nodeElems onTick].
    rewrite list_lookup_fmap, He. split; [reflexivity |].
    unfold placeNode. rewrite Hde. unfold tickObjects. rewrite E3.
    cbn [nodeDatum nodeAt].
    split; [reflexivity |]. now rewrite Hx, Hy.
Qed.

(** The sample page: its first node, [ai], dragged to (250, 120). *)
Lemma X8_witness :
  let w := started (rt := exampleRuntime None) (ly := exampleLayout) in
  let f := mkForces (fun _ => mkPull (Num 1, Num 2) (Num 3, Num 4))
                    (fun _ => mkPush (Num 5, Num 6) (Num 7, Num 8)) in
  dragTarget w 0 = Some (0, 9)
  /\ exists n,
      readNode (heap (tick 0 f (dragged 0 (Num 250) (Num 120) w))) 9 = Some n
      /\ id n = utf16 "ai"
      /\ x n = Some (Num 250) /\ y n = Some (Num 120).
Proof.
  intros w f.
  assert (Ht : dragTarget w 0 = Some (0, 9)) by (vm_compute; reflexivity).
  assert (Es : sims (view w) !! 0 = Some (mkSim (seq 9 5) (seq 14 4) true 0))
    by (vm_compute; reflexivity).
  assert (E0 : exists n0, readNode (heap w) 9 = Some n0 /\ id n0 = utf16 "ai").
  { vm_compute. eexists. split; reflexivity. }
  destruct E0 as [n0 [E0 Hid]].
  split; [exact Ht |].
  destruct (X8_dragged_node_follows_the_pointer
              w 0 0 9 (mkSim (seq 9 5) (seq 14 4) true 0) n0
              (Num 250) (Num 120) f Ht Es eq_refl (NoDup_seq 9 5))
    as [[n [E [Hn [Hx [Hy _]]]]] _];
    [cbn; auto 10 | exact E0 |].
  exists n. rewrite <- Hid, <- Hn. now split_and!.
Defined.

(** X14. After a tick of the simulation that drew the elements, a
    relation label bound to the same link as a line is at the middle of
    that line, and an end of the line is where the element of the node
    at that end is translated to. *)
Theorem X14_labels_sit_at_the_middle_of_their_lines :
  forall (w : World) (s : nat) (sim : Simulation) (f : Forces) (i : nat)
         (le : LineElem) (te : TextElem) (lk : Link loc),
    sims (view w) !! s = Some sim ->
    running sim = true ->
    drawnBy (svg (view w)) = Some s ->
    lineElems (svg (view w)) !! i = Some le ->
    textElems (svg (view w)) !! i = Some te ->
    textDatum te = lineDatum le ->
    readLinkObj (heap w) (lineDatum le) = Some lk ->
    let w1 := tick s f w in
    exists le1 te1,
      lineElems (svg (view w1)) !! i = Some le1
      /\ textElems (svg (view w1)) !! i = Some te1
      /\ textAt te1
         = Some (halfway (fst (lineFrom le1)) (fst (lineTo le1)),
                 halfway (snd (lineFrom le1)) (snd (lineTo le1)))
      /\ (forall j ne,
             nodeElems (svg (view w1)) !! j = Some ne ->
             readNode (heap w1) (nodeDatum ne) <> None ->
             (source lk = ByNode (nodeDatum ne) ->
              nodeAt ne = Some (lineFrom le1))
             /\ (target lk = ByNode (nodeDatum ne) ->
                 nodeAt ne = Some (lineTo le1))).
Proof.
  intros w s sim f i le te lk Es Hr Hd Hle Hte Hdat Hlk w1. subst w1.
  destruct (tick_running s f w sim Es Hr) as [Hheap Hsvg].
  rewrite (Hsvg Hd), Hheap.
  set (h1 := tickObjects f sim (heap w)).
  assert (Hlk1 : readLinkObj h1 (lineDatum le) = Some lk).
  { subst h1. unfold tickObjects.
    now rewrite moveNodes_links, linkForce_links. }
  exists (placeLine h1 le), (placeText h1 te). cbn [lineElems textElems nodeElems onTick].
  rewrite !list_lookup_fmap, Hle, Hte.
  split; [reflexivity |]. split; [reflexivity |].
  unfold placeLine, placeText. rewrite Hdat, Hlk1.
  cbn [textAt lineFrom lineTo]. split; [reflexivity |].
  intros j ne Hne Hnode. rewrite list_lookup_fmap in Hne.
  destruct (nodeElems (svg (view w)) !! j) as [ne0 |] eqn:Hj;
    simpl in Hne; [| discriminate Hne].
  injection Hne as <-.
  unfold placeNode in *.
  destruct (readNode h1 (nodeDatum ne0)) as [n |] eqn:En.
  - cbn [nodeDatum nodeAt] in *. split; intros ->; unfold endpointXY;
      now rewrite En.
  - congruence.
Qed.

(** The sample page after a tick: the label of the link from [ai] to
    [ml] is at the middle of its line. *)
Lemma X14_witness :
  let w := started (rt := exampleRuntime None) (ly := exampleLayout) in
  let f := mkForces (fun _ => mkPull (Num 1, Num 2) (Num 3, Num 4))
                    (fun _ => mkPush (Num 5, Num 6) (Num 7, Num 8)) in
  exists le1 te1,
    lineElems (svg (view (tick 0 f w))) !! 0 = Some le1
    /\ textElems (svg (view (tick 0 f w))) !! 0 = Some te1
    /\ textAt te1
       = Some (halfway (fst (lineFrom le1)) (fst (lineTo le1)),
               halfway (snd (lineFrom le1)) (snd (lineTo le1))).
Proof.
  intros w f.
  assert (Es : sims (view w) !! 0 = Some (mkSim (seq 9 5) (seq 14 4) true 0))
    by (vm_compute; reflexivity).
  assert (Hd : drawnBy (svg (view w)) = Some 0) by (vm_compute; reflexivity).
  assert (Hle : exists le, lineElems (svg (view w)) !! 0 = Some le
                           /\ lineDatum le = 14).
  { vm_compute. eexists. split; reflexivity. }
  assert (Hte : exists te, textElems (svg (view w)) !! 0 = Some te
                           /\ textDatum te = 14).
  { vm_compute. eexists. split; reflexivity. }
  assert (Hlk : exists lk, readLinkObj (heap w) 14 = Some lk).
  { vm_compute. eexists. reflexivity. }
  destruct Hle as [le [Hle Dle]]. destruct Hte as [te [Hte Dte]].
  destruct Hlk as [lk Hlk]. rewrite <- Dle in Hlk.
  destruct (X14_labels_sit_at_the_middle_of_their_lines
              w 0 (mkSim (seq 9 5) (seq 14 4) true 0) f 0
              le te lk Es eq_refl Hd Hle Hte (eq_trans Dte (eq_sym Dle)) Hlk)
    as [le1 [te1 [H1 [H2 [H3 _]]]]].
  exists le1, te1. now split_and!.
Defined.

(* ===================================================================== *)
(** ** Further properties: the highlighting *)
(* ===================================================================== *)

(** *** Refining the search *)

Lemma includes_trans (a b c : jsstring) :
  includes a b = true -> includes b c = true -> includes a c = true.
Proof.
  rewrite !includes_spec. intros [p [q ->]] [r [s ->]].
  exists (p ++ r), (s ++ q). now rewrite <- !app_assoc.
Qed.

(** X15. Refining a search can only dim more. When the text [t1] occurs
    in the text [t2] (case ignored, both non-empty), every node and every
    link that is highlighted for [t2] is highlighted for [t1], whatever
    the selection. *)
Theorem X15_refining_the_search_dims_more {rt : Runtime} :
  forall (t1 t2 : jsstring) (sel : option GraphNode) (data : GraphData),
    t1 <> [] -> t2 <> [] ->
    includes (toLowerCase t2) (toLowerCase t1) = true ->
    (forall n, isNodeHighlighted t2 sel data n = true ->
               isNodeHighlighted t1 sel data n = true)
    /\ (forall l, isLinkHighlighted t2 sel data l = true ->
                  isLinkHighlighted t1 sel data l = true).
Proof.
  intros t1 t2 sel data H1 H2 Hinc.
  apply nonEmpty_true in H1, H2.
  assert (Hlabel : forall n, labelMatches t2 n = true ->
                             labelMatches t1 n = true).
  { intros n. unfold labelMatches. intros E.
    exact (includes_trans _ _ _ E Hinc). }
  split.
  - intros n. unfold isNodeHighlighted, isSearchActive. rewrite H1, H2.
    apply Hlabel.
  - intros l. unfold isLinkHighlighted, isSearchActive. rewrite H1, H2.
    destruct sel as [s |]; [trivial |].
    destruct (endpointNode data (source l)) as [a |]; [| discriminate].
    destruct (endpointNode data (target l)) as [b |]; [| discriminate].
    rewrite !andb_true_iff. intros [Ha Hb]. split; now apply Hlabel.
Qed.

(** In the sample graph, [ml] is highlighted for its whole label, hence
    for one character of it. *)
Lemma X15_witness :
  let ml := plainNode (utf16 "ml") (utf16 "机器学习") (utf16 "技术") in
  utf16 "学" <> []
  /\ utf16 "机器学习" <> []
  /\ includes (toLowerCase (Runtime := exampleRuntime None) (utf16 "机器学习"))
              (toLowerCase (Runtime := exampleRuntime None) (utf16 "学")) = true
  /\ isNodeHighlighted (rt := exampleRuntime None) (utf16 "学") None
                       INITIAL_DATA ml = true.
Proof.
  intros ml.
  assert (H1 : utf16 "学" <> []) by discriminate.
  assert (H2 : utf16 "机器学习" <> []) by discriminate.
  assert (Hinc : includes (toLowerCase (Runtime := exampleRuntime None)
                                       (utf16 "机器学习"))
                          (toLowerCase (Runtime := exampleRuntime None)
                                       (utf16 "学")) = true)
    by (vm_compute; reflexivity).
  split; [exact H1 |]. split; [exact H2 |]. split; [exact Hinc |].
  apply (proj1 (X15_refining_the_search_dims_more
                  (rt := exampleRuntime None) (utf16 "学") (utf16 "机器学习")
                  None INITIAL_DATA H1 H2 Hinc)).
  vm_compute. reflexivity.
Defined.

(** *** The neighbourhood of the selection *)

Lemma str_eqb_sym (a b : jsstring) : str_eqb a b = str_eqb b a.
Proof.
  destruct (str_eqb b a) eqn:E.
  - apply str_eqb_true in E. subst. apply str_eqb_refl.
  - destruct (str_eqb a b) eqn:E1; [| reflexivity].
    apply str_eqb_true in E1. subst. now rewrite str_eqb_refl in E.
Qed.

Lemma joins_swap (a b : GraphNode) (l : GraphLink) : joins a b l = joins b a l.
Proof.
  unfold joins.
  destruct (str_eqb (endpointId (source l)) (id a));
    destruct (str_eqb (endpointId (target l)) (id b));
    destruct (str_eqb (endpointId (target l)) (id a));
    destruct (str_eqb (endpointId (source l)) (id b)); reflexivity.
Qed.

(** X20. With no search text, the neighbourhood of the selection is
    symmetric: the node [b] is highlighted when [a] is selected exactly
    when [a] is highlighted when [b] is selected. *)
Theorem X20_neighbourhood_is_symmetric {rt : Runtime} :
  forall (data : GraphData) (a b : GraphNode),
    isNodeHighlighted [] (Some a) data b
    = isNodeHighlighted [] (Some b) data a.
Proof.
  intros data a b. unfold isNodeHighlighted, isSearchActive. cbn [nonEmpty].
  rewrite (str_eqb_sym (id b) (id a)). f_equal.
  induction (links data) as [| l rest IH]; [reflexivity |].
  cbn [existsb]. now rewrite IH, joins_swap.
Qed.

(* ===================================================================== *)
(** ** Further properties: the side panel and the clicks *)
(* ===================================================================== *)



(** Selecting a node: the effects end, the selection is the node, and
    only the styles change. *)
Lemma select_spec {rt : Runtime} {ly : Layout} (sel : option loc) (w : World) :
  exists w1,
    select sel w = Done w1
    /\ heap w1 = heap w
    /\ selectedNode (app w1) = sel
    /\ graphData (app w1) = graphData (app w)
    /\ query (app w1) = query (app w)
    /\ status (app w1) = status (app w)
    /\ inflight w1 = inflight w
    /\ filterText (view w1) = filterText (view w)
    /\ dimensions (view w1) = dimensions (view w)
    /\ sims (view w1) = sims (view w)
    /\ cleanup (view w1) = cleanup (view w)
    /\ drawing (svg (view w1)) = drawing (svg (view w)).
Proof.
  unfold select.
  destruct (commit_restyle (selectionChanges sel w) (setSelectedNode sel w))
    as [w1 [E [Hh [Ha [Hi [Hf [Hd [Hs [Hc [_ Hdr]]]]]]]]]].
  exists w1. split; [exact E |]. rewrite Hh, Ha, Hi, Hf, Hd, Hs, Hc, Hdr.
  split_and!; reflexivity.
Qed.



Lemma setSelectedNode_same (sel : option loc) (w : World) :
  selectedNode (app w) = sel -> setSelectedNode sel w = w.
Proof.
  destruct w as [h [q g st s al] v inf]. cbn. now intros ->.
Qed.

Lemma drawing_nodeElem (s1 s2 : Svg) (i : nat) (e : NodeElem) :
  drawing s1 = drawing s2 ->
  nodeElems s2 !! i = Some e ->
  exists e1, nodeElems s1 !! i = Some e1 /\ nodeDatum e1 = nodeDatum e.
Proof.
  intros Hd He. apply drawing_data in Hd as [_ Hd].
  apply (f_equal (fun t => t !! i)) in Hd.
  rewrite !list_lookup_fmap, He in Hd. simpl in Hd.
  destruct (nodeElems s1 !! i) as [e1 |]; [| discriminate Hd].
  simpl in Hd. injection Hd as Hd. now exists e1.
Qed.

(** X19. A click on a node selects it and nothing more: a second click
    on the same node leaves the page exactly as the first one left it (a
    selection is not toggled by clicking). *)
Theorem X19_clicking_the_selected_node_changes_nothing
        {rt : Runtime} {ly : Layout} :
  forall (w : World) (i : nat) (w1 : World),
    clickNode i w = Done w1 -> clickNode i w1 = Done w1.
Proof.
  intros w i w1. unfold clickNode.
  destruct (nodeElems (svg (view w)) !! i) as [e |] eqn:He.
  - intros E.
    destruct (select_spec (Some (nodeDatum e)) w)
      as [w2 [E2 [_ [Hs [_ [_ [_ [_ [_ [_ [_ [_ Hd]]]]]]]]]]]].
    rewrite E2 in E. injection E as <-.
    destruct (drawing_nodeElem _ _ i e Hd He) as [e1 [He1 Hdat]].
    rewrite He1, Hdat. unfold select, selectionChanges.
    rewrite Hs, bool_decide_eq_true_2 by reflexivity.
    cbn [negb commit]. now rewrite (setSelectedNode_same _ _ Hs).
  - intros E. injection E as <-. now rewrite He.
Qed.

(** The sample page: [ml] clicked, and clicked again. *)
Lemma X19_witness :
  let w := started (rt := exampleRuntime None) (ly := exampleLayout) in
  let w1 := match clickNode (rt := exampleRuntime None) (ly := exampleLayout)
                            1 w with
            | Done x => x
            | _ => unmounted
            end in
  clickNode (rt := exampleRuntime None) (ly := exampleLayout) 1 w = Done w1
  /\ selectedNode (app w1) = Some 10
  /\ clickNode (rt := exampleRuntime None) (ly := exampleLayout) 1 w1
     = Done w1.
Proof.
  intros w w1.
  assert (E : clickNode (rt := exampleRuntime None) (ly := exampleLayout)
                        1 w = Done w1) by (vm_compute; reflexivity).
  split; [exact E |]. split; [vm_compute; reflexivity |].
  exact (X19_clicking_the_selected_node_changes_nothing _ _ _ E).
Defined.

(** *** Events that only restyle *)

Lemma zoomed_spec (g : Gesture) (w : World) :
  heap (zoomed g w) = heap w
  /\ app (zoomed g w) = app w
  /\ inflight (zoomed g w) = inflight w
  /\ filterText (view (zoomed g w)) = filterText (view w)
  /\ dimensions (view (zoomed g w)) = dimensions (view w)
  /\ sims (view (zoomed g w)) = sims (view w)
  /\ cleanup (view (zoomed g w)) = cleanup (view w)
  /\ drawing (svg (view (zoomed g w))) = drawing (svg (view w)).
Proof.
  unfold zoomed. destruct (zoomRef (view w)); split_and!; reflexivity.
Qed.

(** X21. Typing a query, clicking a node, following a link of the
    panel, clearing the selection, typing in the search box and zooming
    always end, and none of them re-simulates: the objects, the graph, the
    simulations, the size and the geometry of the drawing (which elements
    there are and where they stand) are as before. *)
Theorem X21_highlighting_never_restarts_the_layout
        {rt : Runtime} {ly : Layout} :
  forall (w : World) (e : Event),
    restyles e ->
    exists w1,
      step w e = Done w1
      /\ heap w1 = heap w
      /\ graphData (app w1) = graphData (app w)
      /\ dataProp w1 = dataProp w
      /\ inflight w1 = inflight w
      /\ dimensions (view w1) = dimensions (view w)
      /\ sims (view w1) = sims (view w)
      /\ cleanup (view w1) = cleanup (view w)
      /\ drawing (svg (view w1)) = drawing (svg (view w)).
Proof.
  intros w e He.
  assert (Hsame : exists w1, Done w = Done w1
                             /\ heap w1 = heap w
                             /\ graphData (app w1) = graphData (app w)
                             /\ dataProp w1 = dataProp w
                             /\ inflight w1 = inflight w
                             /\ dimensions (view w1) = dimensions (view w)
                             /\ sims (view w1) = sims (view w)
                             /\ cleanup (view w1) = cleanup (view w)
                             /\ drawing (svg (view w1)) = drawing (svg (view w)))
    by (exists w; split_and!; reflexivity).
  assert (Hselect : forall sel, exists w1,
               select sel w = Done w1
               /\ heap w1 = heap w
               /\ graphData (app w1) = graphData (app w)
               /\ dataProp w1 = dataProp w
               /\ inflight w1 = inflight w
               /\ dimensions (view w1) = dimensions (view w)
               /\ sims (view w1) = sims (view w)
               /\ cleanup (view w1) = cleanup (view w)
               /\ drawing (svg (view w1)) = drawing (svg (view w))).
  { intros sel.
    destruct (select_spec sel w)
      as [w1 [E [Hh [_ [Hg [_ [_ [Hi [_ [Hd [Hs [Hc Hdr]]]]]]]]]]]].
    exists w1. split; [exact E |]. unfold dataProp. rewrite Hh, Hg.
    split_and!; try assumption; reflexivity. }
  destruct e; try destruct He; cbn [step].
  - exists (setQuery text w). split_and!; reflexivity.
  - unfold clickNode.
    destruct (nodeElems (svg (view w)) !! i); [apply Hselect | exact Hsame].
  - unfold followLink.
    destruct (relatedLinks w !! i) as [l |]; [| exact Hsame].
    destruct (otherNode w l); [apply Hselect | exact Hsame].
  - apply Hselect.
  - unfold search.
    destruct (commit_restyle (negb (bool_decide (filterText (view w) = text)))
                             (setFilterText text w))
      as [w1 [E [Hh [Ha [Hi [_ [Hd [Hs [Hc [_ Hdr]]]]]]]]]].
    exists w1. split; [exact E |]. unfold dataProp. rewrite Hh, Ha, Hi, Hd, Hs, Hc, Hdr.
    split_and!; reflexivity.
  - destruct (zoomed_spec g w) as [Hh [Ha [Hi [_ [Hd [Hs [Hc Hdr]]]]]]].
    exists (zoomed g w). split; [reflexivity |]. unfold dataProp.
    rewrite Hh, Ha, Hi, Hd, Hs, Hc, Hdr. split_and!; reflexivity.
Qed.

(** The sample page: a search for [ai] leaves the five nodes where the
    simulation put them. *)
Lemma X21_witness :
  let w := started (rt := exampleRuntime None) (ly := exampleLayout) in
  restyles (Search (utf16 "ai"))
  /\ exists w1,
      step (rt := exampleRuntime None) (ly := exampleLayout) w
           (Search (utf16 "ai")) = Done w1
      /\ heap w1 = heap w
      /\ drawing (svg (view w1)) = drawing (svg (view w)).
Proof.
  intros w.
  assert (He : restyles (Search (utf16 "ai"))) by exact I.
  split; [exact He |].
  destruct (X21_highlighting_never_restarts_the_layout
              (rt := exampleRuntime None) (ly := exampleLayout)
              w (Search (utf16 "ai")) He)
    as [w1 [E [Hh [_ [_ [_ [_ [_ [_ Hd]]]]]]]]].
  exists w1. split; [exact E |]. split; [exact Hh | exact Hd].
Defined.

(* ===================================================================== *)
(** ** Further properties: the status and the pending calls *)
(* ===================================================================== *)

Lemma built_app (g : GraphData) (st : GenerationStatus) (p : list Pending)
      (w : World) :
  let w0 := withInflight p (setStatus st (setGraphData g w)) in
  storeData (heap w) g = (heap w0, graphData (app w0))
  /\ status (app w0) = st
  /\ inflight w0 = p.
Proof.
  unfold setGraphData. destruct (storeData (heap w) g) as [h d].
  now split_and!.
Qed.

Lemma drag_status (w : World) (i : nat) (active : bool) (ex ey : number) :
  (status (app (dragstarted i active w)) = status (app w)
   /\ inflight (dragstarted i active w) = inflight w)
  /\ (status (app (dragged i ex ey w)) = status (app w)
      /\ inflight (dragged i ex ey w) = inflight w)
  /\ (status (app (dragended i active w)) = status (app w)
      /\ inflight (dragended i active w) = inflight w).
Proof.
  unfold dragstarted, dragged, dragended.
  destruct (dragTarget w i) as [[s d] |]; destruct active; now split_and!.
Qed.

Lemma tick_status (s : nat) (f : Forces) (w : World) :
  status (app (tick s f w)) = status (app w)
  /\ inflight (tick s f w) = inflight w.
Proof.
  unfold tick. destruct (sims (view w) !! s) as [sim |]; [| now split].
  destruct (running sim); now split.
Qed.

(** What an event does to the status and to the pending calls. *)
Lemma step_status {rt : Runtime} {ly : Layout} (w : World) (e : Event)
      (w1 : World) :
  step w e = Done w1 ->
  (status (app w1) = status (app w) /\ inflight w1 = inflight w)
  \/ (e = Submit /\ status (app w1) = analysing
      /\ inflight w1 = inflight w ++ [Calling])
  \/ (exists i r doc,
         e = ServiceSettled i r /\ inflight w !! i = Some Calling
         /\ status (app w1) = constructing
         /\ inflight w1 = <[i := Building doc]> (inflight w))
  \/ (exists i r,
         e = ServiceSettled i r /\ status (app w1) = failed
         /\ inflight w1 = delete i (inflight w))
  \/ (exists i,
         e = GraphBuilt i /\ status (app w1) = completed
         /\ inflight w1 = delete i (inflight w))
  \/ (exists f,
         e = Upload (Some f) /\ status (app w1) = imported f
         /\ inflight w1 = inflight w).
Proof.
  destruct e; cbn [step].
  - destruct (loading (status (app w)));
      [intros E; injection E as <-; now left |].
    unfold handleGenerate.
    destruct (nonEmpty (trim (query (app w))));
      [| intros E; injection E as <-; now left].
    intros E. apply commit_frame in E. destruct E as [_ [Ha [Hi _]]].
    right; left. rewrite Ha, Hi. now split_and!.
  - intros E. injection E as <-. unfold serviceSettled.
    destruct (inflight w !! i) as [[| d] |] eqn:Hi; try now left.
    destruct (generateKnowledgeGraph r) as [doc |].
    + right; right; left. exists i, r, doc. now split_and!.
    + right; right; right; left. exists i, r. now split_and!.
  - unfold graphBuilt.
    destruct (inflight w !! i) as [[| doc] |];
      try (intros E; injection E as <-; now left).
    destruct (asGraphData doc) as [g |]; [| discriminate].
    intros E. apply commit_frame in E. destruct E as [_ [Ha [Hi _]]].
    destruct (built_app g completed (delete i (inflight w)) w) as [_ [Hs Hp]].
    right; right; right; right; left. exists i.
    rewrite Ha, Hi. split; [reflexivity |]. split; [exact Hs |].
    rewrite Hp. unfold setGraphData.
    now destruct (storeData (heap w) g).
  - unfold handleFileUpload. destruct file as [f |];
      [| intros E; injection E as <-; now left].
    destruct (sizeLimit <? size f)%N;
      [intros E; injection E as <-; now left |].
    destruct (endsWith (toLowerCase (name f)) (utf16 ".json"));
      [| intros E; injection E as <-; now left].
    intros E. apply importJson_cases in E.
    destruct E as [[msg [-> _]] | [doc [g [_ [_ [_ E]]]]]]; [now left |].
    apply commit_frame in E. destruct E as [_ [Ha [Hi _]]].
    destruct (imported_app g (imported f) [] w) as [_ [Hp [_ [Hs _]]]].
    right; right; right; right; right. exists f.
    rewrite Ha, Hi. now split_and!.
  - intros E. injection E as <-. now left.
  - unfold clickNode.
    destruct (nodeElems (svg (view w)) !! i) as [el |];
      [| intros E; injection E as <-; now left].
    destruct (select_spec (Some (nodeDatum el)) w)
      as [w2 [E2 [_ [_ [_ [_ [Hs [Hi _]]]]]]]].
    rewrite E2. intros E. injection E as <-. now left.
  - unfold followLink.
    destruct (relatedLinks w !! i) as [l |];
      [| intros E; injection E as <-; now left].
    destruct (otherNode w l) as [o |];
      [| intros E; injection E as <-; now left].
    destruct (select_spec (Some o) w)
      as [w2 [E2 [_ [_ [_ [_ [Hs [Hi _]]]]]]]].
    rewrite E2. intros E. injection E as <-. now left.
  - destruct (select_spec None w) as [w2 [E2 [_ [_ [_ [_ [Hs [Hi _]]]]]]]].
    rewrite E2. intros E. injection E as <-. now left.
  - unfold search. intros E. apply commit_frame in E.
    destruct E as [_ [Ha [Hi _]]]. left. rewrite Ha, Hi. now split.
  - unfold resize. intros E. apply commit_frame in E.
    destruct E as [_ [Ha [Hi _]]]. left. rewrite Ha, Hi. now split.
  - intros E. injection E as <-. left.
    destruct (zoomed_spec g w) as [_ [Ha [Hi _]]]. now rewrite Ha, Hi.
  - intros E. injection E as <-. left.
    exact (proj1 (drag_status w i active NaN NaN)).
  - intros E. injection E as <-. left.
    exact (proj1 (proj2 (drag_status w i true ex ey))).
  - intros E. injection E as <-. left.
    exact (proj2 (proj2 (drag_status w i active NaN NaN))).
  - intros E. injection E as <-. left. apply tick_status.
Qed.

Lemma step_statusOk {rt : Runtime} {ly : Layout} (w : World) (e : Event)
      (w1 : World) :
  step w e = Done w1 -> statusOk w -> statusOk w1.
Proof.
  intros E [Hpend Hstep]. unfold statusOk.
  destruct (step_status _ _ _ E)
    as [[Hs Hi] | [[_ [Hs Hi]] | [[i [r [doc [_ [Hc [Hs Hi]]]]]]
       | [[i [r [_ [Hs Hi]]]] | [[i [_ [Hs Hi]]] | [f [_ [Hs Hi]]]]]]]];
    rewrite Hs, Hi.
  - now split.
  - unfold analysing. cbn [loading Types.step]. split.
    + intros _ Hnil. now apply app_eq_nil in Hnil as [_ Hnil].
    + split; [now left | reflexivity].
  - unfold constructing. cbn [loading Types.step]. split.
    + intros _ Hnil. apply (f_equal (@length Pending)) in Hnil.
      rewrite length_insert in Hnil. apply lookup_lt_Some in Hc.
      simpl in Hnil. lia.
    + split; [now right | reflexivity].
  - unfold failed. cbn [loading Types.step].
    split; [discriminate |]. split; [discriminate |].
    intros [H | H]; discriminate H.
  - unfold completed. cbn [loading Types.step].
    split; [discriminate |]. split; [discriminate |].
    intros [H | H]; discriminate H.
  - unfold imported. cbn [loading Types.step].
    split; [discriminate |]. split; [discriminate |].
    intros [H | H]; discriminate H.
Qed.

Lemma run_statusOk {rt : Runtime} {ly : Layout} (es : list Event) :
  forall (w w1 : World), run w es = Done w1 -> statusOk w -> statusOk w1.
Proof.
  induction es as [| e rest IH]; intros w w1; cbn [run].
  - intros E. now injection E as <-.
  - destruct (step w e) as [w2 | |] eqn:Es; try discriminate.
    intros E Hok. apply (IH _ _ E). exact (step_statusOk _ _ _ Es Hok).
Qed.

Lemma started_statusOk {rt : Runtime} {ly : Layout} : statusOk started.
Proof.
  assert (Hu : statusOk unmounted).
  { unfold statusOk. cbn. split; [discriminate |].
    split; [discriminate |]. intros [H | H]; discriminate H. }
  unfold started, mounted.
  destruct (commit true true unmounted) as [w | |] eqn:E; try exact Hu.
  apply commit_frame in E. destruct E as [_ [Ha [Hi _]]].
  unfold statusOk. rewrite Ha, Hi. exact Hu.
Qed.

(** X11. Whatever the events, the status shown and the pending calls
    fit together: when the status says loading, a call of
    [handleGenerate] is pending, and loading is said exactly at the steps
    [analyzing] and [building]. A status that is not [idle] never goes
    back to [idle]. *)
Theorem X11_loading_means_a_call_is_pending {rt : Runtime} {ly : Layout} :
  forall (es : list Event) (w : World),
    play es = Done w ->
    (loading (status (app w)) = true -> inflight w <> [])
    /\ (loading (status (app w)) = true
        <-> Types.step (status (app w)) = analyzing
            \/ Types.step (status (app w)) = building)
    /\ (forall e w1,
           step w e = Done w1 ->
           Types.step (status (app w)) <> idle ->
           Types.step (status (app w1)) <> idle).
Proof.
  intros es w E.
  destruct (run_statusOk es _ _ E started_statusOk) as [H1 H2].
  split; [exact H1 |]. split; [exact H2 |].
  intros e w1 Es Hidle.
  destruct (step_status _ _ _ Es)
    as [[Hs Hi] | [[_ [Hs Hi]] | [[i [r [doc [_ [Hc [Hs Hi]]]]]]
       | [[i [r [_ [Hs Hi]]]] | [[i [_ [Hs Hi]]] | [f [_ [Hs Hi]]]]]]]];
    rewrite Hs; try exact Hidle; discriminate.
Qed.

(** The sample page after a query is typed and submitted: loading, with
    one call pending. *)
Lemma X11_witness :
  exists w,
    play (rt := exampleRuntime None) (ly := exampleLayout)
         [TypeQuery (utf16 "AI"); Submit] = Done w
    /\ loading (status (app w)) = true
    /\ inflight w <> [].
Proof.
  destruct (play (rt := exampleRuntime None) (ly := exampleLayout)
                 [TypeQuery (utf16 "AI"); Submit]) as [w | |] eqn:E;
    [| vm_compute in E; discriminate E ..].
  exists w. split; [reflexivity |].
  assert (Hl : loading (status (app w)) = true).
  { apply (f_equal (fun r => match r with
                             | Done x => loading (status (app x))
                             | _ => false
                             end)) in E.
    vm_compute in E. symmetry. exact E. }
  split; [exact Hl |].
  exact (proj1 (X11_loading_means_a_call_is_pending
                  (rt := exampleRuntime None) (ly := exampleLayout) _ w E) Hl).
Defined.

(** X12. A pending call of [handleGenerate] is not cancelled. No event
    other than the continuations of the calls removes or changes a
    pending call: not an import, not another submission. And when the
    last continuation of a call runs with a document of type [GraphData],
    the graph of that document replaces the graph that is shown, also one
    that was imported in between, and the status says complete. *)
Theorem X12_nothing_cancels_a_pending_generation
        {rt : Runtime} {ly : Layout} :
  forall (w : World) (i : nat) (p : Pending),
    inflight w !! i = Some p ->
    (forall e w1, ~ settles e -> step w e = Done w1 ->
                  inflight w1 !! i = Some p)
    /\ (forall doc g w1,
           p = Building doc ->
           asGraphData doc = Some g ->
           step w (GraphBuilt i) = Done w1 ->
           dataProp w1 = g /\ status (app w1) = completed).
Proof.
  intros w i p Hp. split.
  - intros e w1 Hns Es.
    destruct (step_status _ _ _ Es)
      as [[Hs Hi] | [[_ [Hs Hi]] | [[j [r [doc [He _]]]]
         | [[j [r [He _]]] | [[j [He _]] | [f [_ [Hs Hi]]]]]]]];
      try (subst e; exfalso; apply Hns; exact I); rewrite Hi;
      try exact Hp.
    now apply lookup_app_l_Some.
  - intros doc g w1 -> Hg. cbn [step]. unfold graphBuilt. rewrite Hp, Hg.
    intros E.
    destruct (built_app g completed (delete i (inflight w)) w) as [Hs [Hst _]].
    split; [exact (replaced_dataProp _ _ _ _ Hs E) |].
    apply commit_frame in E. destruct E as [_ [Ha _]]. now rewrite Ha.
Qed.

(** A file is imported while a generation waits for its second delay:
    the call is still pending after the import. *)
Lemma X12_witness :
  let node := JObj [(utf16 "id", JStr (utf16 "n1"));
                    (utf16 "label", JStr (utf16 "New"));
                    (utf16 "group", JStr (utf16 "g"))] in
  let doc := JObj [(utf16 "nodes", JArr [node]); (utf16 "links", JArr [])] in
  let f := mkFile (utf16 "other.json") 64 (utf16 "{ }") in
  let w := match play (rt := exampleRuntime (Some doc)) (ly := exampleLayout)
                      [TypeQuery (utf16 "AI"); Submit;
                       ServiceSettled 0 (ApiText (Some (utf16 "{ }")))] with
           | Done w => w
           | _ => unmounted
           end in
  inflight w !! 0 = Some (Building doc)
  /\ exists w1,
      step (rt := exampleRuntime (Some doc)) (ly := exampleLayout) w
           (Upload (Some f)) = Done w1
      /\ inflight w1 !! 0 = Some (Building doc).
Proof.
  intros node doc f w.
  assert (Hp : inflight w !! 0 = Some (Building doc))
    by (vm_compute; reflexivity).
  split; [exact Hp |].
  destruct (step (rt := exampleRuntime (Some doc)) (ly := exampleLayout) w
                 (Upload (Some f))) as [w1 | |] eqn:E;
    [| vm_compute in E; discriminate E ..].
  exists w1. split; [reflexivity |].
  assert (Hns : ~ settles (Upload (Some f))) by (intros H; exact H).
  exact (proj1 (X12_nothing_cancels_a_pending_generation
                  (rt := exampleRuntime (Some doc)) (ly := exampleLayout)
                  w 0 (Building doc) Hp) (Upload (Some f)) w1 Hns E).
Defined.

(* ===================================================================== *)
(** ** Further properties: a change of size *)
(* ===================================================================== *)

(** A run of the simulation effect on a graph with nodes, whatever the
    store: the simulation of the previous run is stopped, and the
    elements are drawn anew, without a position, for a new simulation
    that runs on new objects. *)
Lemma simulationEffect_redraws {ly : Layout} (w w2 : World) :
  nodeRefs (graphData (app w)) <> [] ->
  simulationEffect w = Done w2 ->
  exists sim,
    sims (view w2) = sims (runCleanup (view w)) ++ [sim]
    /\ cleanup (view w2) = Some (length (sims (view w)))
    /\ drawnBy (svg (view w2)) = Some (length (sims (view w)))
    /\ running sim = true
    /\ Forall (fun l => length (heap w) <= l) (simNodes sim)
    /\ nodeElems (svg (view w2)) = map drawNode (simNodes sim).
Proof.
  intros Hne. unfold simulationEffect.
  destruct (nodeRefs (graphData (app w))) as [| r rest]; [congruence |].
  destruct (copyAll (heap w) (r :: rest)) as [h1 ns] eqn:E1.
  destruct (copyAll h1 (linkRefs (graphData (app w)))) as [h2 ls] eqn:E2.
  destruct (initializeLinks ns 0 ls (initializeNodes 0 ns h2)) as [h4 |];
    [| discriminate].
  intros E. injection E as <-. cbn.
  destruct (runCleanup_sims (view w)) as [Hl _]. rewrite Hl.
  exists (mkSim ns ls true 0). split_and!; try reflexivity.
  destruct (copyAll_fresh _ _ _ _ E1) as [objs [_ ->]]. apply seq_above.
Qed.

Lemma drawing_nodeAt (s1 s2 : Svg) :
  drawing s1 = drawing s2 ->
  map nodeAt (nodeElems s1) = map nodeAt (nodeElems s2).
Proof.
  unfold drawing. intros E. injection E as _ Hn _ _.
  apply (f_equal (map snd)) in Hn. now rewrite !map_map in Hn.
Qed.

(** X18. Every change of size, also to the size that the view already
    has, runs the simulation effect again. The state of [App] and the
    search text are kept and the new size is stored; the simulation of
    the previous run is stopped; and when the graph has nodes, the
    elements are drawn anew for a new running simulation on new node
    objects, and stand without a position until its first tick: the
    layout reached before is lost. When the graph has no nodes, the
    drawing is left as it is. *)
Theorem X18_every_resize_restarts_the_simulation
        {rt : Runtime} {ly : Layout} :
  forall (w : World) (d : Q * Q) (w1 : World),
    step w (Resize d) = Done w1 ->
    dimensions (view w1) = d
    /\ app w1 = app w
    /\ filterText (view w1) = filterText (view w)
    /\ (forall s old,
           cleanup (view w) = Some s ->
           sims (view w) !! s = Some old ->
           sims (view w1) !! s = Some (stop old))
    /\ (nodeRefs (graphData (app w)) <> [] ->
        exists sim,
          sims (view w1) !! length (sims (view w)) = Some sim
          /\ running sim = true
          /\ cleanup (view w1) = Some (length (sims (view w)))
          /\ drawnBy (svg (view w1)) = Some (length (sims (view w)))
          /\ Forall (fun l => length (heap w) <= l) (simNodes sim)
          /\ map nodeDatum (nodeElems (svg (view w1))) = simNodes sim
          /\ Forall (fun e => nodeAt e = None) (nodeElems (svg (view w1))))
    /\ (nodeRefs (graphData (app w)) = [] ->
        drawing (svg (view w1)) = drawing (svg (view w))
        /\ cleanup (view w1) = None).
Proof.
  intros w d w1. cbn [step]. unfold resize, commit.
  destruct (simulationEffect (setDimensions d w)) as [w2 | |] eqn:E;
    try discriminate.
  intros E1. injection E1 as <-.
  destruct (simulationEffect_frame _ _ E) as [_ [Ha [_ [Hf [Hd _]]]]].
  destruct (highlightEffect_frame w2) as [_ [Ha2 [_ [Hf2 [Hs2 [Hc2 _]]]]]].
  destruct (highlightEffect_view w2) as [Hd2 _].
  pose proof (highlightEffect_drawing w2) as Hdr.
  split; [now rewrite Hd2, Hd |].
  split; [now rewrite Ha2, Ha |].
  split; [now rewrite Hf2, Hf |].
  split.
  { intros s old Hc Hold. rewrite Hs2.
    destruct (simulationEffect_sims _ _ E) as [extra ->].
    apply lookup_app_l_Some.
    rewrite (runCleanup_stops (view (setDimensions d w)) s Hc).
    cbn [view setDimensions withView sims].
    now rewrite list_lookup_alter_eq, Hold. }
  split.
  - intros Hne.
    destruct (simulationEffect_redraws (setDimensions d w) w2 Hne E)
      as [sim [Hsims [Hcl [Hdb [Hrun [Hfresh Hel]]]]]].
    exists sim. rewrite Hs2, Hc2, Hsims.
    destruct (runCleanup_sims (view (setDimensions d w))) as [Hl _].
    split.
    { rewrite lookup_app_r by (rewrite Hl; cbn; lia).
      rewrite Hl. cbn [view setDimensions withView sims].
      now rewrite Nat.sub_diag. }
    split; [exact Hrun |]. split; [exact Hcl |].
    destruct (drawing_data _ _ Hdr) as [Hdb1 Hdat].
    split; [now rewrite Hdb1 |]. split; [exact Hfresh |].
    split.
    + rewrite Hdat, Hel, map_map. apply map_id.
    + apply drawing_nodeAt in Hdr. rewrite Hel, map_map in Hdr.
      apply Forall_forall. intros e He.
      apply list_elem_of_lookup in He as [j Hj].
      apply (f_equal (fun t => t !! j)) in Hdr.
      rewrite !list_lookup_fmap, Hj in Hdr. cbn in Hdr.
      destruct (simNodes sim !! j); cbn in Hdr; [| discriminate Hdr].
      now injection Hdr.
  - intros Hempty.
    assert (E0 : simulationEffect (setDimensions d w)
                 = Done (withView (runCleanup (view (setDimensions d w)))
                                  (setDimensions d w)))
      by (apply simulationEffect_empty; exact Hempty).
    rewrite E0 in E. injection E as <-.
    split.
    + rewrite Hdr. cbn [view withView]. now rewrite runCleanup_svg.
    + rewrite Hc2. cbn [view withView]. unfold runCleanup.
      cbn [view setDimensions withView cleanup].
      destruct (cleanup (view w)); reflexivity.
Qed.

(** The sample page resized to the size it has: the first simulation is
    stopped and a second one runs. *)
Lemma X18_witness :
  let w := started (rt := exampleRuntime None) (ly := exampleLayout) in
  let w1 := match step (rt := exampleRuntime None) (ly := exampleLayout)
                       w (Resize (dimensions (view w))) with
            | Done x => x
            | _ => unmounted
            end in
  step (rt := exampleRuntime None) (ly := exampleLayout)
       w (Resize (dimensions (view w))) = Done w1
  /\ dimensions (view w1) = dimensions (view w)
  /\ drawnBy (svg (view w)) = Some 0
  /\ drawnBy (svg (view w1)) = Some 1
  /\ option_map running (sims (view w1) !! 0) = Some false.
Proof.
  intros w w1.
  assert (E : step (rt := exampleRuntime None) (ly := exampleLayout)
                   w (Resize (dimensions (view w))) = Done w1)
    by (vm_compute; reflexivity).
  split; [exact E |].
  destruct (X18_every_resize_restarts_the_simulation
              (rt := exampleRuntime None) (ly := exampleLayout) _ _ _ E)
    as [Hd _].
  split; [exact Hd |].
  split; [vm_compute; reflexivity |].
  split; vm_compute; reflexivity.
Defined.

(* ===================================================================== *)
(** ** Further properties: the colours of the groups *)
(* ===================================================================== *)

Lemma indexOf_Some (d : jsstring) (D : list jsstring) (k : nat) :
  indexOf d D = Some k -> D !! k = Some d.
Proof.
  revert k. induction D as [| d0 D IH]; intros k; cbn [indexOf];
    [discriminate |].
  destruct (str_eqb d0 d) eqn:E.
  - intros E1. injection E1 as <-. apply str_eqb_true in E. now subst.
  - destruct (indexOf d D) as [j |]; [| discriminate].
    cbn. intros E1. injection E1 as <-. now apply IH.
Qed.

Lemma indexOf_None (d : jsstring) (D : list jsstring) :
  indexOf d D = None -> ~ In d D.
Proof.
  induction D as [| d0 D IH]; cbn [indexOf]; [tauto |].
  destruct (str_eqb d0 d) eqn:E; [discriminate |].
  destruct (indexOf d D) as [j |]; [discriminate |].
  intros _ [-> | Hin]; [now rewrite str_eqb_refl in E | now apply IH].
Qed.

Lemma indexOf_app_l (d : jsstring) (D E : list jsstring) (k : nat) :
  indexOf d D = Some k -> indexOf d (D ++ E) = Some k.
Proof.
  revert k. induction D as [| d0 D IH]; intros k; cbn [indexOf];
    [discriminate |].
  rewrite <- app_comm_cons. cbn [indexOf].
  destruct (str_eqb d0 d); [trivial |].
  destruct (indexOf d D) as [j |]; [| discriminate].
  now rewrite (IH j eq_refl).
Qed.

Lemma indexOf_new (d : jsstring) (D : list jsstring) :
  indexOf d D = None -> indexOf d (D ++ [d]) = Some (length D).
Proof.
  induction D as [| d0 D IH]; cbn [indexOf].
  - intros _. cbn. now rewrite str_eqb_refl.
  - rewrite <- app_comm_cons. cbn [indexOf].
    destruct (str_eqb d0 d); [discriminate |].
    destruct (indexOf d D) as [j |]; [discriminate |].
    intros _. now rewrite IH.
Qed.

Lemma color_domain (D : list jsstring) (g : jsstring) :
  exists k, indexOf g (fst (color D g)) = Some k
            /\ snd (color D g) = schemeCategory10 !! (k mod 10)
            /\ ((indexOf g D = Some k /\ fst (color D g) = D)
                \/ (indexOf g D = None /\ fst (color D g) = D ++ [g])).
Proof.
  unfold color, scaleOrdinal.
  destruct (indexOf g D) as [k |] eqn:E.
  - exists k. cbn. split; [exact E |]. split; [reflexivity | now left].
  - exists (length D). cbn. split; [now apply indexOf_new |].
    split; [reflexivity | now right].
Qed.

Lemma domainAfter_extends (ns : list GraphNode) :
  forall D, exists E, domainAfter D ns = D ++ E.
Proof.
  induction ns as [| n rest IH]; intros D; cbn [domainAfter].
  - exists []. now rewrite app_nil_r.
  - destruct (IH (fst (color D (group n)))) as [E ->].
    destruct (color_domain D (group n)) as [k [_ [_ [[_ ->] | [_ ->]]]]].
    + now exists E.
    + exists ([group n] ++ E). now rewrite app_assoc.
Qed.

Lemma domainAfter_groups (ns : list GraphNode) :
  forall D g, In g (domainAfter D ns) -> In g D \/ In g (map group ns).
Proof.
  induction ns as [| n rest IH]; intros D g; cbn [domainAfter map];
    [now left |].
  intros Hin. apply IH in Hin as [Hin | Hin]; [| right; now right].
  destruct (color_domain D (group n)) as [k [_ [_ [[_ E] | [_ E]]]]];
    rewrite E in Hin; [now left |].
  apply in_app_or in Hin as [Hin | [<- | []]]; [now left |].
  right. now left.
Qed.

Lemma domainAfter_NoDup (ns : list GraphNode) :
  forall D, NoDup D -> NoDup (domainAfter D ns).
Proof.
  induction ns as [| n rest IH]; intros D HD; cbn [domainAfter]; [exact HD |].
  apply IH.
  destruct (color_domain D (group n)) as [k [_ [_ [[_ ->] | [Hnone ->]]]]];
    [exact HD |].
  apply NoDup_app. split; [exact HD |]. split.
  - intros x Hx Hx1. apply list_elem_of_In in Hx.
    apply list_elem_of_In in Hx1 as [<- | []].
    exact (indexOf_None _ _ Hnone Hx).
  - apply NoDup_singleton.
Qed.

(** The fill of a circle is the colour at the index of the group of its
    node in the domain that the scale ends with. *)
Lemma fills_spec (ns : list GraphNode) :
  forall (D : list jsstring) (i : nat) (n : GraphNode) (c : option string),
    ns !! i = Some n ->
    fills D ns !! i = Some c ->
    exists k, indexOf (group n) (domainAfter D ns) = Some k
              /\ c = schemeCategory10 !! (k mod 10).
Proof.
  induction ns as [| n0 rest IH]; intros D i n c Hn Hc; [discriminate Hn |].
  cbn [fills domainAfter] in *.
  destruct (color D (group n0)) as [D1 c0] eqn:Ec.
  destruct i as [| i].
  - cbn in Hn, Hc. injection Hn as <-. injection Hc as <-.
    destruct (color_domain D (group n0)) as [k [Hk [Hc0 _]]].
    rewrite Ec in Hk, Hc0. cbn [fst snd] in *.
    exists k. split; [| exact Hc0].
    destruct (domainAfter_extends rest D1) as [E ->].
    now apply indexOf_app_l.
  - cbn in Hn, Hc. cbn [fst]. exact (IH D1 i n c Hn Hc).
Qed.

Lemma scheme_NoDup : NoDup schemeCategory10.
Proof.
  unfold schemeCategory10.
  repeat (constructor;
          [intros H; apply list_elem_of_In in H; cbn in H;
           repeat (destruct H as [H | H]; [discriminate H |]); exact H |]).
  constructor.
Qed.

(** With groups that are all different, the [i]-th circle gets the
    colour [i mod 10] of the scheme. *)
Lemma fills_distinct (ns : list GraphNode) :
  forall D,
    NoDup (D ++ map group ns) ->
    fills D ns = imap (fun i _ => schemeCategory10 !! ((length D + i) mod 10)) ns.
Proof.
  induction ns as [| n rest IH]; intros D Hnd; [reflexivity |].
  cbn [fills]. rewrite imap_cons.
  assert (Hnone : indexOf (group n) D = None).
  { destruct (indexOf (group n) D) as [k |] eqn:E; [| reflexivity].
    apply indexOf_Some in E. exfalso.
    apply NoDup_app in Hnd as [_ [Hdis _]].
    apply (Hdis (group n)); [eapply list_elem_of_lookup_2, E |].
    cbn. apply list_elem_of_here. }
  unfold color, scaleOrdinal. rewrite Hnone. cbn [length schemeCategory10].
  rewrite Nat.add_0_r. f_equal.
  rewrite IH.
  - apply imap_ext. intros i x _. cbv beta. unfold compose.
    rewrite length_app. cbn [length].
    replace (length D + 1 + i) with (length D + S i) by lia. reflexivity.
  - cbn [map] in Hnd. now rewrite <- app_assoc.
Qed.

(** X17. The colour of a circle depends on the group of its node only:
    two nodes of one group get the same fill, and every circle gets a
    fill. While the graph has at most ten groups, nodes of different
    groups get different fills; the scale has ten colours, so with more
    groups it repeats them: when the groups of the nodes are all
    different, the [i]-th node gets the colour at [i mod 10], and the
    eleventh node the colour of the first. *)
Theorem X17_fill_is_a_function_of_the_group :
  (forall (ns : list GraphNode) (i j : nat) (ni nj : GraphNode)
          (ci cj : option string),
      ns !! i = Some ni -> ns !! j = Some nj ->
      nodeFills ns !! i = Some ci -> nodeFills ns !! j = Some cj ->
      ci <> None
      /\ (group ni = group nj -> ci = cj)
      /\ ((forall D : list jsstring,
              NoDup D -> (forall g, In g D -> In g (map group ns)) ->
              length D <= 10) ->
          ci = cj -> group ni = group nj))
  /\ (forall (ns : list GraphNode),
         NoDup (map group ns) ->
         nodeFills ns
         = imap (fun i _ => schemeCategory10 !! (i mod 10)) ns).
Proof.
  split.
  - intros ns i j ni nj ci cj Hi Hj Hci Hcj. unfold nodeFills in *.
    destruct (fills_spec ns [] i ni ci Hi Hci) as [ki [Iki ->]].
    destruct (fills_spec ns [] j nj cj Hj Hcj) as [kj [Ikj ->]].
    assert (Hlt : forall k, k mod 10 < length schemeCategory10).
    { intros k. change (length schemeCategory10) with 10.
      apply Nat.mod_upper_bound. lia. }
    split.
    { destruct (lookup_lt_is_Some_2 schemeCategory10 (ki mod 10) (Hlt ki))
        as [c Hc]. rewrite Hc. discriminate. }
    split.
    { intros Hg. rewrite Hg in Iki. congruence. }
    intros Hten Hc.
    pose proof (domainAfter_NoDup ns [] (NoDup_nil_2)) as Hnd.
    assert (Hlen : length (domainAfter [] ns) <= 10).
    { apply Hten; [exact Hnd |]. intros g Hg.
      now destruct (domainAfter_groups ns [] g Hg) as [[] | H]. }
    apply indexOf_Some in Iki, Ikj.
    pose proof (lookup_lt_Some _ _ _ Iki) as Li.
    pose proof (lookup_lt_Some _ _ _ Ikj) as Lj.
    rewrite !Nat.mod_small in Hc by lia.
    destruct (lookup_lt_is_Some_2 schemeCategory10 ki) as [c Hci1];
      [change (length schemeCategory10) with 10; lia |].
    rewrite Hci1 in Hc. symmetry in Hc.
    pose proof (NoDup_lookup _ _ _ _ scheme_NoDup Hci1 Hc) as Heq.
    subst kj. congruence.
  - intros ns Hnd. unfold nodeFills. now rewrite (fills_distinct ns []).
Qed.

(** The sample graph has three groups: [ai] and [ml] are of one group
    and get one fill, [nn] is of another group and gets another. *)
Lemma X17_witness :
  let ns := nodes INITIAL_DATA in
  exists ai ml nn c0 c1 c3,
    ns !! 0 = Some ai /\ ns !! 1 = Some ml /\ ns !! 3 = Some nn
    /\ nodeFills ns !! 0 = Some c0 /\ nodeFills ns !! 1 = Some c1
    /\ nodeFills ns !! 3 = Some c3
    /\ group ai = group ml
    /\ c0 = c1
    /\ (c0 = c3 -> group ai = group nn)
    /\ c0 = Some "#1f77b4"%string
    /\ c3 = Some "#ff7f0e"%string.
Proof.
  intros ns.
  exists (plainNode (utf16 "ai") (utf16 "人工智能") (utf16 "技术")),
         (plainNode (utf16 "ml") (utf16 "机器学习") (utf16 "技术")),
         (plainNode (utf16 "nn") (utf16 "神经网络") (utf16 "概念")),
         (Some "#1f77b4"%string), (Some "#1f77b4"%string),
         (Some "#ff7f0e"%string).
  assert (H0 : ns !! 0
               = Some (plainNode (utf16 "ai") (utf16 "人工智能") (utf16 "技术")))
    by reflexivity.
  assert (H1 : ns !! 1
               = Some (plainNode (utf16 "ml") (utf16 "机器学习") (utf16 "技术")))
    by reflexivity.
  assert (H3 : ns !! 3
               = Some (plainNode (utf16 "nn") (utf16 "神经网络") (utf16 "概念")))
    by reflexivity.
  assert (F0 : nodeFills ns !! 0 = Some (Some "#1f77b4"%string))
    by (vm_compute; reflexivity).
  assert (F1 : nodeFills ns !! 1 = Some (Some "#1f77b4"%string))
    by (vm_compute; reflexivity).
  assert (F3 : nodeFills ns !! 3 = Some (Some "#ff7f0e"%string))
    by (vm_compute; reflexivity).
  assert (Hg : group (plainNode (utf16 "ai") (utf16 "人工智能") (utf16 "技术"))
               = group (plainNode (utf16 "ml") (utf16 "机器学习") (utf16 "技术")))
    by reflexivity.
  assert (Hten : forall D : list jsstring,
             NoDup D -> (forall g, In g D -> In g (map group ns)) ->
             length D <= 10).
  { intros D HD Hsub.
    apply (Nat.le_trans _ (length (map group ns)));
      [| vm_compute; lia].
    apply submseteq_length, NoDup_submseteq; [exact HD |].
    intros g Hg1. apply list_elem_of_In, Hsub, list_elem_of_In, Hg1. }
  split; [exact H0 |]. split; [exact H1 |]. split; [exact H3 |].
  split; [exact F0 |]. split; [exact F1 |]. split; [exact F3 |].
  split; [exact Hg |].
  split; [| split; [| split; reflexivity]].
  - exact (proj1 (proj2 (proj1 X17_fill_is_a_function_of_the_group
                               ns 0 1 _ _ _ _ H0 H1 F0 F1)) Hg).
  - exact (proj2 (proj2 (proj1 X17_fill_is_a_function_of_the_group
                               ns 0 3 _ _ _ _ H0 H3 F0 F3)) Hten).
Defined.
